(** * Minetrack: persistence layer, record refresh and client reconnection

    A shallow embedding of the two database back ends ([lib/database.js] in
    its MongoDB and MySQL variants) and of the browser-side [SocketManager]
    ([assets/js/socket.js]), together with the properties of the written
    specification that concern them.

    Conventions.
    - JavaScript numbers that hold timestamps, counters and player counts are
      integers in every path modelled here; they are embedded as [Z].
    - [null] / [undefined] are embedded as [None].
    - A thrown exception is the [Throw] outcome of a computation; the log
      written through [logger] is kept as a list of entries. *)

From Stdlib Require Import ZArith List String Ascii Bool Lia Arith.
From Stdlib Require Import DecimalString Permutation.
Import ListNotations.

Local Open Scope string_scope.
Local Open Scope list_scope.
Local Open Scope Z_scope.

(* ================================================================== *)
(** * Browser side: [SocketManager] *)
(* ================================================================== *)

Module Socket.

(** Text shown by [this._app.caption.set]; the wording is irrelevant here,
    only which branch wrote it. *)
Inductive Caption :=
| CaptionNone
| CaptionConnecting
| CaptionLost
| CaptionReconnecting
| CaptionReconnectingIn (seconds : Z).

(** The fields of [SocketManager].  [_webSocket] holds the identity of the
    live [WebSocket] object, [_reconnectDelaySeconds] is [undefined] until
    the first [scheduleReconnect]. *)
Record SocketManager := mkSocketManager {
  _hasRequestedHistoryGraph : bool;
  _reconnectDelayBase : Z;
  _reconnectDelaySeconds : option Z;
  _webSocket : option nat
}.

(** The page around the manager: the sockets created so far are numbered,
    [sent] lists what was written to which socket, [intervals] counts the
    countdown timers started by [setInterval] and not yet cleared. *)
Record Page := mkPage {
  manager : SocketManager;
  nextSocket : nat;
  sent : list (nat * string);
  intervals : nat;
  caption : Caption;
  uncaught : nat
}.

Definition with_manager (p : Page) (m : SocketManager) : Page :=
  mkPage m (nextSocket p) (sent p) (intervals p) (caption p) (uncaught p).

Definition with_caption (p : Page) (c : Caption) : Page :=
  mkPage (manager p) (nextSocket p) (sent p) (intervals p) c (uncaught p).

(** [constructor (app)] *)
Definition constructor : Page :=
  mkPage (mkSocketManager false 0 None None) 0%nat [] 0%nat CaptionNone 0%nat.

(** [reset ()] *)
Definition reset (p : Page) : Page :=
  let m := manager p in
  with_manager p
    (mkSocketManager false (_reconnectDelayBase m)
       (_reconnectDelaySeconds m) (_webSocket m)).

(** [createWebSocket ()]: a new socket object replaces the reference. *)
Definition createWebSocket (p : Page) : Page :=
  let m := manager p in
  mkPage
    (mkSocketManager (_hasRequestedHistoryGraph m) (_reconnectDelayBase m)
       (_reconnectDelaySeconds m) (Some (nextSocket p)))
    (S (nextSocket p)) (sent p) (intervals p) (caption p) (uncaught p).

(** [_webSocket.onopen] *)
Definition onopen (p : Page) : Page :=
  let p := with_caption p CaptionConnecting in
  let m := manager p in
  with_manager p
    (mkSocketManager (_hasRequestedHistoryGraph m) 0
       (_reconnectDelaySeconds m) (_webSocket m)).

(** [scheduleReconnect ()] up to and including the call of [setInterval]. *)
Definition scheduleReconnect (p : Page) : Page :=
  let m := manager p in
  let base := _reconnectDelayBase m + 1 in
  mkPage
    (mkSocketManager (_hasRequestedHistoryGraph m) base
       (Some (Z.min (base * base) 30)) None)
    (nextSocket p) (sent p) (S (intervals p)) (caption p) (uncaught p).

(** [App.handleDisconnect ()]: of its resets only [socketManager.reset ()]
    touches the state modelled here. *)
Definition handleDisconnect (p : Page) : Page := reset p.

(** [_webSocket.onclose]; both branches on [event.code] set the same
    caption. *)
Definition onclose (code : Z) (p : Page) : Page :=
  let p := handleDisconnect p in
  let p := if code =? 1006 then with_caption p CaptionLost
           else with_caption p CaptionLost in
  scheduleReconnect p.

(** One firing of the countdown callback given to [setInterval]. *)
Definition tick (p : Page) : Page :=
  match intervals p with
  | O => p
  | S k =>
    let m := manager p in
    match _reconnectDelaySeconds m with
    | None => p
    | Some d =>
      let d' := d - 1 in
      let m' := mkSocketManager (_hasRequestedHistoryGraph m)
                  (_reconnectDelayBase m) (Some d') (_webSocket m) in
      let p' := with_manager p m' in
      if d' =? 0 then
        let p' := mkPage m' (nextSocket p) (sent p) k (caption p)
                    (uncaught p) in
        createWebSocket (with_caption p' CaptionReconnecting)
      else if 0 <? d' then with_caption p' (CaptionReconnectingIn d')
      else p'
    end
  end.

(** [sendHistoryGraphRequest ()].  Writing to an undefined [_webSocket]
    raises a [TypeError] after the flag has been set. *)
Definition sendHistoryGraphRequest (p : Page) : Page :=
  let m := manager p in
  if negb (_hasRequestedHistoryGraph m) then
    let m' := mkSocketManager true (_reconnectDelayBase m)
                (_reconnectDelaySeconds m) (_webSocket m) in
    match _webSocket m with
    | Some c =>
      mkPage m' (nextSocket p) (sent p ++ [(c, "requestHistoryGraph")])
        (intervals p) (caption p) (uncaught p)
    | None =>
      mkPage m' (nextSocket p) (sent p) (intervals p) (caption p)
        (S (uncaught p))
    end
  else p.

(** What can happen to the page. *)
Inductive Event :=
| Open
| Close (code : Z)
| Tick
| MsgInit (isGraphVisible : bool)
| MsgUpdateServers
| MsgHistoryGraph
| CallSendHistoryGraphRequest.

(** [_webSocket.onmessage], restricted to its effect on the manager. *)
Definition step (p : Page) (e : Event) : Page :=
  match e with
  | Open => onopen p
  | Close code => onclose code p
  | Tick => tick p
  | MsgInit isGraphVisible =>
    if isGraphVisible then sendHistoryGraphRequest p else p
  | MsgUpdateServers => p
  | MsgHistoryGraph => p
  | CallSendHistoryGraphRequest => sendHistoryGraphRequest p
  end.

Definition run (evs : list Event) (p : Page) : Page := fold_left step evs p.

(** [App.init ()] *)
Definition init : Page := createWebSocket constructor.

Definition is_close (e : Event) : bool :=
  match e with Close _ => true | _ => false end.

(** Messages written to socket [c]. *)
Definition sent_on (c : nat) (p : Page) : nat :=
  count_occ Nat.eq_dec (map fst (sent p)) c.

(** The delay computed by the last [scheduleReconnect]. *)
Definition delay_of (p : Page) : Z :=
  match _reconnectDelaySeconds (manager p) with Some d => d | None => 0 end.

(** The countdown after a close: the timer fires once per second until the
    new socket is created. *)
Definition countdown (p : Page) : Page :=
  run (repeat Tick (Z.to_nat (delay_of p))) p.

(** A connection attempt that fails: the socket closes abnormally without
    having been opened, and the countdown runs to the next attempt. *)
Definition failed_attempt (p : Page) : Page := countdown (onclose 1006 p).

(** The delays of [n] consecutive failed attempts, oldest first. *)
Fixpoint backoff (n : nat) (p : Page) : list Z :=
  match n with
  | O => []
  | S k => delay_of (onclose 1006 p) :: backoff k (failed_attempt p)
  end.

(** [min (n * n, 30)] *)
Definition quadratic_capped (n : nat) : Z :=
  Z.min (Z.of_nat n * Z.of_nat n) 30.

(** Sockets are numbered below [nextSocket], no socket was written to
    twice, and while the flag is down the live socket was not written
    to. *)
Definition tidy (p : Page) : Prop :=
  (forall c, In c (map fst (sent p)) -> (c < nextSocket p)%nat)
  /\ (forall c, _webSocket (manager p) = Some c -> (c < nextSocket p)%nat)
  /\ NoDup (map fst (sent p))
  /\ (_hasRequestedHistoryGraph (manager p) = false ->
      forall c, _webSocket (manager p) = Some c ->
                ~ In c (map fst (sent p))).

End Socket.

(* ================================================================== *)
(** * Server side: what both back ends share *)
(* ================================================================== *)

Module Js.

(** Values that can be thrown: the error objects handed back by a database
    driver (they carry a [code]), [new Error (message)], the [TypeError] of
    a property access on [null] or [undefined] or of a call of something
    that is not a function, and the [RangeError] of an array given a
    length that is not a number. *)
Inductive Exn :=
| DriverError (code : string)
| Error (message : string)
| TypeError
| RangeError.

Inductive Level := LevelError | LevelInfo.

Record LogEntry := mkLog { level : Level; message : string }.

Inductive Outcome (A : Type) :=
| Ok (a : A)
| Throw (e : Exn).
Arguments Ok {A} a.
Arguments Throw {A} e.

(** Computations over a state [S] that may throw. The state survives a
    throw: what was logged or assigned before it stays. *)
Definition M (S A : Type) : Type := S -> Outcome A * S.

Definition ret {S A} (a : A) : M S A := fun s => (Ok a, s).

Definition bind {S A B} (c : M S A) (k : A -> M S B) : M S B :=
  fun s =>
    match c s with
    | (Ok a, s') => k a s'
    | (Throw e, s') => (Throw e, s')
    end.

Definition throw {S A} (e : Exn) : M S A := fun s => (Throw e, s).

(** [try { c } catch (err) { handler err }] *)
Definition try_catch {S A} (c : M S A) (handler : Exn -> M S A) : M S A :=
  fun s =>
    match c s with
    | (Ok a, s') => (Ok a, s')
    | (Throw e, s') => handler e s'
    end.

Definition get {S} : M S S := fun s => (Ok s, s).
Definition modify {S} (f : S -> S) : M S unit := fun s => (Ok tt, f s).

(** Template literals print numbers in decimal and [null] as ["null"]. *)
Definition string_of_Z (z : Z) : string :=
  DecimalString.NilZero.string_of_int (Z.to_int z).

Definition string_of_number (v : option Z) : string :=
  match v with Some z => string_of_Z z | None => "null" end.

(** The completion callbacks handed to the four entry points. *)
Inductive Callback :=
| EnsureIndexesCallback
| LoadGraphPointsCallback
| LoadRecordsCallback
| InitOldPingsDeleteCallback.

Definition Callback_eq_dec (a b : Callback) : {a = b} + {a <> b}.
Proof. decide equality. Defined.

(** A row of [pings]. [playerCount] is the prober's [unsafePlayerCount],
    [null] when the probe failed. *)
Record Ping := mkPing {
  ping_timestamp : Z;
  ping_ip : string;
  ping_playerCount : option Z
}.

(** A row of [players_record]. *)
Record PlayersRecord := mkPlayersRecord {
  record_timestamp : option Z;
  record_ip : string;
  record_playerCount : option Z
}.

(** [serverRegistration.recordData] *)
Record RecordData := mkRecordData {
  playerCount : option Z;
  timestamp : option Z
}.

(** The part of a [ServerRegistration] the database layer touches:
    [data.ip], [recordData], how often [findNewGraphPeak] ran, and the
    arguments of the last [loadGraphPoints]. *)
Record ServerRegistration := mkServerRegistration {
  data_ip : string;
  recordData : option RecordData;
  peakScans : nat;
  graphPoints : option (Z * list Z * list (option Z))
}.

Definition findNewGraphPeak (r : ServerRegistration) : ServerRegistration :=
  mkServerRegistration (data_ip r) (recordData r) (S (peakScans r))
    (graphPoints r).

Definition set_recordData (d : RecordData) (r : ServerRegistration)
  : ServerRegistration :=
  mkServerRegistration (data_ip r) (Some d) (peakScans r) (graphPoints r).

Definition set_graphPoints (g : Z * list Z * list (option Z))
  (r : ServerRegistration) : ServerRegistration :=
  mkServerRegistration (data_ip r) (recordData r) (peakScans r) (Some g).

(** [config]: the entries read by the database layer.
    [oldPingsCleanup.interval] may be left out. *)
Record Config := mkConfig {
  graphDuration : Z;
  oldPingsCleanup_interval : option Z
}.

(** [value || fallback] on a number that may be undefined: [undefined] and
    [0] are falsy. *)
Definition or_default (value : option Z) (fallback : Z) : Z :=
  match value with
  | None => fallback
  | Some v => if v =? 0 then fallback else v
  end.

(** Order of [playerCount] values, [null] below every number (the order of
    a descending sort in MongoDB and of [MAX], which skips [NULL]). *)
Definition count_leb (a b : option Z) : bool :=
  match a, b with
  | None, _ => true
  | Some _, None => false
  | Some x, Some y => x <=? y
  end.

(** [startTime <= row.timestamp && row.timestamp <= endTime], the test of
    [$gte] / [$lte] and of [timestamp >= ? AND timestamp <= ?]. *)
Definition between (startTime endTime : Z) (row : Ping) : bool :=
  (startTime <=? ping_timestamp row) && (ping_timestamp row <=? endTime).

(** The next call of a driver is not made to fail from outside. *)
Definition next_ok (faults : list (option Exn)) : bool :=
  match faults with
  | Some _ :: _ => false
  | _ => true
  end.

(** Replace the element at position [i]. *)
Fixpoint update_nth {A} (i : nat) (f : A -> A) (l : list A) : list A :=
  match l, i with
  | [], _ => []
  | x :: t, O => f x :: t
  | x :: t, S j => x :: update_nth j f t
  end.

(** ** Rows grouped under their address

    [relativeGraphData] is an empty object ([{}], MongoDB back end) or an
    empty array ([[]], MySQL back end) used as a map from [row.ip] to a
    pair [[timestamps, playerCounts]].  The properties the loop creates are
    kept here with their values in the order of their creation. *)
Inductive Holder := PlainObject | ArrayObject.

(** The value of a decimal digit. *)
Definition digit (c : ascii) : option N :=
  let n := N_of_ascii c in
  if ((48 <=? n) && (n <=? 57))%N then Some (n - 48)%N else None.

Fixpoint numeral (s : string) (acc : N) : option N :=
  match s with
  | EmptyString => Some acc
  | String c rest =>
    match digit c with
    | Some d => numeral rest (10 * acc + d)%N
    | None => None
    end
  end.

(** A key is an array index when it is the decimal numeral, without sign
    and without leading zero, of an integer from 0 to 2^32 - 2. *)
Definition array_index (key : string) : option N :=
  match key with
  | EmptyString => None
  | String "0" EmptyString => Some 0%N
  | String "0" _ => None
  | _ =>
    match numeral key 0 with
    | Some n => if (n <? 4294967295)%N then Some n else None
    | None => None
    end
  end.

(** The names every object inherits from [Object.prototype], and the
    further ones an array inherits from [Array.prototype] (ECMAScript
    2023).  Their values are functions, or the prototype itself for
    [__proto__]: truthy, and without a property [0]. *)
Definition object_prototype : list string :=
  ["constructor"; "__defineGetter__"; "__defineSetter__"; "hasOwnProperty";
   "__lookupGetter__"; "__lookupSetter__"; "isPrototypeOf";
   "propertyIsEnumerable"; "toString"; "valueOf"; "__proto__";
   "toLocaleString"].

Definition array_prototype : list string :=
  ["at"; "concat"; "copyWithin"; "fill"; "find"; "findIndex"; "findLast";
   "findLastIndex"; "lastIndexOf"; "pop"; "push"; "reverse"; "shift";
   "unshift"; "slice"; "sort"; "splice"; "includes"; "indexOf"; "join";
   "keys"; "entries"; "values"; "forEach"; "filter"; "flat"; "flatMap";
   "map"; "every"; "some"; "reduce"; "reduceRight"; "toReversed";
   "toSorted"; "toSpliced"; "with"].

Definition is_index (e : string * (list Z * list (option Z))) : bool :=
  match array_index (fst e) with Some _ => true | None => false end.

(** What happens to a row whose [row.ip] is not a property the loop
    created.  An inherited name gives a truthy [graphData] without a
    property [0], so [graphData[0].push] throws a [TypeError].  The
    [length] of an array is its own: while it is 0 it is falsy and the
    assignment [relativeGraphData.length = [[], []]] throws a
    [RangeError]; once an array index was created it is a positive number
    and [graphData[0].push] throws a [TypeError].  For any other name the
    property is created. *)
Definition inherited (h : Holder) (key : string)
  (g : list (string * (list Z * list (option Z)))) : option Exn :=
  match h with
  | PlainObject =>
    if existsb (String.eqb key) object_prototype then Some TypeError
    else None
  | ArrayObject =>
    if String.eqb key "length"
    then Some (if existsb is_index g then TypeError else RangeError)
    else if existsb (String.eqb key) (array_prototype ++ object_prototype)
    then Some TypeError
    else None
  end.

(** The keys the loop cannot create. *)
Definition reserved (h : Holder) (key : string) : bool :=
  match inherited h key [] with Some _ => true | None => false end.

(** The row joins the pair kept under [row.ip], or a new pair at the end
    when there is none. *)
Fixpoint append_row (row : Ping)
  (g : list (string * (list Z * list (option Z))))
  : list (string * (list Z * list (option Z))) :=
  match g with
  | [] => [(ping_ip row, ([ping_timestamp row], [ping_playerCount row]))]
  | (k, (ts, vs)) :: rest =>
    if String.eqb k (ping_ip row)
    then (k, (ts ++ [ping_timestamp row], vs ++ [ping_playerCount row]))
           :: rest
    else (k, (ts, vs)) :: append_row row rest
  end.

(** One turn of the loop over [pingData]. *)
Definition group_push (h : Holder) (row : Ping)
  (g : list (string * (list Z * list (option Z))))
  : Exn + list (string * (list Z * list (option Z))) :=
  if existsb (fun e => String.eqb (fst e) (ping_ip row)) g
  then inr (append_row row g)
  else
    match inherited h (ping_ip row) g with
    | Some e => inl e
    | None => inr (append_row row g)
    end.

(** The loop over [pingData], from the properties [g]. *)
Fixpoint group_rows (h : Holder) (pingData : list Ping)
  (g : list (string * (list Z * list (option Z))))
  : Exn + list (string * (list Z * list (option Z))) :=
  match pingData with
  | [] => inr g
  | row :: rest =>
    match group_push h row g with
    | inl e => inl e
    | inr g' => group_rows h rest g'
    end
  end.

(** [Object.keys]: the array indices in ascending order, then the other
    keys in the order of their creation; each key with its value. *)
Fixpoint insert_index (e : string * (list Z * list (option Z)))
  (l : list (string * (list Z * list (option Z))))
  : list (string * (list Z * list (option Z))) :=
  match l with
  | [] => [e]
  | e' :: rest =>
    match array_index (fst e), array_index (fst e') with
    | Some n, Some m =>
      if (n <? m)%N then e :: l else e' :: insert_index e rest
    | _, _ => e :: l
    end
  end.

Definition object_keys (g : list (string * (list Z * list (option Z))))
  : list (string * (list Z * list (option Z))) :=
  fold_right insert_index [] (filter is_index g)
  ++ filter (fun e => negb (is_index e)) g.

(** The inner [for ... break] loop: the first registration whose [data.ip]
    equals [ip] receives the points. *)
Fixpoint deliver (startTime : Z) (ip : string) (ts : list Z)
  (vs : list (option Z)) (regs : list ServerRegistration)
  : list ServerRegistration :=
  match regs with
  | [] => []
  | r :: rest =>
    if String.eqb (data_ip r) ip
    then set_graphPoints (startTime, ts, vs) r :: rest
    else r :: deliver startTime ip ts vs rest
  end.

Definition deliver_all (startTime : Z)
  (g : list (string * (list Z * list (option Z))))
  (regs : list ServerRegistration) : list ServerRegistration :=
  fold_left (fun rs e => deliver startTime (fst e) (fst (snd e)) (snd (snd e)) rs)
    g regs.



End Js.

(* ================================================================== *)
(** * The MongoDB back end *)
(* ================================================================== *)

Module Mongo.
Import Js.

(** An index specification such as [{ ip: 1, playerCount: 1 }]. *)
Definition IndexSpec := list (string * Z).

Definition IndexSpec_eq_dec (a b : IndexSpec) : {a = b} + {a <> b}.
Proof. repeat decide equality. Defined.

(** The database held by the server: the two collections, in natural
    (insertion) order, and their indexes. *)
Record Db := mkDb {
  pings : list Ping;
  players_record : list PlayersRecord;
  pings_indexes : list IndexSpec;
  players_record_indexes : list IndexSpec
}.

(** Everything a method of [Database] reads or writes.  [connected] says
    whether [this._db] has been set.  [faults] is the behaviour of the
    server and the network: each call of the driver takes the next entry,
    and fails with that error when it holds one. *)
Record World := mkWorld {
  server : Db;
  connected : bool;
  faults : list (option Exn);
  log : list LogEntry;
  serverRegistrations : list ServerRegistration;
  timeTracker : option (Z * list Z);
  clock : Z;
  config : Config;
  intervals : list Z;
  fired : list Callback
}.

Definition set_server (d : Db) (w : World) : World :=
  mkWorld d (connected w) (faults w) (log w) (serverRegistrations w)
    (timeTracker w) (clock w) (config w) (intervals w) (fired w).
Definition set_connected (b : bool) (w : World) : World :=
  mkWorld (server w) b (faults w) (log w) (serverRegistrations w)
    (timeTracker w) (clock w) (config w) (intervals w) (fired w).
Definition set_faults (f : list (option Exn)) (w : World) : World :=
  mkWorld (server w) (connected w) f (log w) (serverRegistrations w)
    (timeTracker w) (clock w) (config w) (intervals w) (fired w).
Definition set_log (l : list LogEntry) (w : World) : World :=
  mkWorld (server w) (connected w) (faults w) l (serverRegistrations w)
    (timeTracker w) (clock w) (config w) (intervals w) (fired w).
Definition set_serverRegistrations (r : list ServerRegistration) (w : World)
  : World :=
  mkWorld (server w) (connected w) (faults w) (log w) r
    (timeTracker w) (clock w) (config w) (intervals w) (fired w).
Definition set_timeTracker (t : option (Z * list Z)) (w : World) : World :=
  mkWorld (server w) (connected w) (faults w) (log w) (serverRegistrations w)
    t (clock w) (config w) (intervals w) (fired w).
Definition set_intervals (i : list Z) (w : World) : World :=
  mkWorld (server w) (connected w) (faults w) (log w) (serverRegistrations w)
    (timeTracker w) (clock w) (config w) i (fired w).
Definition set_fired (f : list Callback) (w : World) : World :=
  mkWorld (server w) (connected w) (faults w) (log w) (serverRegistrations w)
    (timeTracker w) (clock w) (config w) (intervals w) f.

Notation "x <- c ;; k" := (bind c (fun x => k))
  (at level 61, c at next level, right associativity).
Notation "c ;; k" := (bind c (fun _ => k))
  (at level 61, right associativity).

Definition logger_error (msg : string) : M World unit :=
  modify (fun w => set_log (log w ++ [mkLog LevelError msg]) w).
Definition logger_info (msg : string) : M World unit :=
  modify (fun w => set_log (log w ++ [mkLog LevelInfo msg]) w).

(** Calling a completion callback. *)
Definition callback (c : Callback) : M World unit :=
  modify (fun w => set_fired (fired w ++ [c]) w).

(** [setInterval (() => this.deleteOldPings (), ms)] *)
Definition setInterval (ms : Z) : M World unit :=
  modify (fun w => set_intervals (intervals w ++ [ms]) w).

(** [TimeTracker.getEpochMillis ()] *)
Definition getEpochMillis : M World Z := fun w => (Ok (clock w), w).

(** One awaited call of the driver on a collection of [this._db]. With
    [this._db] unset the property access [this._db.collection] throws. *)
Definition driver {A} (op : Db -> A * Db) : M World A :=
  fun w =>
    if negb (connected w) then (Throw TypeError, w)
    else
      match faults w with
      | Some e :: rest => (Throw e, set_faults rest w)
      | None :: rest =>
        let (a, d) := op (server w) in (Ok a, set_server d (set_faults rest w))
      | [] =>
        let (a, d) := op (server w) in (Ok a, set_server d w)
      end.

(** ** What the server does for each driver call *)

Definition createIndex_pings (spec : IndexSpec) (d : Db) : unit * Db :=
  if in_dec IndexSpec_eq_dec spec (pings_indexes d) then (tt, d)
  else (tt, mkDb (pings d) (players_record d) (pings_indexes d ++ [spec])
              (players_record_indexes d)).

Definition createIndex_players_record (spec : IndexSpec) (d : Db)
  : unit * Db :=
  if in_dec IndexSpec_eq_dec spec (players_record_indexes d) then (tt, d)
  else (tt, mkDb (pings d) (players_record d) (pings_indexes d)
              (players_record_indexes d ++ [spec])).

(** [find ({ timestamp: { $gte: startTime, $lte: endTime } }).toArray ()] *)
Definition find_pings_between (startTime endTime : Z) (d : Db)
  : list Ping * Db :=
  (filter (between startTime endTime) (pings d), d).

(** [findOne ({ ip })] on [players_record] *)
Definition findOne_players_record (ip : string) (d : Db)
  : option PlayersRecord * Db :=
  (find (fun r => String.eqb (record_ip r) ip) (players_record d), d).

(** The head of a descending sort on [playerCount]; among equal counts the
    document met first in natural order is kept. *)
Fixpoint top_playerCount (best : Ping) (l : list Ping) : Ping :=
  match l with
  | [] => best
  | p :: rest =>
    if count_leb (ping_playerCount p) (ping_playerCount best)
    then top_playerCount best rest
    else top_playerCount p rest
  end.

(** [findOne ({ ip }, { sort: { playerCount: -1 } })] on [pings] *)
Definition findOne_pings_sorted (ip : string) (d : Db) : option Ping * Db :=
  match filter (fun p => String.eqb (ping_ip p) ip) (pings d) with
  | [] => (None, d)
  | p :: rest => (Some (top_playerCount p rest), d)
  end.

Definition insertOne_pings (doc : Ping) (d : Db) : unit * Db :=
  (tt, mkDb (pings d ++ [doc]) (players_record d) (pings_indexes d)
         (players_record_indexes d)).

Definition insertOne_players_record (doc : PlayersRecord) (d : Db)
  : unit * Db :=
  (tt, mkDb (pings d) (players_record d ++ [doc]) (pings_indexes d)
         (players_record_indexes d)).

(** [updateOne ({ ip }, { $set: { playerCount, timestamp } })]: the first
    matching document is changed. *)
Fixpoint set_first (ip : string) (playerCount timestamp : option Z)
  (l : list PlayersRecord) : list PlayersRecord :=
  match l with
  | [] => []
  | r :: rest =>
    if String.eqb (record_ip r) ip
    then mkPlayersRecord timestamp (record_ip r) playerCount :: rest
    else r :: set_first ip playerCount timestamp rest
  end.

Definition updateOne_players_record (ip : string)
  (playerCount timestamp : option Z) (d : Db) : unit * Db :=
  (tt, mkDb (pings d) (set_first ip playerCount timestamp (players_record d))
         (pings_indexes d) (players_record_indexes d)).

(** [deleteMany ({ timestamp: { $lt: oldestTimestamp } })] *)
Definition deleteMany_pings_before (oldestTimestamp : Z) (d : Db)
  : unit * Db :=
  (tt, mkDb (filter (fun p => negb (ping_timestamp p <? oldestTimestamp))
               (pings d))
         (players_record d) (pings_indexes d) (players_record_indexes d)).

(** ** The methods of [Database] *)

(** [connect ()] *)
Definition connect : M World unit :=
  try_catch
    (fun w =>
       match faults w with
       | Some e :: rest => (Throw e, set_faults rest w)
       | None :: rest => (Ok tt, set_connected true (set_faults rest w))
       | [] => (Ok tt, set_connected true w)
       end)
    (fun err => logger_error "Failed to connect to MongoDB" ;; throw err).

(** [ensureIndexes (callback)] *)
Definition ensureIndexes : M World unit :=
  w <- get ;;
  if negb (connected w)
  then throw (Error "Database connection not established")
  else
    try_catch
      (driver (createIndex_pings [("ip", 1); ("playerCount", 1)]) ;;
       driver (createIndex_pings [("timestamp", 1)]) ;;
       driver (createIndex_players_record [("ip", 1)]) ;;
       callback EnsureIndexesCallback)
      (fun err =>
         logger_error "Cannot create table or table index" ;; throw err).

(** [getRecentPings (startTime, endTime)] *)
Definition getRecentPings (startTime endTime : Z) : M World (list Ping) :=
  try_catch
    (driver (find_pings_between startTime endTime))
    (fun err => logger_error "Failed to get recent pings" ;; throw err).

(** [getRecord (ip)] *)
Definition getRecord (ip : string) : M World (option PlayersRecord) :=
  try_catch
    (driver (findOne_players_record ip))
    (fun err =>
       logger_error ("Failed to get ping record for " ++ ip)%string ;;
       throw err).

(** [getRecordLegacy (ip)] *)
Definition getRecordLegacy (ip : string) : M World (option Ping) :=
  try_catch
    (driver (findOne_pings_sorted ip))
    (fun err =>
       logger_error ("Failed to get legacy ping record for " ++ ip)%string ;;
       throw err).

(** [insertPing (ip, timestamp, unsafePlayerCount)] *)
Definition insertPing (ip : string) (timestamp : Z)
  (unsafePlayerCount : option Z) : M World unit :=
  try_catch
    (driver (insertOne_pings (mkPing timestamp ip unsafePlayerCount)))
    (fun err =>
       logger_error ("Failed to insert ping record of " ++ ip ++ " at "
                     ++ string_of_Z timestamp)%string ;;
       throw err).

(** [insertRecord (ip, playerCount, timestamp)] *)
Definition insertRecord (ip : string) (playerCount timestamp : option Z)
  : M World unit :=
  try_catch
    (driver (insertOne_players_record
               (mkPlayersRecord timestamp ip playerCount)))
    (fun err =>
       logger_error ("Failed to insert player count record of " ++ ip
                     ++ " at " ++ string_of_number timestamp)%string ;;
       throw err).

(** [updatePlayerCountRecord (ip, playerCount, timestamp)] *)
Definition updatePlayerCountRecord (ip : string)
  (playerCount timestamp : option Z) : M World unit :=
  try_catch
    (driver (updateOne_players_record ip playerCount timestamp))
    (fun err =>
       logger_error ("Cannot update player count record of " ++ ip
                     ++ " at " ++ string_of_number timestamp)%string ;;
       throw err).

(** [deleteOldPings ()] *)
Definition deleteOldPings : M World unit :=
  now <- getEpochMillis ;;
  w <- get ;;
  let oldestTimestamp := now - graphDuration (config w) in
  try_catch
    (driver (deleteMany_pings_before oldestTimestamp))
    (fun err => logger_error "Failed to delete old pings" ;; throw err).

(** [initOldPingsDelete (callback)] *)
Definition initOldPingsDelete : M World unit :=
  logger_info "Deleting old pings.." ;;
  deleteOldPings ;;
  w <- get ;;
  let oldPingsCleanupInterval :=
    or_default (oldPingsCleanup_interval (config w)) 3600000 in
  (if 0 <? oldPingsCleanupInterval
   then setInterval oldPingsCleanupInterval
   else ret tt) ;;
  callback InitOldPingsDeleteCallback.

(** [loadGraphPoints (graphDuration, callback)] *)
Definition loadGraphPoints (graphDuration : Z) : M World unit :=
  endTime <- getEpochMillis ;;
  let startTime := endTime - graphDuration in
  try_catch
    (pingData <- getRecentPings startTime endTime ;;
     match group_rows PlainObject pingData [] with
     | inl err => throw err
     | inr relativeGraphData =>
       modify (fun w =>
         set_serverRegistrations
           (deliver_all startTime (object_keys relativeGraphData)
              (serverRegistrations w)) w) ;;
       match object_keys relativeGraphData with
       | (serverIp, (timestamps, _)) :: _ =>
         modify (set_timeTracker (Some (startTime, timestamps)))
       | [] => ret tt
       end ;;
       callback LoadGraphPointsCallback
     end)
    (fun err => logger_error "Failed to load graph points" ;; throw err).

(** Between [w] and [w'] at most the server, the pending faults and the
    log differ. *)
Definition only_store (w w' : World) : Prop :=
  serverRegistrations w' = serverRegistrations w
  /\ fired w' = fired w
  /\ connected w' = connected w
  /\ clock w' = clock w
  /\ config w' = config w
  /\ intervals w' = intervals w
  /\ timeTracker w' = timeTracker w.

(** Between [w] and [w'] the registrations other than the one at position
    [i] are the same, and there are as many as before. *)
Definition only_registration (i : nat) (w w' : World) : Prop :=
  List.length (serverRegistrations w') = List.length (serverRegistrations w)
  /\ (forall j, j <> i ->
        nth_error (serverRegistrations w') j
        = nth_error (serverRegistrations w) j)
  /\ connected w' = connected w.

Definition assigned (r : ServerRegistration) : bool :=
  match recordData r with Some _ => true | None => false end.

Section WithTimeTracker.

(** [TimeTracker.toSeconds], defined in [lib/time.js]. *)
Variable toSeconds : option Z -> option Z.

Definition modify_registration (i : nat)
  (f : ServerRegistration -> ServerRegistration) : M World unit :=
  modify (fun w =>
    set_serverRegistrations (update_nth i f (serverRegistrations w)) w).

(** The [try] block of one turn of the loop in [loadRecords], for the
    registration at position [i] whose [data.ip] is [ip]; it returns the
    new value of [completedTasks]. *)
Definition loadRecords_try (i : nat) (ip : string) (completedTasks : nat)
  : M World nat :=
  record <- getRecord ip ;;
  match record with
  | Some record =>
    modify_registration i
      (set_recordData
         (mkRecordData (record_playerCount record)
            (toSeconds (record_timestamp record))))
  | None =>
    legacyRecord <- getRecordLegacy ip ;;
    let newTimestamp :=
      match legacyRecord with
      | Some l => Some (ping_timestamp l)
      | None => None
      end in
    let newPlayerCount :=
      match legacyRecord with
      | Some l => ping_playerCount l
      | None => None
      end in
    modify_registration i
      (set_recordData (mkRecordData newPlayerCount (toSeconds newTimestamp))) ;;
    insertRecord ip newPlayerCount newTimestamp
  end ;;
  let completedTasks := S completedTasks in
  w <- get ;;
  (if Nat.eqb completedTasks (List.length (serverRegistrations w))
   then callback LoadRecordsCallback
   else ret tt) ;;
  ret completedTasks.

(** One turn of the loop. *)
Definition loadRecords_turn (i : nat) (ip : string) (completedTasks : nat)
  : M World nat :=
  modify_registration i findNewGraphPeak ;;
  try_catch
    (loadRecords_try i ip completedTasks)
    (fun err =>
       logger_error ("Failed to load records for " ++ ip)%string ;;
       throw err).

(** The loop over [this._app.serverRegistrations], from position [i] on;
    [ips] are the [data.ip] of the registrations still to be visited. *)
Fixpoint loadRecords_loop (i : nat) (ips : list string)
  (completedTasks : nat) : M World unit :=
  match ips with
  | [] => ret tt
  | ip :: rest =>
    completedTasks <- loadRecords_turn i ip completedTasks ;;
    loadRecords_loop (S i) rest completedTasks
  end.

(** [loadRecords (callback)] *)
Definition loadRecords : M World unit :=
  fun w => loadRecords_loop 0 (map data_ip (serverRegistrations w)) 0 w.

End WithTimeTracker.

End Mongo.

(* ================================================================== *)
(** * The MySQL back end *)
(* ================================================================== *)

Module MySQL.
Import Js.

(** The schema and content held by the server.  A table that has not been
    created is [None]; of the column [ip_hash] and of the two indexes only
    their existence is kept.  Addresses are compared as strings, letter by
    letter. *)
Record Db := mkDb {
  pings : option (list Ping);
  ip_hash : bool;
  ip_index : bool;
  timestamp_index : bool;
  players_record : option (list PlayersRecord)
}.

(** The SQL texts passed to [this._sql], with their placeholders. *)
Inductive Statement :=
| CreateTablePings
| CreateTablePlayersRecord
| AddColumnIpHash
| UpdateIpHash
| DropIpIndex
| CreateIpIndex
| DropTimestampIndex
| CreateTimestampIndex
| SelectRecentPings (startTime endTime : Z)
| SelectRecord (ip : string)
| SelectLegacyRecord
| InsertIgnoreRecord (timestamp : option Z) (ip : string)
    (playerCount : option Z)
| InsertPing (timestamp : Z) (ip : string) (playerCount : option Z)
| UpdateRecord (timestamp playerCount : option Z) (ip : string).

(** What a statement hands to its callback as [data]. *)
Inductive Data :=
| OkPacket
| PingRows (rows : list Ping)
| RecordRows (rows : list (option Z * option Z))
| LegacyRows (rows : list (option Z * Z)).

(** [MAX (playerCount)] over a group: [NULL] entries are skipped. *)
Definition max_count (a b : option Z) : option Z :=
  if count_leb a b then b else a.

(** [GROUP BY timestamp] with [MAX (playerCount)]: one result row per
    timestamp, rows in the order in which the timestamps are first met. *)
Fixpoint group_max (row : Ping) (g : list (option Z * Z))
  : list (option Z * Z) :=
  match g with
  | [] => [(ping_playerCount row, ping_timestamp row)]
  | (m, t) :: rest =>
    if t =? ping_timestamp row
    then (max_count m (ping_playerCount row), t) :: rest
    else (m, t) :: group_max row rest
  end.

Definition select_legacy (rows : list Ping) : list (option Z * Z) :=
  fold_left (fun g row => group_max row g)
    (filter (fun p => String.eqb (ping_ip p) "play.topstrix.net") rows) [].

Definition has_ip (ip : string) (l : list PlayersRecord) : bool :=
  existsb (fun r => String.eqb (record_ip r) ip) l.

Definition update_records (timestamp playerCount : option Z) (ip : string)
  (l : list PlayersRecord) : list PlayersRecord :=
  map (fun r => if String.eqb (record_ip r) ip
                then mkPlayersRecord timestamp (record_ip r) playerCount
                else r) l.

Definition no_such_table : Exn := DriverError "ER_NO_SUCH_TABLE".

(** The column [playerCount] is a [MEDIUMINT], which holds -8388608 to
    8388607.  A server in strict mode refuses a statement that writes a
    number outside of this range: this is one of the failures [faults]
    stands for.  A server that accepts the statement stores the nearest
    bound; [NULL] is stored as it is.  The count that [loadRecords] writes
    with [INSERT IGNORE] is 0 or one that was read from this column of
    [pings]. *)
Definition mediumint (v : option Z) : option Z :=
  option_map (fun n => Z.max (-8388608) (Z.min 8388607 n)) v.

Definition in_mediumint (v : option Z) : Prop :=
  match v with
  | Some n => -8388608 <= n <= 8388607
  | None => True
  end.

(** What the server does with a statement: the errors are those the
    statement itself can meet in the schema it finds. *)
Definition execute (st : Statement) (d : Db) : (Exn + Data) * Db :=
  match st with
  | CreateTablePings =>
    match pings d with
    | Some _ => (inr OkPacket, d)
    | None => (inr OkPacket,
               mkDb (Some []) false false false (players_record d))
    end
  | CreateTablePlayersRecord =>
    match players_record d with
    | Some _ => (inr OkPacket, d)
    | None => (inr OkPacket,
               mkDb (pings d) (ip_hash d) (ip_index d) (timestamp_index d)
                 (Some []))
    end
  | AddColumnIpHash =>
    match pings d with
    | None => (inl no_such_table, d)
    | Some _ =>
      if ip_hash d then (inl (DriverError "ER_DUP_FIELDNAME"), d)
      else (inr OkPacket,
            mkDb (pings d) true (ip_index d) (timestamp_index d)
              (players_record d))
    end
  | UpdateIpHash =>
    match pings d with
    | None => (inl no_such_table, d)
    | Some _ =>
      if ip_hash d then (inr OkPacket, d)
      else (inl (DriverError "ER_BAD_FIELD_ERROR"), d)
    end
  | DropIpIndex =>
    match pings d with
    | None => (inl no_such_table, d)
    | Some _ =>
      if ip_index d
      then (inr OkPacket,
            mkDb (pings d) (ip_hash d) false (timestamp_index d)
              (players_record d))
      else (inl (DriverError "ER_CANT_DROP_FIELD_OR_KEY"), d)
    end
  | CreateIpIndex =>
    match pings d with
    | None => (inl no_such_table, d)
    | Some _ =>
      if negb (ip_hash d)
      then (inl (DriverError "ER_KEY_COLUMN_DOES_NOT_EXITS"), d)
      else if ip_index d then (inl (DriverError "ER_DUP_KEYNAME"), d)
      else (inr OkPacket,
            mkDb (pings d) (ip_hash d) true (timestamp_index d)
              (players_record d))
    end
  | DropTimestampIndex =>
    match pings d with
    | None => (inl no_such_table, d)
    | Some _ =>
      if timestamp_index d
      then (inr OkPacket,
            mkDb (pings d) (ip_hash d) (ip_index d) false (players_record d))
      else (inl (DriverError "ER_CANT_DROP_FIELD_OR_KEY"), d)
    end
  | CreateTimestampIndex =>
    match pings d with
    | None => (inl no_such_table, d)
    | Some _ =>
      if timestamp_index d then (inl (DriverError "ER_DUP_KEYNAME"), d)
      else (inr OkPacket,
            mkDb (pings d) (ip_hash d) (ip_index d) true (players_record d))
    end
  | SelectRecentPings startTime endTime =>
    match pings d with
    | None => (inl no_such_table, d)
    | Some rows =>
      (inr (PingRows (filter (between startTime endTime) rows)), d)
    end
  | SelectRecord ip =>
    match players_record d with
    | None => (inl no_such_table, d)
    | Some rows =>
      (inr (RecordRows
              (map (fun r => (record_playerCount r, record_timestamp r))
                 (filter (fun r => String.eqb (record_ip r) ip) rows))), d)
    end
  | SelectLegacyRecord =>
    match pings d with
    | None => (inl no_such_table, d)
    | Some rows => (inr (LegacyRows (select_legacy rows)), d)
    end
  | InsertIgnoreRecord timestamp ip playerCount =>
    match players_record d with
    | None => (inl no_such_table, d)
    | Some rows =>
      if has_ip ip rows then (inr OkPacket, d)
      else (inr OkPacket,
            mkDb (pings d) (ip_hash d) (ip_index d) (timestamp_index d)
              (Some (rows ++ [mkPlayersRecord timestamp ip playerCount])))
    end
  | InsertPing timestamp ip playerCount =>
    match pings d with
    | None => (inl no_such_table, d)
    | Some rows =>
      (inr OkPacket,
       mkDb (Some (rows ++ [mkPing timestamp ip (mediumint playerCount)]))
         (ip_hash d) (ip_index d) (timestamp_index d) (players_record d))
    end
  | UpdateRecord timestamp playerCount ip =>
    match players_record d with
    | None => (inl no_such_table, d)
    | Some rows =>
      (inr OkPacket,
       mkDb (pings d) (ip_hash d) (ip_index d) (timestamp_index d)
         (Some (update_records timestamp (mediumint playerCount) ip rows)))
    end
  end.

(** The callbacks of [getRecord], [getRecordLegacy], [getRecentPings] and
    [deleteOldPings]: the closures written in this file, and [Report] for a
    caller outside of it, whose arguments are only recorded. *)
Inductive GetRecordCallback :=
| LoadRecords_record (i : nat) (ip : string)
| ReportRecord.

Inductive GetRecordLegacyCallback :=
| LoadRecords_legacy (i : nat) (ip : string)
| ReportLegacy.

Inductive GetRecentPingsCallback :=
| LoadGraphPoints_pings (startTime : Z)
| ReportPings.

Inductive DeleteOldPingsCallback :=
| InitOldPingsDelete_deleted.

(** The callbacks given to [this._sql.query], one per closure of the
    source with what it captures. *)
Inductive Handler :=
| HandleError
| OnAddColumn
| OnNestedUpdate
| OnDropIpIndex
| OnDropTimestampIndex
| OnCreateTimestampIndex
| OnRecentPings (callback : GetRecentPingsCallback)
| OnRecord (ip : string) (callback : GetRecordCallback)
| OnLegacyRecord (ip : string) (callback : GetRecordLegacyCallback)
| OnInsertRecord
| OnInsertPing (ip : string) (timestamp : Z)
| OnUpdateRecord (ip : string) (timestamp : option Z).

Record Task := mkTask { statement : Statement; handler : Handler }.

(** Arguments with which a callback from outside this file was called. *)
Inductive Reported :=
| ReportedRecord (hasRecord : bool) (playerCount timestamp : option Z)
| ReportedLegacy (hasRecord : bool) (playerCount : option Z)
    (timestamp : option Z)
| ReportedPings (pingData : list Ping).

(** Everything the methods read or write.  [queue] holds the statements
    given to the connection and not yet answered; the connection answers
    them one at a time, oldest first.  [faults] is as for the other back
    end: the next entry decides whether the next statement fails for a
    reason of its own. *)
Record World := mkWorld {
  server : Db;
  faults : list (option Exn);
  queue : list Task;
  log : list LogEntry;
  serverRegistrations : list ServerRegistration;
  timeTracker : option (Z * list Z);
  clock : Z;
  config : Config;
  intervals : list Z;
  fired : list Callback;
  reported : list Reported
}.

Definition set_server (d : Db) (w : World) : World :=
  mkWorld d (faults w) (queue w) (log w) (serverRegistrations w)
    (timeTracker w) (clock w) (config w) (intervals w) (fired w) (reported w).
Definition set_faults (f : list (option Exn)) (w : World) : World :=
  mkWorld (server w) f (queue w) (log w) (serverRegistrations w)
    (timeTracker w) (clock w) (config w) (intervals w) (fired w) (reported w).
Definition set_queue (q : list Task) (w : World) : World :=
  mkWorld (server w) (faults w) q (log w) (serverRegistrations w)
    (timeTracker w) (clock w) (config w) (intervals w) (fired w) (reported w).
Definition set_log (l : list LogEntry) (w : World) : World :=
  mkWorld (server w) (faults w) (queue w) l (serverRegistrations w)
    (timeTracker w) (clock w) (config w) (intervals w) (fired w) (reported w).
Definition set_serverRegistrations (r : list ServerRegistration) (w : World)
  : World :=
  mkWorld (server w) (faults w) (queue w) (log w) r
    (timeTracker w) (clock w) (config w) (intervals w) (fired w) (reported w).
Definition set_timeTracker (t : option (Z * list Z)) (w : World) : World :=
  mkWorld (server w) (faults w) (queue w) (log w) (serverRegistrations w)
    t (clock w) (config w) (intervals w) (fired w) (reported w).
Definition set_intervals (i : list Z) (w : World) : World :=
  mkWorld (server w) (faults w) (queue w) (log w) (serverRegistrations w)
    (timeTracker w) (clock w) (config w) i (fired w) (reported w).
Definition set_fired (f : list Callback) (w : World) : World :=
  mkWorld (server w) (faults w) (queue w) (log w) (serverRegistrations w)
    (timeTracker w) (clock w) (config w) (intervals w) f (reported w).
Definition set_reported (r : list Reported) (w : World) : World :=
  mkWorld (server w) (faults w) (queue w) (log w) (serverRegistrations w)
    (timeTracker w) (clock w) (config w) (intervals w) (fired w) r.

Notation "x <- c ;; k" := (bind c (fun x => k))
  (at level 61, c at next level, right associativity).
Notation "c ;; k" := (bind c (fun _ => k))
  (at level 61, right associativity).

Definition logger_error (msg : string) : M World unit :=
  modify (fun w => set_log (log w ++ [mkLog LevelError msg]) w).
Definition logger_info (msg : string) : M World unit :=
  modify (fun w => set_log (log w ++ [mkLog LevelInfo msg]) w).

Definition callback (c : Callback) : M World unit :=
  modify (fun w => set_fired (fired w ++ [c]) w).

Definition report (r : Reported) : M World unit :=
  modify (fun w => set_reported (reported w ++ [r]) w).

Definition setInterval (ms : Z) : M World unit :=
  modify (fun w => set_intervals (intervals w ++ [ms]) w).

Definition getEpochMillis : M World Z := fun w => (Ok (clock w), w).

(** [this._sql.query (statement, values, handler)]: the statement joins
    the queue of the connection. *)
Definition query (st : Statement) (h : Handler) : M World unit :=
  modify (fun w => set_queue (queue w ++ [mkTask st h]) w).

(** ** The methods of [Database]

    Each method only queues its statements; the callbacks run when the
    connection answers, see [turn] below. *)

(** [getRecentPings (startTime, endTime, callback)] *)
Definition getRecentPings (startTime endTime : Z)
  (k : GetRecentPingsCallback) : M World unit :=
  query (SelectRecentPings startTime endTime) (OnRecentPings k).

(** [getRecord (ip, callback)] *)
Definition getRecord (ip : string) (k : GetRecordCallback) : M World unit :=
  query (SelectRecord ip) (OnRecord ip k).

(** [getRecordLegacy (ip, callback)]: the statement does not mention
    [ip]. *)
Definition getRecordLegacy (ip : string) (k : GetRecordLegacyCallback)
  : M World unit :=
  query SelectLegacyRecord (OnLegacyRecord ip k).

(** [insertPing (ip, timestamp, unsafePlayerCount)] through
    [_insertPingTo] *)
Definition insertPing (ip : string) (timestamp : Z)
  (unsafePlayerCount : option Z) : M World unit :=
  query (InsertPing timestamp ip unsafePlayerCount) (OnInsertPing ip timestamp).

(** [updatePlayerCountRecord (ip, playerCount, timestamp)] *)
Definition updatePlayerCountRecord (ip : string)
  (playerCount timestamp : option Z) : M World unit :=
  query (UpdateRecord timestamp playerCount ip) (OnUpdateRecord ip timestamp).

(** [deleteOldPings (callback)].  [this._sql] is the connection made by
    [mysql.createConnection], and a connection of the [mysql] package has no
    [prepare]: calling [this._sql.prepare (...)] throws a [TypeError].  No
    statement is sent, and the callback written for [statement.run], which
    would log and call [callback], never comes to exist. *)
Definition deleteOldPings (k : option DeleteOldPingsCallback)
  : M World unit :=
  now <- getEpochMillis ;;
  w <- get ;;
  let oldestTimestamp := now - graphDuration (config w) in
  deleteStart <- getEpochMillis ;;
  throw TypeError.

(** [initOldPingsDelete (callback)]: the interval and [callback] are
    inside the closure [InitOldPingsDelete_deleted] given to
    [deleteOldPings], which is never called. *)
Definition initOldPingsDelete : M World unit :=
  logger_info "Deleting old pings.." ;;
  deleteOldPings (Some InitOldPingsDelete_deleted).

(** [ensureIndexes (callback)] *)
Definition ensureIndexes : M World unit :=
  query CreateTablePings HandleError ;;
  query CreateTablePlayersRecord HandleError ;;
  query AddColumnIpHash OnAddColumn ;;
  query UpdateIpHash HandleError ;;
  query DropIpIndex OnDropIpIndex ;;
  query CreateIpIndex HandleError ;;
  query DropTimestampIndex OnDropTimestampIndex ;;
  query CreateTimestampIndex OnCreateTimestampIndex ;;
  callback EnsureIndexesCallback.

(** [loadGraphPoints (graphDuration, callback)] *)
Definition loadGraphPoints (graphDuration : Z) : M World unit :=
  endTime <- getEpochMillis ;;
  let startTime := endTime - graphDuration in
  getRecentPings startTime endTime (LoadGraphPoints_pings startTime).

(** The callback given to [getRecentPings] by [loadGraphPoints]; nothing
    catches what its loop throws. *)
Definition loadGraphPoints_pings (startTime : Z) (pingData : list Ping)
  : M World unit :=
  match group_rows ArrayObject pingData [] with
  | inl err => throw err
  | inr relativeGraphData =>
    modify (fun w =>
      set_serverRegistrations
        (deliver_all startTime (object_keys relativeGraphData)
           (serverRegistrations w)) w) ;;
    match object_keys relativeGraphData with
    | (serverIp, (timestamps, _)) :: _ =>
      modify (set_timeTracker (Some (startTime, timestamps)))
    | [] => ret tt
    end ;;
    callback LoadGraphPointsCallback
  end.

Definition modify_registration (i : nat)
  (f : ServerRegistration -> ServerRegistration) : M World unit :=
  modify (fun w =>
    set_serverRegistrations (update_nth i f (serverRegistrations w)) w).

(** The body of [forEach] in [loadRecords], for the registration at
    position [i]. *)
Definition loadRecords_each (i : nat) (ip : string) : M World unit :=
  modify_registration i findNewGraphPeak ;;
  getRecord ip (LoadRecords_record i ip).

Fixpoint loadRecords_forEach (i : nat) (ips : list string) : M World unit :=
  match ips with
  | [] => ret tt
  | ip :: rest => loadRecords_each i ip ;; loadRecords_forEach (S i) rest
  end.

(** [loadRecords (callback)]. [completedTasks] is set to [0] and neither
    changed nor read afterwards; [callback] is not mentioned again. *)
Definition loadRecords : M World unit :=
  fun w => loadRecords_forEach 0 (map data_ip (serverRegistrations w)) w.

Section WithTimeTracker.

(** [TimeTracker.toSeconds], defined in [lib/time.js]. *)
Variable toSeconds : option Z -> option Z.

(** The callback given to [getRecordLegacy] by [loadRecords]. *)
Definition loadRecords_legacy (i : nat) (ip : string)
  (hasRecordLegacy : bool) (playerCountLegacy timestampLegacy : option Z)
  : M World unit :=
  let newTimestamp := if hasRecordLegacy then timestampLegacy else None in
  let newPlayerCount := if hasRecordLegacy then playerCountLegacy else None in
  modify_registration i
    (set_recordData (mkRecordData newPlayerCount (toSeconds newTimestamp))) ;;
  query (InsertIgnoreRecord newTimestamp ip newPlayerCount) OnInsertRecord.

(** The callback given to [getRecord] by [loadRecords]. *)
Definition loadRecords_record (i : nat) (ip : string)
  (hasRecord : bool) (playerCount timestamp : option Z) : M World unit :=
  if hasRecord then
    modify_registration i
      (set_recordData (mkRecordData playerCount (toSeconds timestamp)))
  else getRecordLegacy ip (LoadRecords_legacy i ip).

Definition call_GetRecordCallback (k : GetRecordCallback)
  (hasRecord : bool) (playerCount timestamp : option Z) : M World unit :=
  match k with
  | LoadRecords_record i ip =>
    loadRecords_record i ip hasRecord playerCount timestamp
  | ReportRecord => report (ReportedRecord hasRecord playerCount timestamp)
  end.

Definition call_GetRecordLegacyCallback (k : GetRecordLegacyCallback)
  (hasRecord : bool) (playerCount timestamp : option Z) : M World unit :=
  match k with
  | LoadRecords_legacy i ip =>
    loadRecords_legacy i ip hasRecord playerCount timestamp
  | ReportLegacy => report (ReportedLegacy hasRecord playerCount timestamp)
  end.

Definition call_GetRecentPingsCallback (k : GetRecentPingsCallback)
  (pingData : list Ping) : M World unit :=
  match k with
  | LoadGraphPoints_pings startTime => loadGraphPoints_pings startTime pingData
  | ReportPings => report (ReportedPings pingData)
  end.

(** [handleError] of [ensureIndexes] *)
Definition handleError (err : option Exn) : M World unit :=
  match err with
  | Some e => logger_error "Cannot create table or table index" ;; throw e
  | None => ret tt
  end.

Definition err_of (res : Exn + Data) : option Exn :=
  match res with inl e => Some e | inr _ => None end.

(** [err.code !== "ER_DUP_ENTRY"] *)
Definition is_dup_entry (e : Exn) : bool :=
  match e with
  | DriverError code => String.eqb code "ER_DUP_ENTRY"
  | _ => false
  end.

(** The callback [h] called with the answer [res] of its statement.  A
    [Throw] here is an exception nobody catches. *)
Definition handle (h : Handler) (res : Exn + Data) : M World unit :=
  match h with
  | HandleError => handleError (err_of res)
  | OnAddColumn =>
    (match err_of res with
     | Some _ => logger_error "Error adding column 'ip_hash'"
     | None => ret tt
     end) ;;
    query UpdateIpHash OnNestedUpdate
  | OnNestedUpdate =>
    match err_of res with
    | Some _ => logger_error "Error updating 'ip_hash'"
    | None => ret tt
    end
  | OnDropIpIndex =>
    match err_of res with
    | Some _ => logger_error "Error dropping index 'ip_index'"
    | None => ret tt
    end
  | OnDropTimestampIndex =>
    match err_of res with
    | Some _ => logger_error "Error dropping index 'timestamp_index'"
    | None => ret tt
    end
  | OnCreateTimestampIndex =>
    handleError (err_of res) ;;
    callback EnsureIndexesCallback
  | OnRecentPings k =>
    match res with
    | inl e => logger_error "Cannot get recent pings" ;; throw e
    | inr (PingRows rows) => call_GetRecentPingsCallback k rows
    | inr _ => call_GetRecentPingsCallback k []
    end
  | OnRecord ip k =>
    match res with
    | inl e =>
      logger_error ("Cannot get ping record for " ++ ip)%string ;; throw e
    | inr (RecordRows ((playerCount, timestamp) :: _)) =>
      call_GetRecordCallback k true playerCount timestamp
    | inr _ => call_GetRecordCallback k false None None
    end
  | OnLegacyRecord ip k =>
    match res with
    | inl e =>
      logger_error ("Cannot get legacy ping record for " ++ ip)%string ;;
      throw e
    | inr (LegacyRows ((maxPlayerCount, timestamp) :: _)) =>
      call_GetRecordLegacyCallback k true maxPlayerCount (Some timestamp)
    | inr _ => call_GetRecordLegacyCallback k false None None
    end
  | OnInsertRecord =>
    match err_of res with
    | Some e =>
      if negb (is_dup_entry e)
      then logger_error "Error inserting player count record" ;; throw e
      else ret tt
    | None => ret tt
    end
  | OnInsertPing ip timestamp =>
    match err_of res with
    | Some e =>
      logger_error ("Cannot insert ping record of " ++ ip ++ " at "
                    ++ string_of_Z timestamp)%string ;;
      throw e
    | None => ret tt
    end
  | OnUpdateRecord ip timestamp =>
    match err_of res with
    | Some e =>
      logger_error ("Cannot update player count record of " ++ ip ++ " at "
                    ++ string_of_number timestamp)%string ;;
      throw e
    | None => ret tt
    end
  end.

(** The server answers a statement, unless [faults] makes it fail. *)
Definition serve (st : Statement) : M World (Exn + Data) :=
  fun w =>
    match faults w with
    | Some e :: rest => (Ok (inl e), set_faults rest w)
    | None :: rest =>
      let (r, d) := execute st (server w) in
      (Ok r, set_server d (set_faults rest w))
    | [] =>
      let (r, d) := execute st (server w) in (Ok r, set_server d w)
    end.

(** The connection answers the oldest statement of its queue and calls the
    callback of that statement. *)
Definition turn : M World unit :=
  w <- get ;;
  match queue w with
  | [] => ret tt
  | t :: rest =>
    modify (set_queue rest) ;;
    res <- serve (statement t) ;;
    handle (handler t) res
  end.

(** At most [n] turns, stopping at an empty queue or at an uncaught
    exception. *)
Fixpoint turns (n : nat) : M World unit :=
  match n with
  | O => ret tt
  | S k =>
    w <- get ;;
    match queue w with
    | [] => ret tt
    | _ :: _ => turn ;; turns k
    end
  end.

End WithTimeTracker.

(** The world [w] with another queue, other registrations and another
    content of the server. *)
Definition with_state (q : list Task) (regs : list ServerRegistration)
  (d : Db) (w : World) : World :=
  set_server d (set_queue q (set_serverRegistrations regs w)).

(** The statements of a refresh, for the registration at position
    [fst it] whose [data.ip] is [snd it]. *)
Definition record_task (it : nat * string) : Task :=
  mkTask (SelectRecord (snd it))
    (OnRecord (snd it) (LoadRecords_record (fst it) (snd it))).

Definition legacy_task (it : nat * string) : Task :=
  mkTask SelectLegacyRecord
    (OnLegacyRecord (snd it) (LoadRecords_legacy (fst it) (snd it))).

Definition insert_task (timestamp playerCount : option Z)
  (it : nat * string) : Task :=
  mkTask (InsertIgnoreRecord timestamp (snd it) playerCount) OnInsertRecord.

(** The answer to [SelectRecord ip] over the rows [recs]. *)
Definition lookup (recs : list PlayersRecord) (ip : string)
  : list (option Z * option Z) :=
  map (fun r => (record_playerCount r, record_timestamp r))
    (filter (fun r => String.eqb (record_ip r) ip) recs).

Definition absent (recs : list PlayersRecord) (it : nat * string) : bool :=
  match lookup recs (snd it) with [] => true | _ :: _ => false end.

(** What the first answer of the legacy query carries. *)
Definition legacy_playerCount (rows : list Ping) : option Z :=
  match select_legacy rows with (m, _) :: _ => m | [] => None end.

Definition legacy_timestamp (rows : list Ping) : option Z :=
  match select_legacy rows with (_, t) :: _ => Some t | [] => None end.

(** [INSERT IGNORE] of a row for [ip]. *)
Definition insert_ignore (timestamp playerCount : option Z)
  (cur : list PlayersRecord) (ip : string) : list PlayersRecord :=
  if has_ip ip cur then cur
  else cur ++ [mkPlayersRecord timestamp ip playerCount].

(** The positions and addresses of the registrations, from position [i]
    on. *)
Definition positions (i : nat) (ips : list string) : list (nat * string) :=
  combine (seq i (List.length ips)) ips.

(** What the callbacks of a refresh assign: the record found for the
    address of [it], nothing when there is none; and the legacy values. *)
Definition record_shown (toSeconds : option Z -> option Z)
  (recs : list PlayersRecord) (it : nat * string)
  : ServerRegistration -> ServerRegistration :=
  match lookup recs (snd it) with
  | (playerCount, timestamp) :: _ =>
    set_recordData (mkRecordData playerCount (toSeconds timestamp))
  | [] => fun r => r
  end.

Definition legacy_shown (toSeconds : option Z -> option Z)
  (rows : list Ping) : ServerRegistration -> ServerRegistration :=
  set_recordData
    (mkRecordData (legacy_playerCount rows)
       (toSeconds (legacy_timestamp rows))).

(** The registrations after each of [items] had [f] applied at its
    position. *)
Definition apply_at (f : nat * string -> ServerRegistration -> ServerRegistration)
  (items : list (nat * string)) (regs : list ServerRegistration)
  : list ServerRegistration :=
  fold_left (fun rs it => update_nth (fst it) (f it) rs) items regs.

End MySQL.

(* ================================================================== *)
(** * Concrete stores and runs *)
(* ================================================================== *)

Module Scenario.
Import Js.

(** Modelled from the spec: [TimeTracker.toSeconds] of [lib/time.js], which
    is not among the sources at hand.  The display record carries the
    "timestamp normalized to seconds", and the no-data state has a null
    timestamp: milliseconds are divided by 1000 and [null] stays [null]. *)
Definition toSeconds (timestamp : option Z) : option Z :=
  option_map (fun ms => ms / 1000) timestamp.

Definition registration (ip : string) : ServerRegistration :=
  mkServerRegistration ip None 0 None.

Definition day : Z := 86400000.

(** The error a MongoDB server answers to an insert that breaks a unique
    index. *)
Definition mongo_duplicate_key : Exn := DriverError "E11000".

(** The error of a statement that waited too long for a lock. *)
Definition lock_wait_timeout : Exn := DriverError "ER_LOCK_WAIT_TIMEOUT".

(** A connected MongoDB back end over empty collections. *)
Definition mongo (regs : list ServerRegistration)
  (faults : list (option Exn)) (interval : option Z) : Mongo.World :=
  Mongo.mkWorld (Mongo.mkDb [] [] [] []) true faults [] regs None 5000
    (mkConfig day interval) [] [].

(** A MySQL back end whose tables, column and indexes exist and are
    empty. *)
Definition mysql (regs : list ServerRegistration)
  (faults : list (option Exn)) (interval : option Z) : MySQL.World :=
  MySQL.mkWorld (MySQL.mkDb (Some []) true true true (Some [])) faults [] []
    regs None 5000 (mkConfig day interval) [] [] [].

(** Insert (A, t=1000, v=5), (A, t=2000, v=9), (A, t=3000, v=3), then ask
    for the legacy record of [ip]. *)
Definition mongo_legacy_of (service ip : string) : M Mongo.World (option Ping) :=
  bind (Mongo.insertPing service 1000 (Some 5)) (fun _ =>
  bind (Mongo.insertPing service 2000 (Some 9)) (fun _ =>
  bind (Mongo.insertPing service 3000 (Some 3)) (fun _ =>
  Mongo.getRecordLegacy ip))).

Definition mysql_legacy_of (service ip : string) : M MySQL.World unit :=
  bind (MySQL.insertPing service 1000 (Some 5)) (fun _ =>
  bind (MySQL.insertPing service 2000 (Some 9)) (fun _ =>
  bind (MySQL.insertPing service 3000 (Some 3)) (fun _ =>
  bind (MySQL.getRecordLegacy ip MySQL.ReportLegacy) (fun _ =>
  MySQL.turns toSeconds 4)))).

(** A refresh on the MySQL back end, every queued statement answered. *)
Definition mysql_refresh : M MySQL.World unit :=
  bind MySQL.loadRecords (fun _ => MySQL.turns toSeconds 3).


(** Four pings around the window [[1000, 3000]], read at time 3000. *)
Definition window_pings : list Ping :=
  [mkPing 999 "A" (Some 1); mkPing 1000 "A" (Some 5);
   mkPing 3000 "B" (Some 3); mkPing 3001 "A" (Some 7)].



(** Three services, and a server that answers the three calls made for
    the first service and fails at the next call. *)
Definition refresh_with_fault : Mongo.World :=
  mongo [registration "A"; registration "B"; registration "C"]
    [None; None; None; Some lock_wait_timeout] None.

(** The state after the turn of the first service. *)
Definition refresh_after_A : Mongo.World :=
  Eval vm_compute in
    snd (Mongo.loadRecords_loop toSeconds 0 ["A"] 0 refresh_with_fault).

(** How often the completion callback of [loadRecords] was called. *)
Definition mysql_signals (w : MySQL.World) : nat :=
  count_occ Callback_eq_dec (MySQL.fired w) LoadRecordsCallback.

End Scenario.

(* ================================================================== *)
(** * Vocabulary for further properties *)
(* ================================================================== *)

Module Views.
Import Js.

(** The call [m] fails in [w] with the error [e] that the server answers:
    [e] is thrown again, one error is logged, and nothing else is
    different but the answer being used up. *)
Definition fails_with {A} (m : M Mongo.World A) (w : Mongo.World) (e : Exn)
  (rest : list (option Exn)) : Prop :=
  exists msg,
    m w = (Throw e,
           Mongo.set_log (Mongo.log w ++ [mkLog LevelError msg])
             (Mongo.set_faults rest w)).

(** The call [m] fails in [w] before the server is asked: a [TypeError] is
    thrown, one error is logged, and nothing else is different. *)
Definition fails_unconnected {A} (m : M Mongo.World A) (w : Mongo.World)
  : Prop :=
  exists msg,
    m w = (Throw TypeError,
           Mongo.set_log (Mongo.log w ++ [mkLog LevelError msg]) w).

(** [createIndex] of the driver on a list of indexes. *)
Definition with_index (spec : Mongo.IndexSpec) (l : list Mongo.IndexSpec)
  : list Mongo.IndexSpec :=
  if in_dec Mongo.IndexSpec_eq_dec spec l then l else l ++ [spec].

(** The part of [rows] that belongs to the service [ip], in the order of
    [rows]. *)
Definition rows_of (ip : string) (rows : list Ping) : list Ping :=
  filter (fun p => String.eqb (ping_ip p) ip) rows.

(** The groups [g] hold, service by service, the rows [seen]: each key
    once, with the timestamps and the counts of its rows in their order,
    and every service of [seen] has a key. *)
Definition groups_of (seen : list Ping)
  (g : list (string * (list Z * list (option Z)))) : Prop :=
  NoDup (map fst g)
  /\ (forall k ts vs, In (k, (ts, vs)) g ->
        ts = map ping_timestamp (rows_of k seen)
        /\ vs = map ping_playerCount (rows_of k seen)
        /\ rows_of k seen <> [])
  /\ (forall row, In row seen -> In (ping_ip row) (map fst g)).

(** No registration before position [j] has the address [ip]. *)
Definition first_for (ip : string) (regs : list ServerRegistration)
  (j : nat) : bool :=
  negb (existsb (fun r => String.eqb (data_ip r) ip) (firstn j regs)).

Definition group_for (g : list (string * (list Z * list (option Z))))
  (ip : string) : option (string * (list Z * list (option Z))) :=
  find (fun e => String.eqb (fst e) ip) g.

(** What the registration [r] at position [j] is after the groups [g]
    were handed out. *)
Definition delivered (startTime : Z)
  (g : list (string * (list Z * list (option Z))))
  (regs : list ServerRegistration) (j : nat) (r : ServerRegistration)
  : ServerRegistration :=
  match group_for g (data_ip r) with
  | Some (_, (ts, vs)) =>
    if first_for (data_ip r) regs j
    then set_graphPoints (startTime, ts, vs) r else r
  | None => r
  end.

(** The registration [r] at position [j] after the rows [window] were
    handed out: the first registration of an address with rows gets the
    timestamps and counts of these rows, every other one is left as it
    is. *)
Definition with_points (startTime : Z) (window : list Ping)
  (regs : list ServerRegistration) (j : nat) (r : ServerRegistration)
  : ServerRegistration :=
  match rows_of (data_ip r) window with
  | [] => r
  | mine =>
    if first_for (data_ip r) regs j
    then set_graphPoints
           (startTime, map ping_timestamp mine, map ping_playerCount mine) r
    else r
  end.

(** The service whose timestamps become the time axis, the first key of
    [Object.keys]: when an address of [window] is an array index, one with
    the least index; when none is, the address of the first row. *)
Definition axis_service (window : list Ping) (ip : string) : Prop :=
  In ip (map ping_ip window)
  /\ match array_index ip with
     | Some n =>
       forall row m, In row window ->
         array_index (ping_ip row) = Some m -> (n <= m)%N
     | None =>
       (forall row, In row window -> array_index (ping_ip row) = None)
       /\ option_map ping_ip (hd_error window) = Some ip
     end.

(** The time axis [after] the rows [window] were handed out: the
    timestamps of the rows of the axis service, or the axis [before]
    when there is no row. *)
Definition with_axis (startTime : Z) (window : list Ping)
  (before after : option (Z * list Z)) : Prop :=
  match window with
  | [] => after = before
  | _ :: _ =>
    exists ip,
      axis_service window ip
      /\ after
         = Some (startTime, map ping_timestamp (rows_of ip window))
  end.

(** The record a registration displays for [ip] when the stored records
    are [recs]. *)
Definition shown_record (toSeconds : option Z -> option Z)
  (recs : list PlayersRecord) (ip : string) : option RecordData :=
  option_map
    (fun record =>
       mkRecordData (record_playerCount record)
         (toSeconds (record_timestamp record)))
    (find (fun r => String.eqb (record_ip r) ip) recs).

(** The record [loadRecords] of the MongoDB back end derives for [ip] from
    the stored pings. *)
Definition legacy_row (d : Mongo.Db) (ip : string) : PlayersRecord :=
  let legacy := fst (Mongo.findOne_pings_sorted ip d) in
  mkPlayersRecord (option_map ping_timestamp legacy) ip
    (match legacy with Some l => ping_playerCount l | None => None end).

(** The store [d] with [added] appended to the records. *)
Definition with_records (added : list PlayersRecord) (d : Mongo.Db)
  : Mongo.Db :=
  Mongo.mkDb (Mongo.pings d) (Mongo.players_record d ++ added)
    (Mongo.pings_indexes d) (Mongo.players_record_indexes d).

(** A refresh of the records on the MySQL back end, every statement it
    queues answered: three statements at most for each registration. *)
Definition refresh_records (toSeconds : option Z -> option Z)
  : M MySQL.World unit :=
  fun w =>
    bind MySQL.loadRecords
      (fun _ =>
         MySQL.turns toSeconds
           (3 * List.length (MySQL.serverRegistrations w))) w.

(** The statement queued by [m] fails with [e]: its callback logs one
    error and raises [e], which nobody catches; nothing else changes. *)
Definition statement_fails (toSeconds : option Z -> option Z)
  (m : M MySQL.World unit) (w : MySQL.World) (e : Exn)
  (rest : list (option Exn)) : Prop :=
  exists msg,
    bind m (fun _ => MySQL.turns toSeconds 1) w
    = (Throw e,
       MySQL.set_log (MySQL.log w ++ [mkLog LevelError msg])
         (MySQL.set_faults rest w)).

End Views.

(* ================================================================== *)
(** * The page between two closes *)

Module Reconnect.
Import Socket.

(** [this._webSocket] is defined. *)
Definition live (p : Page) : bool :=
  match _webSocket (manager p) with Some _ => true | None => false end.

(** [onclose] is called by a socket, so a page without a socket does not
    see one: every [Close] of [evs] meets a live socket. *)
Fixpoint closes_live (evs : list Event) (p : Page) : bool :=
  match evs with
  | [] => true
  | e :: rest =>
    (if is_close e then live p else true) && closes_live rest (step p e)
  end.

Definition closes (evs : list Event) : nat :=
  List.length (filter is_close evs).

(** Either the page has a socket and no countdown, or it has no socket
    and one countdown with at least a second to go. *)
Definition one_countdown (p : Page) : Prop :=
  0 <= _reconnectDelayBase (manager p)
  /\ ((live p = true /\ intervals p = 0%nat)
      \/ (live p = false /\ intervals p = 1%nat
          /\ exists d, _reconnectDelaySeconds (manager p) = Some d
                       /\ 1 <= d)).

End Reconnect.

(* ================================================================== *)
(** * The application object *)

Module App.

(** The numbers the page adds up are doubles.  Player counts have no
    fraction, so the doubles met here are the integers [Int z] that a
    double can hold, the two infinities that a sum can overflow to, and
    [NaN], which [+] gives when a count is [undefined]. *)
Inductive Num :=
| NaN
| Int (z : Z)
| Infinity (negative : bool).

(** A player count, or one of the two remembered values: [undefined] or a
    number. *)
Inductive Value :=
| Undefined
| Number (n : Num).

(** The double nearest to the integer [z]: below 2^53 in magnitude every
    integer is a double; above, the 53 leading bits are kept and the rest
    is rounded to nearest, ties to the even significand; from
    2^1024 - 2^970 on the result is an infinity. *)
Definition to_double (z : Z) : Num :=
  let m := Z.abs z in
  if m <? 2 ^ 53 then Int z
  else
    let e := Z.log2 m - 52 in
    let q := m / 2 ^ e in
    let r := m mod 2 ^ e in
    let half := 2 ^ (e - 1) in
    let q' := if (half <? r) || ((r =? half) && Z.odd q) then q + 1 else q in
    let m' := q' * 2 ^ e in
    if 2 ^ 1024 <=? m' then Infinity (z <? 0) else Int (Z.sgn z * m').

(** [sum + current]: the exact sum of two doubles, rounded. *)
Definition add (sum : Num) (current : Value) : Num :=
  match sum, current with
  | Int a, Number (Int b) => to_double (a + b)
  | Int _, Number (Infinity s) => Infinity s
  | Infinity s, Number (Int _) => Infinity s
  | Infinity s, Number (Infinity s') =>
    if Bool.eqb s s' then Infinity s else NaN
  | _, _ => NaN
  end.

(** [a !== b] for a number [a]: [NaN] differs from everything, itself
    included. *)
Definition strict_ne (a : Num) (b : Value) : bool :=
  match a, b with
  | Int x, Number (Int y) => negb (x =? y)
  | Infinity s, Number (Infinity s') => negb (Bool.eqb s s')
  | _, _ => true
  end.

(** The fields of [App] and what it touches on the page: [timers] are the
    running intervals, [nextTimer] the identifier [setInterval] returns
    next; [hasPublicConfig] is whether [publicConfig] is defined. *)
Record State := mkState {
  hasPublicConfig : bool;
  _taskIds : list nat;
  _lastTotalPlayerCount : Value;
  _lastServerRegistrationCount : option nat;
  timers : list nat;
  nextTimer : nat;
  stat_totalPlayers : string;
  stat_networks : string;
  pageReady : option bool
}.

(** [constructor ()], on a page whose counters show [players] and
    [networks]. *)
Definition constructor (players networks : string) : State :=
  mkState false [] Undefined None [] 0%nat players networks None.

(** [setPageReady (isReady)] *)
Definition setPageReady (isReady : bool) (s : State) : State :=
  mkState (hasPublicConfig s) (_taskIds s) (_lastTotalPlayerCount s)
    (_lastServerRegistrationCount s) (timers s) (nextTimer s)
    (stat_totalPlayers s) (stat_networks s) (Some isReady).

(** [initTasks ()] *)
Definition initTasks (s : State) : State :=
  let id := nextTimer s in
  mkState (hasPublicConfig s) (_taskIds s ++ [id])
    (_lastTotalPlayerCount s) (_lastServerRegistrationCount s)
    (timers s ++ [id]) (S id)
    (stat_totalPlayers s) (stat_networks s) (pageReady s).

(** [setPublicConfig (publicConfig)] *)
Definition setPublicConfig (s : State) : State :=
  initTasks
    (mkState true (_taskIds s) (_lastTotalPlayerCount s)
       (_lastServerRegistrationCount s) (timers s) (nextTimer s)
       (stat_totalPlayers s) (stat_networks s) (pageReady s)).

(** [clearInterval (id)] *)
Definition clearInterval (running : list nat) (id : nat) : list nat :=
  filter (fun t => negb (Nat.eqb t id)) running.

(** [handleDisconnect ()] *)
Definition handleDisconnect (s : State) : State :=
  setPageReady false
    (mkState false [] Undefined None
       (fold_left clearInterval (_taskIds s) (timers s)) (nextTimer s)
       "0" "0" (pageReady s)).

(** [getTotalPlayerCount ()], [counts] being the [playerCount] of the
    registrations. *)
Definition getTotalPlayerCount (counts : list Value) : Num :=
  fold_left add counts (Int 0).

Section WithFormat.

(** [formatNumber], defined in [util.js]. *)
Variable formatNumber : Num -> string.

(** [updateGlobalStats ()] *)
Definition updateGlobalStats (counts : list Value) (s : State) : State :=
  let totalPlayerCount := getTotalPlayerCount counts in
  let s :=
    if strict_ne totalPlayerCount (_lastTotalPlayerCount s)
    then mkState (hasPublicConfig s) (_taskIds s) (Number totalPlayerCount)
           (_lastServerRegistrationCount s) (timers s) (nextTimer s)
           (formatNumber totalPlayerCount) (stat_networks s) (pageReady s)
    else s in
  let serverRegistrationCount := List.length counts in
  match _lastServerRegistrationCount s with
  | Some last =>
    if Nat.eqb serverRegistrationCount last then s
    else mkState (hasPublicConfig s) (_taskIds s) (_lastTotalPlayerCount s)
           (Some serverRegistrationCount) (timers s) (nextTimer s)
           (stat_totalPlayers s)
           (Js.string_of_Z (Z.of_nat serverRegistrationCount)) (pageReady s)
  | None =>
    mkState (hasPublicConfig s) (_taskIds s) (_lastTotalPlayerCount s)
      (Some serverRegistrationCount) (timers s) (nextTimer s)
      (stat_totalPlayers s)
      (Js.string_of_Z (Z.of_nat serverRegistrationCount)) (pageReady s)
  end.

(** [handleSyncComplete ()] *)
Definition handleSyncComplete (counts : list Value) (s : State) : State :=
  updateGlobalStats counts s.

(** What the socket manager and the timers ask of the application; the
    registry holds [counts] at that moment. *)
Inductive Call :=
| SetPublicConfig
| SetPageReady (isReady : bool)
| HandleSyncComplete (counts : list Value)
| UpdateGlobalStats (counts : list Value)
| HandleDisconnect.

Definition call (s : State) (c : Call) : State :=
  match c with
  | SetPublicConfig => setPublicConfig s
  | SetPageReady isReady => setPageReady isReady s
  | HandleSyncComplete counts => handleSyncComplete counts s
  | UpdateGlobalStats counts => updateGlobalStats counts s
  | HandleDisconnect => handleDisconnect s
  end.

Definition calls (cs : list Call) (s : State) : State := fold_left call cs s.

End WithFormat.

(** The counters show what was remembered. *)
Definition in_step (formatNumber : Num -> string) (s : State) : Prop :=
  (forall n, _lastTotalPlayerCount s = Number n ->
             stat_totalPlayers s = formatNumber n)
  /\ (forall k, _lastServerRegistrationCount s = Some k ->
                stat_networks s = Js.string_of_Z (Z.of_nat k)).

(** The [SetPublicConfig] of [cs] since the last [HandleDisconnect]. *)
Fixpoint configured (cs : list Call) (n : nat) : nat :=
  match cs with
  | [] => n
  | SetPublicConfig :: rest => configured rest (S n)
  | HandleDisconnect :: rest => configured rest 0
  | _ :: rest => configured rest n
  end.

(** The timers of the page are those the application remembers, they are
    all different and older than the next identifier. *)
Definition tasks_tracked (s : State) : Prop :=
  timers s = _taskIds s
  /\ NoDup (_taskIds s)
  /\ (forall id, In id (_taskIds s) -> (id < nextTimer s)%nat).

End App.

(* ================================================================== *)
(** * Sample states *)

Module Samples.
Import Js.

(** One record, for service A. *)
Definition recorded : list PlayersRecord :=
  [mkPlayersRecord (Some 2000) "A" (Some 9)].

(** Service A is registered twice. *)
Definition services : list ServerRegistration :=
  [Scenario.registration "A"; Scenario.registration "B";
   Scenario.registration "A"].

(** Both back ends at time 3000 with a graph window of 2000, over the
    four pings of [Scenario.window_pings] and the record of A. *)
Definition mongo : Mongo.World :=
  Mongo.mkWorld (Mongo.mkDb Scenario.window_pings recorded [] []) true [] []
    services None 3000 (mkConfig 2000 None) [] [].

Definition mysql : MySQL.World :=
  MySQL.mkWorld
    (MySQL.mkDb (Some Scenario.window_pings) true true true (Some recorded))
    [] [] [] services None 3000 (mkConfig 2000 None) [] [] [].

(** A service named b pinged before a service named 1. *)
Definition numbered_pings : list Ping :=
  [mkPing 1000 "b" (Some 4); mkPing 2000 "1" (Some 6)].

Definition mongo_numbered : Mongo.World :=
  Mongo.mkWorld (Mongo.mkDb numbered_pings [] [] []) true [] []
    [Scenario.registration "b"; Scenario.registration "1"] None 3000
    (mkConfig 2000 None) [] [].

Definition mysql_numbered : MySQL.World :=
  MySQL.mkWorld
    (MySQL.mkDb (Some numbered_pings) true true true (Some []))
    [] [] [] [Scenario.registration "b"; Scenario.registration "1"] None
    3000 (mkConfig 2000 None) [] [] [].

(** A service whose address is the name of an inherited property. *)
Definition inherited_pings : list Ping :=
  [mkPing 1000 "b" (Some 4); mkPing 2000 "constructor" (Some 6)].

(** The same, with a server that refuses the next call. *)
Definition mongo_refusing : Mongo.World :=
  Mongo.set_faults [Some Scenario.lock_wait_timeout] mongo.

Definition mysql_refusing : MySQL.World :=
  MySQL.set_faults [Some Scenario.lock_wait_timeout] mysql.

(** The MongoDB back end before [connect]. *)
Definition mongo_offline : Mongo.World :=
  Mongo.mkWorld (Mongo.mkDb [] [] [] []) false [] [] services None 3000
    (mkConfig 2000 None) [] [].

(** A MySQL server without any table. *)
Definition mysql_empty : MySQL.World :=
  MySQL.mkWorld (MySQL.mkDb None false false false None) [] [] [] services
    None 3000 (mkConfig 2000 None) [] [] [].

(** A page whose second connection attempt was refused: the countdown to
    the third has four seconds to go. *)
Definition twice_refused : list Socket.Event :=
  [Socket.Close 1006; Socket.Tick; Socket.Close 1006].

(** A page that lost its connection and was asked for the history graph
    before the next one. *)
Definition disconnected : Socket.Page :=
  Socket.run [Socket.Open; Socket.Close 1006] Socket.init.

(** Numbers printed in decimal. *)
Definition decimal (n : App.Num) : string :=
  match n with
  | App.Int z => string_of_Z z
  | App.Infinity negative => if negative then "-Infinity" else "Infinity"
  | App.NaN => "NaN"
  end.

(** Two init messages without a disconnect between them, then a
    disconnect and a third. *)
Definition session : list App.Call :=
  [App.SetPublicConfig; App.UpdateGlobalStats [App.Number (App.Int 3)];
   App.SetPublicConfig; App.HandleDisconnect; App.SetPublicConfig].

End Samples.

(* ================================================================== *)
(** * Properties of the shared definitions *)
(* ================================================================== *)

Module JsFacts.
Import Js.

Lemma bind_Ok {S A B} (c : M S A) (k : A -> M S B) (s s' : S) (a : A) :
  c s = (Ok a, s') -> bind c k s = k a s'.
Proof. unfold bind. now intros ->. Qed.

Lemma bind_Throw {S A B} (c : M S A) (k : A -> M S B) (s s' : S) (e : Exn) :
  c s = (Throw e, s') -> bind c k s = (Throw e, s').
Proof. unfold bind. now intros ->. Qed.

Lemma bind_modify {S B} (f : S -> S) (k : unit -> M S B) (s : S) :
  bind (modify f) k s = k tt (f s).
Proof. reflexivity. Qed.


Lemma update_nth_length {A} (f : A -> A) (l : list A) : forall i,
  List.length (update_nth i f l) = List.length l.
Proof.
  induction l as [|x l IH]; intros [|i]; simpl; auto.
Qed.

Lemma update_nth_other {A} (f : A -> A) (l : list A) : forall i j,
  j <> i -> nth_error (update_nth i f l) j = nth_error l j.
Proof.
  induction l as [|x l IH]; intros [|i] [|j] H; simpl; auto; try congruence.
Qed.

Lemma update_nth_same {A} (f : A -> A) (l : list A) : forall i,
  nth_error (update_nth i f l) i = option_map f (nth_error l i).
Proof.
  induction l as [|x l IH]; intros [|i]; simpl; auto.
Qed.

(** ** Grouping *)

Lemma inherited_reserved (h : Holder) (key : string)
  (g : list (string * (list Z * list (option Z)))) :
  match inherited h key g with
  | Some _ => reserved h key = true
  | None => reserved h key = false
  end.
Proof.
  unfold reserved, inherited. destruct h.
  - now destruct (existsb (String.eqb key) object_prototype).
  - destruct (String.eqb key "length"); [reflexivity|].
    now destruct (existsb (String.eqb key) (array_prototype ++ object_prototype)).
Qed.

(** A loop that returns has appended every row. *)
Lemma group_rows_inr (h : Holder) (rows : list Ping) :
  forall g g' : list (string * (list Z * list (option Z))),
  group_rows h rows g = inr g' ->
  g' = fold_left (fun g row => append_row row g) rows g.
Proof.
  induction rows as [|row rows IH]; intros g g' H; cbn in *.
  - now injection H as <-.
  - unfold group_push in H.
    destruct (existsb _ g); [now apply IH|].
    destruct (inherited h (ping_ip row) g); [discriminate|now apply IH].
Qed.

Lemma append_row_keys (row : Ping)
  (g : list (string * (list Z * list (option Z)))) (k : string) :
  In k (map fst (append_row row g))
  <-> In k (map fst g) \/ k = ping_ip row.
Proof.
  induction g as [|[k0 [ts vs]] g IH]; cbn.
  - intuition.
  - destruct (String.eqb_spec k0 (ping_ip row)) as [E|Hne]; cbn.
    + subst k0. intuition.
    + rewrite IH. intuition.
Qed.

Lemma existsb_key (key : string)
  (g : list (string * (list Z * list (option Z)))) :
  existsb (fun e => String.eqb (fst e) key) g = true <-> In key (map fst g).
Proof.
  rewrite existsb_exists, in_map_iff. split.
  - intros (e & Hin & He). apply String.eqb_eq in He. now exists e.
  - intros (e & He & Hin). exists e. split; [exact Hin|].
    now apply String.eqb_eq.
Qed.

(** Rows without a reserved address are all appended. *)
Lemma group_rows_plain (h : Holder) (rows : list Ping) :
  forall g : list (string * (list Z * list (option Z))),
  (forall row, In row rows -> reserved h (ping_ip row) = false) ->
  group_rows h rows g
  = inr (fold_left (fun g row => append_row row g) rows g).
Proof.
  induction rows as [|row rows IH]; intros g H; [reflexivity|].
  assert (Hrow : reserved h (ping_ip row) = false) by (apply H; now left).
  assert (Hrows : forall r, In r rows -> reserved h (ping_ip r) = false)
    by (intros r Hr; apply H; now right).
  cbn. unfold group_push.
  destruct (existsb _ g); [now apply IH|].
  pose proof (inherited_reserved h (ping_ip row) g) as Hi.
  destruct (inherited h (ping_ip row) g); [congruence|now apply IH].
Qed.

(** A row with a reserved address stops the loop; the loop over the
    properties of a plain object stops with a [TypeError]. *)
Lemma group_rows_reserved (h : Holder) (rows : list Ping) :
  forall g : list (string * (list Z * list (option Z))),
  (forall k, In k (map fst g) -> reserved h k = false) ->
  (exists row, In row rows /\ reserved h (ping_ip row) = true) ->
  exists e,
    group_rows h rows g = inl e /\ (h = PlainObject -> e = TypeError).
Proof.
  induction rows as [|row rows IH]; intros g Hg (bad & Hbad & Hres);
    [destruct Hbad|].
  cbn. unfold group_push.
  pose proof (inherited_reserved h (ping_ip row) g) as Hi.
  destruct (reserved h (ping_ip row)) eqn:Er.
  - destruct (existsb _ g) eqn:Eown.
    + apply existsb_key, Hg in Eown. congruence.
    + destruct (inherited h (ping_ip row) g) as [e|] eqn:Ei;
        [|discriminate].
      exists e. split; [reflexivity|]. intros ->. unfold inherited in Ei.
      destruct (existsb (String.eqb (ping_ip row)) object_prototype);
        congruence.
  - assert (Hrest : exists r, In r rows /\ reserved h (ping_ip r) = true).
    { destruct Hbad as [<-|Hbad]; [congruence|now exists bad]. }
    assert (Hnext : forall k, In k (map fst (append_row row g)) ->
              reserved h k = false).
    { intros k Hk. apply append_row_keys in Hk as [Hk| ->]; auto. }
    destruct (existsb _ g); [now apply IH|].
    destruct (inherited h (ping_ip row) g); [discriminate|now apply IH].
Qed.

Lemma insert_index_perm (e : string * (list Z * list (option Z)))
  (l : list (string * (list Z * list (option Z)))) :
  Permutation (insert_index e l) (e :: l).
Proof.
  induction l as [|e' l IH]; [reflexivity|]. cbn.
  destruct (array_index (fst e)) as [n|]; [|reflexivity].
  destruct (array_index (fst e')) as [m|]; [|reflexivity].
  destruct (n <? m)%N; [reflexivity|].
  rewrite IH. apply perm_swap.
Qed.

Lemma sorted_perm (l : list (string * (list Z * list (option Z)))) :
  Permutation (fold_right insert_index [] l) l.
Proof.
  induction l as [|x l IH]; [reflexivity|]. cbn.
  rewrite insert_index_perm. now constructor.
Qed.

(** The first of the sorted keys has the least index. *)
Lemma sorted_head (l : list (string * (list Z * list (option Z)))) :
  forallb is_index l = true ->
  forall e0, hd_error (fold_right insert_index [] l) = Some e0 ->
  In e0 l
  /\ forall e' n m, In e' l ->
       array_index (fst e0) = Some n -> array_index (fst e') = Some m ->
       (n <= m)%N.
Proof.
  induction l as [|e l IH]; intros Hix e0 H0; [discriminate|].
  cbn in Hix. apply andb_true_iff in Hix as [He Hl].
  cbn [fold_right] in H0.
  destruct (fold_right insert_index [] l) as [|x t] eqn:Es.
  - pose proof (sorted_perm l) as P. rewrite Es in P.
    apply Permutation_nil in P. subst l.
    cbn in H0. injection H0 as <-. split; [now left|].
    intros e' n m [<-|[]] Hn Hm. rewrite Hn in Hm. injection Hm as <-. lia.
  - destruct (IH Hl x eq_refl) as [Hx Hmin].
    unfold is_index in He.
    destruct (array_index (fst e)) as [n|] eqn:En; [|discriminate].
    assert (Hxi : is_index x = true)
      by (apply (proj1 (forallb_forall _ _) Hl); exact Hx).
    unfold is_index in Hxi.
    destruct (array_index (fst x)) as [m|] eqn:Em; [|discriminate].
    cbn [insert_index] in H0. rewrite En, Em in H0.
    destruct (n <? m)%N eqn:Enm.
    + apply N.ltb_lt in Enm.
      cbn in H0. injection H0 as <-. split; [now left|].
      intros e' n' m' [<-|Hin] Hn' Hm'.
      * rewrite En in Hn', Hm'. injection Hn' as <-. injection Hm' as <-.
        lia.
      * rewrite En in Hn'. injection Hn' as <-.
        pose proof (Hmin e' m m' Hin eq_refl Hm'). lia.
    + apply N.ltb_ge in Enm.
      cbn in H0. injection H0 as <-. split; [now right|].
      intros e' n' m' [<-|Hin] Hn' Hm'.
      * rewrite Em in Hn'. rewrite En in Hm'.
        injection Hn' as <-. injection Hm' as <-. exact Enm.
      * rewrite Em in Hn'. exact (Hmin e' n' m' Hin Hn' Hm').
Qed.

Lemma object_keys_perm (g : list (string * (list Z * list (option Z)))) :
  Permutation (object_keys g) g.
Proof.
  unfold object_keys.
  rewrite sorted_perm.
  induction g as [|x g IH]; [reflexivity|]. cbn.
  destruct (is_index x); cbn.
  - now constructor.
  - symmetry. apply Permutation_cons_app. now symmetry.
Qed.

Lemma object_keys_In (g : list (string * (list Z * list (option Z))))
  (e : string * (list Z * list (option Z))) :
  In e (object_keys g) <-> In e g.
Proof.
  split; apply Permutation_in;
    [apply object_keys_perm|symmetry; apply object_keys_perm].
Qed.

(** The first key of [Object.keys]: the least array index when a key is
    one, the key created first when none is. *)
Lemma object_keys_head (g : list (string * (list Z * list (option Z))))
  (e0 : string * (list Z * list (option Z))) :
  hd_error (object_keys g) = Some e0 ->
  In e0 g
  /\ match array_index (fst e0) with
     | Some n =>
       forall e' m, In e' g -> array_index (fst e') = Some m -> (n <= m)%N
     | None =>
       (forall e', In e' g -> array_index (fst e') = None)
       /\ hd_error g = Some e0
     end.
Proof.
  unfold object_keys. intros H.
  assert (Hall : forallb is_index (filter is_index g) = true).
  { apply forallb_forall. intros x Hx. now apply filter_In in Hx. }
  destruct (fold_right insert_index [] (filter is_index g)) as [|x t] eqn:Es.
  - pose proof (sorted_perm (filter is_index g)) as P. rewrite Es in P.
    apply Permutation_nil in P.
    assert (Hnone : forall e', In e' g -> array_index (fst e') = None).
    { intros e' Hin. destruct (array_index (fst e')) eqn:E; [|reflexivity].
      assert (Hf : In e' (filter is_index g)).
      { apply filter_In. split; [exact Hin|]. unfold is_index.
        now rewrite E. }
      rewrite P in Hf. destruct Hf. }
    assert (Hsame : filter (fun e => negb (is_index e)) g = g).
    { clear -Hnone. induction g as [|a g IH]; [reflexivity|]. cbn.
      unfold is_index at 1. rewrite (Hnone a (or_introl eq_refl)). cbn.
      f_equal. apply IH. intros e' He'. apply Hnone. now right. }
    cbn [app] in H. rewrite Hsame in H.
    assert (Hin : In e0 g).
    { destruct g; [discriminate|]. injection H as <-. now left. }
    split; [exact Hin|]. rewrite (Hnone e0 Hin). split; assumption.
  - cbn in H. injection H as <-.
    destruct (sorted_head _ Hall x) as [Hin Hmin];
      [now rewrite Es|].
    apply filter_In in Hin as [Hin Hix]. split; [exact Hin|].
    unfold is_index in Hix.
    destruct (array_index (fst x)) as [n|] eqn:En; [|discriminate].
    intros e' m He' Hm. apply (Hmin e' n m); auto.
    apply filter_In. split; [exact He'|]. unfold is_index. now rewrite Hm.
Qed.

End JsFacts.

(* ================================================================== *)
(** * Properties of the browser side *)
(* ================================================================== *)

Module SocketFacts.
Import Socket.

Ltac page p :=
  let m := fresh "m" in
  destruct p as [m ? ? ? ? ?]; destruct m as [? ? ? ?]; simpl in *.

(** ** Reconnection delays *)

Lemma tick_keeps_base (p : Page) :
  _reconnectDelayBase (manager (tick p)) = _reconnectDelayBase (manager p).
Proof.
  page p. unfold tick; simpl.
  destruct intervals0; [reflexivity|].
  destruct _reconnectDelaySeconds0 as [d|]; [|reflexivity]. simpl.
  destruct (d - 1 =? 0); [reflexivity|].
  destruct (0 <? d - 1); reflexivity.
Qed.

Lemma ticks_keep_base (n : nat) (p : Page) :
  _reconnectDelayBase (manager (run (repeat Tick n) p))
  = _reconnectDelayBase (manager p).
Proof.
  revert p. induction n as [|n IH]; intros p; [reflexivity|].
  simpl. rewrite IH. apply tick_keeps_base.
Qed.

Lemma onclose_base (code : Z) (p : Page) :
  _reconnectDelayBase (manager (onclose code p))
  = _reconnectDelayBase (manager p) + 1.
Proof. page p. unfold onclose. destruct (code =? 1006); reflexivity. Qed.

Lemma onclose_delay (code : Z) (p : Page) :
  delay_of (onclose code p)
  = Z.min ((_reconnectDelayBase (manager p) + 1)
           * (_reconnectDelayBase (manager p) + 1)) 30.
Proof. page p. unfold onclose. destruct (code =? 1006); reflexivity. Qed.

Lemma failed_attempt_base (p : Page) :
  _reconnectDelayBase (manager (failed_attempt p))
  = _reconnectDelayBase (manager p) + 1.
Proof.
  unfold failed_attempt, countdown.
  rewrite ticks_keep_base. apply onclose_base.
Qed.

Lemma onopen_base (p : Page) : _reconnectDelayBase (manager (onopen p)) = 0.
Proof. reflexivity. Qed.

(** Only [onopen] brings the counter back: every other event leaves it or
    adds one. *)
Lemma step_base (p : Page) (e : Event) :
  e <> Open ->
  _reconnectDelayBase (manager (step p e)) = _reconnectDelayBase (manager p)
  \/ _reconnectDelayBase (manager (step p e))
     = _reconnectDelayBase (manager p) + 1.
Proof.
  intros Hne. destruct e; simpl.
  - congruence.
  - right. apply onclose_base.
  - left. apply tick_keeps_base.
  - left. destruct isGraphVisible; [|reflexivity].
    page p. unfold sendHistoryGraphRequest; simpl.
    destruct _hasRequestedHistoryGraph0; simpl; [reflexivity|].
    destruct _webSocket0; reflexivity.
  - now left.
  - now left.
  - left. page p. unfold sendHistoryGraphRequest; simpl.
    destruct _hasRequestedHistoryGraph0; simpl; [reflexivity|].
    destruct _webSocket0; reflexivity.
Qed.

Lemma backoff_from (n : nat) : forall (p : Page) (b : nat),
  _reconnectDelayBase (manager p) = Z.of_nat b ->
  backoff n p = map quadratic_capped (seq (S b) n).
Proof.
  induction n as [|n IH]; intros p b Hb; [reflexivity|].
  simpl. f_equal.
  - rewrite onclose_delay, Hb. unfold quadratic_capped.
    replace (Z.of_nat b + 1) with (Z.of_nat (S b)) by lia. reflexivity.
  - apply IH. rewrite failed_attempt_base, Hb. lia.
Qed.

(** The countdown started by a close ends, after as many ticks as the
    delay has seconds, with a new socket and the timer cleared. *)
Lemma ticks_reach_zero (n : nat) : forall (p : Page) (k : nat) (d : Z),
  intervals p = S k ->
  _reconnectDelaySeconds (manager p) = Some d ->
  d = Z.of_nat (S n) ->
  let q := run (repeat Tick (S n)) p in
  _webSocket (manager q) = Some (nextSocket p)
  /\ nextSocket q = S (nextSocket p)
  /\ _hasRequestedHistoryGraph (manager q)
     = _hasRequestedHistoryGraph (manager p)
  /\ sent q = sent p
  /\ intervals q = k
  /\ _reconnectDelaySeconds (manager q) = Some 0.
Proof.
  induction n as [|n IH]; intros p k d Hi Hd Hn.
  - destruct p as [[f b ds ws] ns st iv cap unc].
    cbn [intervals manager _reconnectDelaySeconds] in Hi, Hd.
    rewrite Hi, Hd, Hn. repeat split; reflexivity.
  - change (run (repeat Tick (S (S n))) p)
      with (run (repeat Tick (S n)) (tick p)).
    assert (Ht : tick p
                 = with_caption
                     (with_manager p
                        (mkSocketManager
                           (_hasRequestedHistoryGraph (manager p))
                           (_reconnectDelayBase (manager p))
                           (Some (d - 1))
                           (_webSocket (manager p))))
                     (CaptionReconnectingIn (d - 1))).
    { unfold tick. rewrite Hi, Hd.
      destruct (Z.eqb_spec (d - 1) 0) as [E|_]; [lia|].
      destruct (Z.ltb_spec 0 (d - 1)) as [_|E]; [|lia].
      reflexivity. }
    rewrite Ht.
    match goal with |- let q := run _ ?p' in _ =>
      specialize (IH p' k (d - 1) Hi eq_refl ltac:(lia)) end.
    exact IH.
Qed.

Lemma countdown_reconnects (code : Z) (p : Page) :
  0 <= _reconnectDelayBase (manager p) ->
  let q := countdown (onclose code p) in
  _webSocket (manager q) = Some (nextSocket p)
  /\ nextSocket q = S (nextSocket p)
  /\ _hasRequestedHistoryGraph (manager q) = false
  /\ sent q = sent p
  /\ intervals q = intervals p.
Proof.
  intros Hbase. unfold countdown.
  assert (Hpos : 1 <= delay_of (onclose code p)).
  { rewrite onclose_delay.
    set (b := _reconnectDelayBase (manager p) + 1).
    apply Z.min_glb; [|lia]. nia. }
  destruct (Z.to_nat (delay_of (onclose code p))) as [|n] eqn:En; [lia|].
  assert (Hd : _reconnectDelaySeconds (manager (onclose code p))
               = Some (delay_of (onclose code p))).
  { unfold onclose. destruct (code =? 1006); reflexivity. }
  assert (Hi : intervals (onclose code p) = S (intervals p)).
  { unfold onclose. destruct (code =? 1006); reflexivity. }
  destruct (ticks_reach_zero n _ _ _ Hi Hd ltac:(lia))
    as (A & B & C & D & E & _).
  cbv zeta. rewrite A, B, C, D, E.
  unfold onclose. destruct (code =? 1006); repeat split; reflexivity.
Qed.

Lemma step_base_nonneg (p : Page) (e : Event) :
  0 <= _reconnectDelayBase (manager p) ->
  0 <= _reconnectDelayBase (manager (step p e)).
Proof.
  intros H.
  assert (Hopen : e = Open \/ e <> Open)
    by (destruct e; (now left) || (right; discriminate)).
  destruct Hopen as [->|Hne]; [simpl; lia|].
  destruct (step_base p e Hne) as [E|E]; rewrite E; lia.
Qed.

Lemma run_base_nonneg (evs : list Event) : forall p : Page,
  0 <= _reconnectDelayBase (manager p) ->
  0 <= _reconnectDelayBase (manager (run evs p)).
Proof.
  induction evs as [|e evs IH]; intros p H; [exact H|].
  simpl. apply IH, step_base_nonneg, H.
Qed.

(** ** The history-graph request *)

Lemma tidy_init : tidy init.
Proof.
  unfold tidy, init; simpl. repeat split.
  - intros c [].
  - intros c [= <-]. lia.
  - constructor.
  - intros _ c _ [].
Qed.

Lemma tidy_createWebSocket (p : Page) : tidy p -> tidy (createWebSocket p).
Proof.
  intros (A & B & C & D). unfold tidy; simpl. repeat split.
  - intros c Hc. specialize (A c Hc). lia.
  - intros c [= <-]. lia.
  - exact C.
  - intros _ c [= <-] Hin. specialize (A _ Hin). lia.
Qed.

Lemma tidy_sendHistoryGraphRequest (p : Page) :
  tidy p -> tidy (sendHistoryGraphRequest p).
Proof.
  intros (A & B & C & D). unfold sendHistoryGraphRequest.
  destruct (_hasRequestedHistoryGraph (manager p)) eqn:Ef; simpl;
    [unfold tidy; rewrite Ef; split; [|split; [|split]]; assumption|].
  destruct (_webSocket (manager p)) as [c|] eqn:Ew; unfold tidy; simpl.
  - rewrite map_app; simpl. repeat split.
    + intros x Hx. apply in_app_or in Hx as [Hx|[<-|[]]]; auto.
    + intros x [= <-]. auto.
    + apply NoDup_app. repeat split.
      * exact C.
      * constructor; [intros []|constructor].
      * intros x Hx [<-|[]]. exact (D eq_refl _ eq_refl Hx).
    + discriminate.
  - repeat split; auto; discriminate.
Qed.

Lemma tidy_tick (p : Page) : tidy p -> tidy (tick p).
Proof.
  intros H. unfold tick.
  destruct (intervals p) as [|k]; [exact H|].
  destruct (_reconnectDelaySeconds (manager p)) as [d|]; [|exact H].
  destruct (d - 1 =? 0).
  - apply tidy_createWebSocket. exact H.
  - destruct (0 <? d - 1); exact H.
Qed.

Lemma tidy_step (p : Page) (e : Event) : tidy p -> tidy (step p e).
Proof.
  intros H. destruct e; simpl.
  - exact H.
  - destruct H as (A & B & C & D). unfold onclose.
    destruct (code =? 1006); unfold tidy; simpl;
      repeat split; auto; discriminate.
  - apply tidy_tick, H.
  - destruct isGraphVisible; [apply tidy_sendHistoryGraphRequest|]; exact H.
  - exact H.
  - exact H.
  - apply tidy_sendHistoryGraphRequest, H.
Qed.

Lemma tidy_run (evs : list Event) : forall p, tidy p -> tidy (run evs p).
Proof.
  induction evs as [|e evs IH]; intros p H; [exact H|].
  simpl. apply IH, tidy_step, H.
Qed.

Lemma tidy_sent_on (p : Page) (c : nat) : tidy p -> (sent_on c p <= 1)%nat.
Proof.
  intros (_ & _ & C & _). unfold sent_on.
  apply (proj1 (NoDup_count_occ Nat.eq_dec _) C).
Qed.

(** Without a close the flag never goes down again. *)
Lemma step_keeps_flag (p : Page) (e : Event) :
  is_close e = false ->
  _hasRequestedHistoryGraph (manager p) = true ->
  _hasRequestedHistoryGraph (manager (step p e)) = true
  /\ sent (step p e) = sent p.
Proof.
  intros Hc Hf. destruct e; simpl; try discriminate; auto.
  - unfold tick. destruct (intervals p); auto.
    destruct (_reconnectDelaySeconds (manager p)) as [d|]; auto.
    destruct (d - 1 =? 0); auto. destruct (0 <? d - 1); auto.
  - destruct isGraphVisible; auto.
    unfold sendHistoryGraphRequest. rewrite Hf. auto.
  - unfold sendHistoryGraphRequest. rewrite Hf. auto.
Qed.

Lemma run_keeps_flag (evs : list Event) : forall p,
  forallb (fun e => negb (is_close e)) evs = true ->
  _hasRequestedHistoryGraph (manager p) = true ->
  sent (run evs p) = sent p.
Proof.
  induction evs as [|e evs IH]; intros p Hc Hf; [reflexivity|].
  simpl in Hc. apply andb_prop in Hc as [He Hc].
  apply negb_true_iff in He.
  destruct (step_keeps_flag p e He Hf) as [Hf' Hs].
  simpl. rewrite (IH _ Hc Hf'). exact Hs.
Qed.

Lemma step_sends_at_most_one (p : Page) (e : Event) :
  is_close e = false ->
  sent (step p e) = sent p
  \/ (exists c, sent (step p e) = sent p ++ [(c, "requestHistoryGraph")])
     /\ _hasRequestedHistoryGraph (manager (step p e)) = true.
Proof.
  intros Hc.
  assert (Hsend : sent (sendHistoryGraphRequest p) = sent p
    \/ (exists c, sent (sendHistoryGraphRequest p)
                  = sent p ++ [(c, "requestHistoryGraph")])
       /\ _hasRequestedHistoryGraph (manager (sendHistoryGraphRequest p))
          = true).
  { unfold sendHistoryGraphRequest.
    destruct (_hasRequestedHistoryGraph (manager p)); simpl; auto.
    destruct (_webSocket (manager p)) as [c|]; simpl; eauto. }
  destruct e; simpl; try discriminate; auto.
  - left. unfold tick. destruct (intervals p); auto.
    destruct (_reconnectDelaySeconds (manager p)) as [d|]; auto.
    destruct (d - 1 =? 0); auto. destruct (0 <? d - 1); auto.
  - destruct isGraphVisible; auto.
Qed.

Lemma run_sends_at_most_one (evs : list Event) : forall p,
  forallb (fun e => negb (is_close e)) evs = true ->
  (List.length (sent (run evs p)) <= S (List.length (sent p)))%nat.
Proof.
  induction evs as [|e evs IH]; intros p Hc; [simpl; lia|].
  simpl in Hc. apply andb_prop in Hc as [He Hc].
  apply negb_true_iff in He. simpl.
  destruct (step_sends_at_most_one p e He) as [Hs|[[c Hs] Hf]].
  - specialize (IH (step p e) Hc). rewrite Hs in IH. exact IH.
  - rewrite (run_keeps_flag evs _ Hc Hf), Hs, length_app. simpl. lia.
Qed.

Lemma send_repeated (n : nat) : forall p,
  _hasRequestedHistoryGraph (manager p) = true ->
  run (repeat CallSendHistoryGraphRequest n) p = p.
Proof.
  induction n as [|n IH]; intros p Hf; [reflexivity|].
  simpl. unfold sendHistoryGraphRequest at 1. rewrite Hf. simpl.
  apply IH, Hf.
Qed.

(** C7: starting from a reset state (counter at 0), the delays computed
    for [n] consecutive failed connection attempts are [min (k * k, 30)]
    seconds for k = 1 .. n, that is 1, 4, 9, 16, 25, 30, 30, 30, ...; the
    counter grows by one on each close and only [onopen] sets it back to
    0. *)
Theorem reconnect_delay_schedule (p : Page) (n : nat) :
  _reconnectDelayBase (manager p) = 0 ->
  backoff n p = map quadratic_capped (seq 1 n)
  /\ backoff 8 p = [1; 4; 9; 16; 25; 30; 30; 30]
  /\ (forall (q : Page) (code : Z),
        _reconnectDelayBase (manager (onclose code q))
        = _reconnectDelayBase (manager q) + 1)
  /\ (forall q : Page, _reconnectDelayBase (manager (onopen q)) = 0)
  /\ (forall (q : Page) (e : Event), e <> Open ->
        _reconnectDelayBase (manager q)
        <= _reconnectDelayBase (manager (step q e))).
Proof.
  intros Hb. repeat split.
  - apply (backoff_from n p 0). exact Hb.
  - rewrite (backoff_from 8 p 0 Hb). reflexivity.
  - intros q code. apply onclose_base.
  - intros q e Hne. destruct (step_base q e Hne) as [E|E]; rewrite E; lia.
Qed.

Lemma reconnect_delay_schedule_witness :
  _reconnectDelayBase (manager init) = 0
  /\ backoff 10 init = [1; 4; 9; 16; 25; 30; 30; 30; 30; 30]
  /\ _reconnectDelayBase (manager (failed_attempt (failed_attempt init)))
     <= _reconnectDelayBase
          (manager (step (failed_attempt (failed_attempt init)) Tick)).
Proof.
  destruct (reconnect_delay_schedule init 10 eq_refl) as (A & _ & _ & _ & E).
  split; [reflexivity|]. split.
  - rewrite A. reflexivity.
  - apply E. discriminate.
Defined.

(** C8: on every socket the page ever opens the request is written at most
    once, however often [sendHistoryGraphRequest] is called; without a
    close at most one request is written at all and a raised flag stays
    raised; after a close and the reconnection that follows, any positive
    number of calls writes exactly one request, on the new socket. *)
Theorem history_request_once_per_connection :
  (forall (evs : list Event) (c : nat),
      (sent_on c (run evs init) <= 1)%nat)
  /\ (forall (evs : list Event) (p : Page),
        forallb (fun e => negb (is_close e)) evs = true ->
        (List.length (sent (run evs p)) <= S (List.length (sent p)))%nat)
  /\ (forall (p : Page) (e : Event),
        is_close e = false ->
        _hasRequestedHistoryGraph (manager p) = true ->
        _hasRequestedHistoryGraph (manager (step p e)) = true)
  /\ (forall (evs : list Event) (code : Z) (n : nat),
        let p := run evs init in
        let q := countdown (onclose code p) in
        sent (run (repeat CallSendHistoryGraphRequest (S n)) q)
        = sent p ++ [(nextSocket p, "requestHistoryGraph")]).
Proof.
  split; [|split; [|split]].
  - intros evs c. apply tidy_sent_on, tidy_run, tidy_init.
  - intros evs p H. apply run_sends_at_most_one, H.
  - intros p e Hc Hf. apply (step_keeps_flag p e Hc Hf).
  - intros evs code n p q.
    assert (Hb : 0 <= _reconnectDelayBase (manager p))
      by (apply run_base_nonneg; simpl; lia).
    destruct (countdown_reconnects code p Hb) as (Hw & _ & Hf & Hs & _).
    fold q in Hw, Hf, Hs.
    change (run (repeat CallSendHistoryGraphRequest (S n)) q)
      with (run (repeat CallSendHistoryGraphRequest n)
              (sendHistoryGraphRequest q)).
    assert (Hq : sendHistoryGraphRequest q
                 = mkPage
                     (mkSocketManager true (_reconnectDelayBase (manager q))
                        (_reconnectDelaySeconds (manager q))
                        (_webSocket (manager q)))
                     (nextSocket q)
                     (sent p ++ [(nextSocket p, "requestHistoryGraph")])
                     (intervals q) (caption q) (uncaught q)).
    { unfold sendHistoryGraphRequest. rewrite Hf, Hw, Hs. reflexivity. }
    rewrite send_repeated; rewrite Hq; reflexivity.
Qed.

Lemma history_request_once_per_connection_witness :
  (sent_on 0
     (run [MsgInit true; CallSendHistoryGraphRequest;
           CallSendHistoryGraphRequest] init) <= 1)%nat
  /\ (List.length
        (sent (run [MsgInit true; Tick; CallSendHistoryGraphRequest] init))
      <= 1)%nat
  /\ _hasRequestedHistoryGraph
       (manager (step (run [MsgInit true] init) Open)) = true
  /\ sent (run [CallSendHistoryGraphRequest; CallSendHistoryGraphRequest]
             (countdown (onclose 1006 (run [Open; MsgInit true] init))))
     = [(0%nat, "requestHistoryGraph"); (1%nat, "requestHistoryGraph")].
Proof.
  destruct history_request_once_per_connection as (A & B & C & D).
  split; [apply A|]. split; [|split].
  - apply (B [MsgInit true; Tick; CallSendHistoryGraphRequest] init).
    reflexivity.
  - apply C; reflexivity.
  - exact (D [Open; MsgInit true] 1006 1%nat).
Defined.

End SocketFacts.

(* ================================================================== *)
(** * Properties of the MongoDB back end *)
(* ================================================================== *)

Module MongoFacts.
Import Js JsFacts Mongo.

Lemma driver_ok {A} (op : Db -> A * Db) (w : World) :
  connected w = true -> next_ok (faults w) = true ->
  driver op w
  = (Ok (fst (op (server w))),
     set_server (snd (op (server w))) (set_faults (tl (faults w)) w)).
Proof.
  intros Hc Hf. unfold driver. rewrite Hc.
  destruct w as [d c f ? ? ? ? ? ? ?]; cbn in *.
  destruct f as [|[e|] rest]; cbn in *; try discriminate;
    destruct (op d); reflexivity.
Qed.

Lemma driver_fault {A} (op : Db -> A * Db) (w : World) (e : Exn)
  (rest : list (option Exn)) :
  connected w = true -> faults w = Some e :: rest ->
  driver op w = (Throw e, set_faults rest w).
Proof. intros Hc Hf. unfold driver. rewrite Hc, Hf. reflexivity. Qed.

Lemma getRecentPings_ok (startTime endTime : Z) (w : World) :
  connected w = true -> next_ok (faults w) = true ->
  getRecentPings startTime endTime w
  = (Ok (filter (between startTime endTime) (pings (server w))),
     set_faults (tl (faults w)) w).
Proof.
  intros Hc Hf. unfold getRecentPings, try_catch.
  rewrite driver_ok by assumption. simpl.
  destruct w as [[? ? ? ?] ? ? ? ? ? ? ? ? ?]; reflexivity.
Qed.

Lemma loadGraphPoints_ok (graphDuration : Z) (w : World)
  (g : list (string * (list Z * list (option Z)))) :
  connected w = true -> next_ok (faults w) = true ->
  let startTime := clock w - graphDuration in
  let pingData := filter (between startTime (clock w)) (pings (server w)) in
  group_rows PlainObject pingData [] = inr g ->
  exists w',
    loadGraphPoints graphDuration w = (Ok tt, w')
    /\ serverRegistrations w'
       = deliver_all startTime (object_keys g) (serverRegistrations w)
    /\ server w' = server w
    /\ fired w' = fired w ++ [LoadGraphPointsCallback]
    /\ timeTracker w'
       = match object_keys g with
         | (_, (timestamps, _)) :: _ => Some (startTime, timestamps)
         | [] => timeTracker w
         end.
Proof.
  intros Hc Hf startTime pingData Hg.
  unfold loadGraphPoints, bind, getEpochMillis, try_catch.
  rewrite getRecentPings_ok by assumption.
  fold startTime. fold pingData. rewrite Hg.
  destruct (object_keys g) as [|[serverIp [timestamps values]] rest];
    simpl; eexists; (split; [reflexivity|]); simpl; auto.
Qed.


(** ** Single calls, when the server answers and when it fails *)

Lemma set_faults_nil (w : World) : faults w = [] -> set_faults [] w = w.
Proof. destruct w; simpl; intros ->; reflexivity. Qed.

Lemma set_server_same (w : World) : set_server (server w) w = w.
Proof. destruct w; reflexivity. Qed.

Lemma getRecord_ok (ip : string) (w : World) :
  connected w = true -> faults w = [] ->
  getRecord ip w
  = (Ok (find (fun r => String.eqb (record_ip r) ip)
           (players_record (server w))), w).
Proof.
  intros Hc Hf. unfold getRecord, try_catch.
  rewrite driver_ok by (rewrite ?Hf; auto). rewrite Hf. simpl.
  rewrite set_faults_nil by assumption. now rewrite set_server_same.
Qed.

Lemma getRecordLegacy_ok (ip : string) (w : World) :
  connected w = true -> faults w = [] ->
  getRecordLegacy ip w = (Ok (fst (findOne_pings_sorted ip (server w))), w).
Proof.
  intros Hc Hf. unfold getRecordLegacy, try_catch.
  rewrite driver_ok by (rewrite ?Hf; auto). rewrite Hf. simpl.
  rewrite set_faults_nil by assumption.
  unfold findOne_pings_sorted.
  destruct (filter _ (pings (server w))); simpl; now rewrite set_server_same.
Qed.

Lemma insertRecord_ok (ip : string) (playerCount timestamp : option Z)
  (w : World) :
  connected w = true -> faults w = [] ->
  insertRecord ip playerCount timestamp w
  = (Ok tt,
     set_server
       (snd (insertOne_players_record
               (mkPlayersRecord timestamp ip playerCount) (server w))) w).
Proof.
  intros Hc Hf. unfold insertRecord, try_catch.
  rewrite driver_ok by (rewrite ?Hf; auto). rewrite Hf. simpl.
  now rewrite set_faults_nil by assumption.
Qed.

Lemma insertPing_ok (ip : string) (timestamp : Z) (count : option Z)
  (w : World) :
  connected w = true -> faults w = [] ->
  insertPing ip timestamp count w
  = (Ok tt,
     set_server (snd (insertOne_pings (mkPing timestamp ip count) (server w)))
       w).
Proof.
  intros Hc Hf. unfold insertPing, try_catch.
  rewrite driver_ok by (rewrite ?Hf; auto). rewrite Hf. simpl.
  now rewrite set_faults_nil by assumption.
Qed.

(** Whatever the class of the error, [insertRecord] logs it and throws it
    again. *)
Lemma insertRecord_fault (ip : string) (playerCount timestamp : option Z)
  (w : World) (e : Exn) (rest : list (option Exn)) :
  connected w = true -> faults w = Some e :: rest ->
  insertRecord ip playerCount timestamp w
  = (Throw e,
     set_log
       (log w ++ [mkLog LevelError
                    ("Failed to insert player count record of " ++ ip
                     ++ " at " ++ string_of_number timestamp)%string])
       (set_faults rest w)).
Proof.
  intros Hc Hf. unfold insertRecord, try_catch.
  rewrite (driver_fault _ w e rest Hc Hf). reflexivity.
Qed.

Lemma getRecord_fault (ip : string) (w : World) (e : Exn)
  (rest : list (option Exn)) :
  connected w = true -> faults w = Some e :: rest ->
  getRecord ip w
  = (Throw e,
     set_log (log w ++ [mkLog LevelError
                          ("Failed to get ping record for " ++ ip)%string])
       (set_faults rest w)).
Proof.
  intros Hc Hf. unfold getRecord, try_catch.
  rewrite (driver_fault _ w e rest Hc Hf). reflexivity.
Qed.

(** ** The legacy record *)

Lemma count_leb_refl (a : option Z) : count_leb a a = true.
Proof. destruct a; simpl; [apply Z.leb_refl|reflexivity]. Qed.

Lemma count_leb_trans (a b c : option Z) :
  count_leb a b = true -> count_leb b c = true -> count_leb a c = true.
Proof.
  destruct a, b, c; simpl; try congruence; rewrite ?Z.leb_le; lia.
Qed.

Lemma count_leb_total (a b : option Z) :
  count_leb a b = false -> count_leb b a = true.
Proof.
  destruct a, b; simpl; try congruence.
  rewrite Z.leb_gt, Z.leb_le. lia.
Qed.

Lemma top_playerCount_spec (l : list Ping) : forall best : Ping,
  In (top_playerCount best l) (best :: l)
  /\ forall p, In p (best :: l) ->
       count_leb (ping_playerCount p)
         (ping_playerCount (top_playerCount best l)) = true.
Proof.
  induction l as [|x l IH]; intros best; simpl.
  - split; [now left|]. intros p [<-|[]]. apply count_leb_refl.
  - destruct (count_leb (ping_playerCount x) (ping_playerCount best)) eqn:E.
    + destruct (IH best) as [Hin Hmax]. split.
      * destruct Hin as [<-|Hin]; [now left|right; now right].
      * intros p [<-|[<-|Hp]].
        -- apply Hmax. now left.
        -- eapply count_leb_trans; [exact E|]. apply Hmax. now left.
        -- apply Hmax. now right.
    + destruct (IH x) as [Hin Hmax]. split.
      * right. exact Hin.
      * intros p [<-|[<-|Hp]].
        -- eapply count_leb_trans; [apply count_leb_total, E|].
           apply Hmax. now left.
        -- apply Hmax. now left.
        -- apply Hmax. now right.
Qed.

(** [findOne] with the descending sort returns a ping of the service whose
    [playerCount] no ping of the service exceeds, and [null] only when the
    service has no ping. *)
Lemma findOne_pings_sorted_spec (ip : string) (d : Db) :
  match fst (findOne_pings_sorted ip d) with
  | Some r =>
    In r (pings d) /\ ping_ip r = ip
    /\ forall p, In p (pings d) -> ping_ip p = ip ->
         count_leb (ping_playerCount p) (ping_playerCount r) = true
  | None => forall p, In p (pings d) -> ping_ip p <> ip
  end.
Proof.
  unfold findOne_pings_sorted.
  destruct (filter (fun p => String.eqb (ping_ip p) ip) (pings d))
    as [|b l] eqn:E; simpl.
  - intros p Hp Hip.
    assert (Hin : In p (filter (fun p => String.eqb (ping_ip p) ip) (pings d)))
      by (apply filter_In; split; [exact Hp|now apply String.eqb_eq]).
    rewrite E in Hin. exact Hin.
  - destruct (top_playerCount_spec l b) as [Hin Hmax].
    rewrite <- E in Hin.
    apply filter_In in Hin as [Hin Hip]. apply String.eqb_eq in Hip.
    repeat split; auto.
    intros p Hp Hpip. apply Hmax. rewrite <- E.
    apply filter_In. split; [exact Hp|now apply String.eqb_eq].
Qed.

(** ** One turn of the record refresh *)

Lemma only_store_refl (w : World) : only_store w w.
Proof. repeat split. Qed.

Lemma only_store_trans (a b c : World) :
  only_store a b -> only_store b c -> only_store a c.
Proof.
  unfold only_store. intros (A1 & A2 & A3 & A4 & A5 & A6 & A7)
    (B1 & B2 & B3 & B4 & B5 & B6 & B7).
  repeat split; congruence.
Qed.

Lemma guarded_driver_only_store {A} (op : Db -> A * Db) (msg : string)
  (w : World) :
  only_store w
    (snd (try_catch (driver op)
            (fun err => logger_error msg ;; throw err) w)).
Proof.
  unfold try_catch, driver.
  destruct (connected w) eqn:Hc; simpl; [|repeat split].
  destruct (faults w) as [|[e|] rest]; simpl;
    try destruct (op (server w)); simpl; repeat split.
Qed.

Section Turn.

Variable toSeconds : option Z -> option Z.

(** The end of the [try] block: the counter, and the callback when the
    counter has reached the number of registrations. *)
Lemma loadRecords_count (c : nat) (w : World) :
  (let completedTasks := S c in
   w <- get ;;
   (if Nat.eqb completedTasks (List.length (serverRegistrations w))
    then callback LoadRecordsCallback
    else ret tt) ;;
   ret completedTasks) w
  = (Ok (S c),
     if Nat.eqb (S c) (List.length (serverRegistrations w))
     then set_fired (fired w ++ [LoadRecordsCallback]) w
     else w).
Proof.
  cbv zeta. unfold bind, get.
  destruct (Nat.eqb (S c) (List.length (serverRegistrations w)));
    reflexivity.
Qed.

Lemma assigned_counted (i c : nat) (d : RecordData) (w v : World) :
  serverRegistrations v
  = update_nth i (set_recordData d) (serverRegistrations w) ->
  fired v = fired w -> connected v = connected w ->
  let w' := if Nat.eqb (S c) (List.length (serverRegistrations v))
            then set_fired (fired v ++ [LoadRecordsCallback]) v
            else v in
  only_registration i w w'
  /\ fired w'
     = fired w
       ++ (if Nat.eqb (S c) (List.length (serverRegistrations w))
           then [LoadRecordsCallback] else [])
  /\ option_map assigned (nth_error (serverRegistrations w') i)
     = option_map (fun _ => true) (nth_error (serverRegistrations w) i).
Proof.
  intros R1 R2 R3.
  assert (Hlen : List.length (serverRegistrations v)
                 = List.length (serverRegistrations w))
    by (rewrite R1; apply update_nth_length).
  rewrite Hlen. unfold only_registration.
  destruct (Nat.eqb (S c) (List.length (serverRegistrations w)));
    cbn [serverRegistrations fired connected set_fired];
    rewrite R1, R2, R3, update_nth_length, update_nth_same, ?app_nil_r;
    (repeat split;
     [ intros j Hj; now apply update_nth_other
     | destruct (nth_error (serverRegistrations w) i); reflexivity ]).
Qed.

Lemma loadRecords_try_spec (i : nat) (ip : string) (c : nat) (w : World) :
  let r := fst (loadRecords_try toSeconds i ip c w) in
  let w' := snd (loadRecords_try toSeconds i ip c w) in
  only_registration i w w'
  /\ match r with
     | Ok c' =>
       c' = S c
       /\ fired w'
          = fired w
            ++ (if Nat.eqb (S c) (List.length (serverRegistrations w))
                then [LoadRecordsCallback] else [])
       /\ option_map assigned (nth_error (serverRegistrations w') i)
          = option_map (fun _ => true) (nth_error (serverRegistrations w) i)
     | Throw _ => fired w' = fired w
     end.
Proof.
  unfold loadRecords_try, modify_registration.
  pose proof (guarded_driver_only_store (findOne_players_record ip)
                ("Failed to get ping record for " ++ ip)%string w) as F1.
  fold (getRecord ip) in F1.
  destruct (getRecord ip w) as [[record|e] w1] eqn:E1; cbn [snd] in F1;
    destruct F1 as (A1 & A2 & A3 & _).
  2:{ rewrite (bind_Throw _ _ _ _ _ E1). cbn [fst snd].
      unfold only_registration. rewrite A1, A2, A3. repeat split. }
  rewrite (bind_Ok _ _ _ _ _ E1).
  destruct record as [record|].
  - rewrite bind_modify, loadRecords_count. cbn [fst snd].
    match goal with |- only_registration _ _ (if _ then _ else ?v) /\ _ =>
      destruct (assigned_counted i c
                  (mkRecordData (record_playerCount record)
                     (toSeconds (record_timestamp record))) w v)
        as (H1 & H2 & H3)
    end; cbn [serverRegistrations fired connected set_serverRegistrations];
      try congruence.
    repeat split; auto; apply H1.
  - pose proof (guarded_driver_only_store (findOne_pings_sorted ip)
                  ("Failed to get legacy ping record for " ++ ip)%string w1)
      as F2.
    fold (getRecordLegacy ip) in F2.
    destruct (getRecordLegacy ip w1) as [[legacy|e] w2] eqn:E2;
      cbn [snd] in F2; destruct F2 as (G1 & G2 & G3 & _).
    2:{ rewrite (bind_Throw _ _ _ _ _ (bind_Throw _ _ _ _ _ E2)).
        cbn [fst snd]. unfold only_registration.
        rewrite G1, G2, G3, A1, A2, A3. repeat split. }
    set (newTimestamp := match legacy with
                         | Some l => Some (ping_timestamp l) | None => None
                         end).
    set (newPlayerCount := match legacy with
                           | Some l => ping_playerCount l | None => None
                           end).
    set (w3 := set_serverRegistrations
                 (update_nth i
                    (set_recordData
                       (mkRecordData newPlayerCount (toSeconds newTimestamp)))
                    (serverRegistrations w2)) w2).
    pose proof (guarded_driver_only_store
                  (insertOne_players_record
                     (mkPlayersRecord newTimestamp ip newPlayerCount))
                  ("Failed to insert player count record of " ++ ip
                   ++ " at " ++ string_of_number newTimestamp)%string w3)
      as F3.
    fold (insertRecord ip newPlayerCount newTimestamp) in F3.
    destruct (insertRecord ip newPlayerCount newTimestamp w3)
      as [[[]|e] w4] eqn:E3; cbn [snd] in F3;
      destruct F3 as (C1 & C2 & C3 & _).
    + assert (E : (legacyRecord <- getRecordLegacy ip ;;
                   modify
                     (fun w : World =>
                        set_serverRegistrations
                          (update_nth i
                             (set_recordData
                                (mkRecordData
                                   match legacyRecord with
                                   | Some l => ping_playerCount l
                                   | None => None
                                   end
                                   (toSeconds
                                      match legacyRecord with
                                      | Some l => Some (ping_timestamp l)
                                      | None => None
                                      end)))
                             (serverRegistrations w)) w) ;;
                   insertRecord ip
                     match legacyRecord with
                     | Some l => ping_playerCount l
                     | None => None
                     end
                     match legacyRecord with
                     | Some l => Some (ping_timestamp l)
                     | None => None
                     end) w1 = (Ok tt, w4)).
      { rewrite (bind_Ok _ _ _ _ _ E2), bind_modify. exact E3. }
      rewrite (bind_Ok _ _ _ _ _ E), loadRecords_count. cbn [fst snd].
      destruct (assigned_counted i c
                  (mkRecordData newPlayerCount (toSeconds newTimestamp)) w w4)
        as (H1 & H2 & H3).
      * rewrite C1. unfold w3. cbn [serverRegistrations set_serverRegistrations].
        congruence.
      * rewrite C2. unfold w3. cbn [fired set_serverRegistrations]. congruence.
      * rewrite C3. unfold w3. cbn [connected set_serverRegistrations].
        congruence.
      * repeat split; auto; apply H1.
    + assert (E : (legacyRecord <- getRecordLegacy ip ;;
                   modify
                     (fun w : World =>
                        set_serverRegistrations
                          (update_nth i
                             (set_recordData
                                (mkRecordData
                                   match legacyRecord with
                                   | Some l => ping_playerCount l
                                   | None => None
                                   end
                                   (toSeconds
                                      match legacyRecord with
                                      | Some l => Some (ping_timestamp l)
                                      | None => None
                                      end)))
                             (serverRegistrations w)) w) ;;
                   insertRecord ip
                     match legacyRecord with
                     | Some l => ping_playerCount l
                     | None => None
                     end
                     match legacyRecord with
                     | Some l => Some (ping_timestamp l)
                     | None => None
                     end) w1 = (Throw e, w4)).
      { rewrite (bind_Ok _ _ _ _ _ E2), bind_modify. exact E3. }
      rewrite (bind_Throw _ _ _ _ _ E). cbn [fst snd].
      unfold only_registration. rewrite C1, C2, C3. unfold w3.
      cbn [serverRegistrations fired connected set_serverRegistrations].
      rewrite update_nth_length, G1, G2, G3, A1, A2, A3. repeat split.
      intros j Hj. now apply update_nth_other.
Qed.

(** What one turn leaves alone, whether it returns or throws; the callback
    is called exactly when the turn returns with the counter at the number
    of registrations. *)
Lemma loadRecords_turn_spec (i : nat) (ip : string) (c : nat) (w : World) :
  let r := fst (loadRecords_turn toSeconds i ip c w) in
  let w' := snd (loadRecords_turn toSeconds i ip c w) in
  only_registration i w w'
  /\ match r with
     | Ok c' =>
       c' = S c
       /\ fired w'
          = fired w
            ++ (if Nat.eqb (S c) (List.length (serverRegistrations w))
                then [LoadRecordsCallback] else [])
       /\ option_map assigned (nth_error (serverRegistrations w') i)
          = option_map (fun _ => true) (nth_error (serverRegistrations w) i)
     | Throw _ => fired w' = fired w
     end.
Proof.
  unfold loadRecords_turn, modify_registration. rewrite bind_modify.
  set (w0 := set_serverRegistrations _ w).
  assert (B1 : List.length (serverRegistrations w0)
               = List.length (serverRegistrations w))
    by (unfold w0; simpl; apply update_nth_length).
  assert (B2 : forall j, j <> i ->
                 nth_error (serverRegistrations w0) j
                 = nth_error (serverRegistrations w) j)
    by (intros j Hj; unfold w0; simpl; now apply update_nth_other).
  assert (B3 : option_map (fun _ => true) (nth_error (serverRegistrations w0) i)
               = option_map (fun _ => true)
                   (nth_error (serverRegistrations w) i)).
  { unfold w0; simpl. rewrite update_nth_same.
    destruct (nth_error (serverRegistrations w) i); reflexivity. }
  assert (B4 : fired w0 = fired w) by reflexivity.
  assert (B5 : connected w0 = connected w) by reflexivity.
  clearbody w0.
  pose proof (loadRecords_try_spec i ip c w0) as H. cbv zeta in H.
  unfold try_catch.
  destruct (loadRecords_try toSeconds i ip c w0) as [[c'|e] w1];
    cbn [fst snd] in H |- *; destruct H as ((L1 & L2 & L3) & H).
  - destruct H as (-> & F & As). unfold only_registration.
    rewrite L1, L3, F, As, B1, B3, B4, B5. repeat split.
    intros j Hj. rewrite L2 by exact Hj. now apply B2.
  - unfold only_registration; simpl. rewrite L1, L3, H, B1, B4, B5.
    repeat split. intros j Hj. rewrite L2 by exact Hj. now apply B2.
Qed.

(** ** The whole loop *)

Lemma loadRecords_loop_spec (ips : list string) : forall (i c : nat) (w : World),
  let r := fst (loadRecords_loop toSeconds i ips c w) in
  let w' := snd (loadRecords_loop toSeconds i ips c w) in
  List.length (serverRegistrations w') = List.length (serverRegistrations w)
  /\ (forall j, (j < i \/ i + List.length ips <= j)%nat ->
        nth_error (serverRegistrations w') j
        = nth_error (serverRegistrations w) j)
  /\ connected w' = connected w
  /\ (r = Ok tt ->
      forall j, (i <= j < i + List.length ips)%nat ->
                (j < List.length (serverRegistrations w))%nat ->
        option_map assigned (nth_error (serverRegistrations w') j)
        = Some true)
  /\ ((c + List.length ips = List.length (serverRegistrations w))%nat ->
      fired w'
      = fired w ++ match r, ips with
                   | Ok _, _ :: _ => [LoadRecordsCallback]
                   | _, _ => []
                   end).
Proof.
  induction ips as [|ip ips IH]; intros i c w.
  - simpl. repeat split; auto.
    + intros _ j Hj. lia.
    + intros _. now rewrite app_nil_r.
  - cbn [loadRecords_loop].
    pose proof (loadRecords_turn_spec i ip c w) as T. cbv zeta in T.
    destruct (loadRecords_turn toSeconds i ip c w) as [[c'|e] w1] eqn:E;
      cbn [fst snd] in T; destruct T as ((L1 & L2 & L3) & T).
    + destruct T as (-> & F & As).
      rewrite (bind_Ok _ _ _ _ _ E).
      specialize (IH (S i) (S c) w1). cbv zeta in IH.
      destruct IH as (I1 & I2 & I3 & I4 & I5).
      cbn [List.length]. repeat split.
      * congruence.
      * intros j Hj. rewrite I2 by lia. apply L2. lia.
      * congruence.
      * intros Hr j Hj Hlt.
        destruct (Nat.eq_dec j i) as [->|Hne].
        -- rewrite I2 by lia. rewrite As.
           destruct (nth_error (serverRegistrations w) i) eqn:En;
             [reflexivity|]. apply nth_error_None in En. lia.
        -- apply I4; [exact Hr|lia|lia].
      * intros Hc. rewrite I5 by lia. rewrite F.
        destruct (Nat.eqb_spec (S c) (List.length (serverRegistrations w)))
          as [Heq|Hneq].
        -- destruct ips as [|ip' ips']; [|simpl in Hc; lia].
           simpl. now rewrite app_nil_r.
        -- destruct ips as [|ip' ips']; [simpl in Hc; lia|].
           rewrite app_nil_r. reflexivity.
    + rewrite (bind_Throw _ _ _ _ _ E). cbn [fst snd List.length].
      repeat split; auto.
      * intros j Hj. apply L2. lia.
      * discriminate.
      * intros _. now rewrite app_nil_r.
Qed.

Lemma loadRecords_loop_app (pre post : list string) :
  forall (i c : nat) (w : World),
  loadRecords_loop toSeconds i (pre ++ post) c w
  = match loadRecords_loop toSeconds i pre c w with
    | (Ok _, w1) =>
      loadRecords_loop toSeconds (i + List.length pre) post
        (c + List.length pre) w1
    | (Throw e, w1) => (Throw e, w1)
    end.
Proof.
  induction pre as [|ip pre IH]; intros i c w.
  - simpl. now rewrite !Nat.add_0_r.
  - cbn [loadRecords_loop app List.length].
    pose proof (loadRecords_turn_spec i ip c w) as T. cbv zeta in T.
    destruct (loadRecords_turn toSeconds i ip c w) as [[c'|e] w1] eqn:E;
      cbn [fst snd] in T; destruct T as (_ & T).
    + destruct T as (-> & _). rewrite !(bind_Ok _ _ _ _ _ E), IH.
      now rewrite !Nat.add_succ_r.
    + now rewrite !(bind_Throw _ _ _ _ _ E).
Qed.

(** A failing read makes the turn throw the error of the read. *)
Lemma loadRecords_turn_getRecord_fails (i : nat) (ip : string) (c : nat)
  (w : World) (e : Exn) (rest : list (option Exn)) :
  connected w = true -> faults w = Some e :: rest ->
  fst (loadRecords_turn toSeconds i ip c w) = Throw e.
Proof.
  intros Hc Hf. unfold loadRecords_turn, modify_registration.
  rewrite bind_modify. unfold try_catch, loadRecords_try.
  erewrite bind_Throw; [reflexivity|].
  rewrite (getRecord_fault ip _ e rest); [reflexivity|exact Hc|exact Hf].
Qed.

Lemma loadRecords_turn_getRecordLegacy_fails (i : nat) (ip : string)
  (c : nat) (w : World) (e : Exn) (rest : list (option Exn)) :
  connected w = true -> faults w = None :: Some e :: rest ->
  find (fun r => String.eqb (record_ip r) ip) (players_record (server w))
  = None ->
  fst (loadRecords_turn toSeconds i ip c w) = Throw e.
Proof.
  intros Hc Hf Hnone. unfold loadRecords_turn, modify_registration.
  rewrite bind_modify. unfold try_catch, loadRecords_try.
  set (w0 := set_serverRegistrations _ w).
  assert (E1 : getRecord ip w0 = (Ok None, set_faults (Some e :: rest) w0)).
  { unfold getRecord, try_catch.
    rewrite driver_ok by (unfold w0; simpl; rewrite ?Hf; auto).
    unfold w0; simpl. rewrite Hf, Hnone. simpl.
    destruct w as [[? ? ? ?] ? ? ? ? ? ? ? ? ?]; reflexivity. }
  rewrite (bind_Ok _ _ _ _ _ E1).
  erewrite bind_Throw; [reflexivity|].
  erewrite bind_Throw; [reflexivity|].
  unfold getRecordLegacy, try_catch.
  rewrite (driver_fault _ _ e rest); [reflexivity|exact Hc|reflexivity].
Qed.

(** The turn for a service without a record, when the server answers
    every call: the legacy values, or [null] twice, are shown and
    inserted. *)
Lemma loadRecords_turn_absent (i : nat) (ip : string) (c : nat) (w : World) :
  connected w = true -> faults w = [] ->
  find (fun r => String.eqb (record_ip r) ip) (players_record (server w))
  = None ->
  let legacy := fst (findOne_pings_sorted ip (server w)) in
  let newTimestamp := option_map ping_timestamp legacy in
  let newPlayerCount :=
    match legacy with Some l => ping_playerCount l | None => None end in
  exists w',
    loadRecords_turn toSeconds i ip c w = (Ok (S c), w')
    /\ players_record (server w')
       = players_record (server w)
         ++ [mkPlayersRecord newTimestamp ip newPlayerCount]
    /\ pings (server w') = pings (server w)
    /\ serverRegistrations w'
       = update_nth i
           (set_recordData
              (mkRecordData newPlayerCount (toSeconds newTimestamp)))
           (update_nth i findNewGraphPeak (serverRegistrations w))
    /\ connected w' = true /\ faults w' = [].
Proof.
  intros Hc Hf Hnone legacy newTimestamp newPlayerCount.
  unfold loadRecords_turn, modify_registration.
  rewrite bind_modify. unfold try_catch, loadRecords_try.
  set (w0 := set_serverRegistrations _ w).
  rewrite (bind_Ok _ _ _ _ _ (getRecord_ok ip w0 Hc Hf)).
  change (server w0) with (server w). rewrite Hnone. cbv beta iota.
  set (w3 := set_serverRegistrations
               (update_nth i
                  (set_recordData
                     (mkRecordData newPlayerCount (toSeconds newTimestamp)))
                  (serverRegistrations w0)) w0).
  assert (Hts : match legacy with
                | Some l => Some (ping_timestamp l) | None => None
                end = newTimestamp)
    by (unfold newTimestamp; now destruct legacy).
  erewrite bind_Ok.
  2:{ rewrite (bind_Ok _ _ _ _ _ (getRecordLegacy_ok ip w0 Hc Hf)).
      change (server w0) with (server w). fold legacy.
      unfold modify_registration. rewrite bind_modify.
      fold newPlayerCount. rewrite Hts. fold w3.
      apply (insertRecord_ok ip newPlayerCount newTimestamp w3 Hc Hf). }
  unfold bind, get.
  destruct (Nat.eqb _ _); eexists; (split; [reflexivity|]);
    cbn; repeat split; auto.
Qed.

(** The turn for a service with a record. *)
Lemma loadRecords_turn_present (i : nat) (ip : string) (c : nat) (w : World)
  (record : PlayersRecord) :
  connected w = true -> faults w = [] ->
  find (fun r => String.eqb (record_ip r) ip) (players_record (server w))
  = Some record ->
  exists w',
    loadRecords_turn toSeconds i ip c w = (Ok (S c), w')
    /\ server w' = server w
    /\ serverRegistrations w'
       = update_nth i
           (set_recordData
              (mkRecordData (record_playerCount record)
                 (toSeconds (record_timestamp record))))
           (update_nth i findNewGraphPeak (serverRegistrations w))
    /\ connected w' = true /\ faults w' = [].
Proof.
  intros Hc Hf Hsome.
  unfold loadRecords_turn, modify_registration.
  rewrite bind_modify. unfold try_catch, loadRecords_try.
  set (w0 := set_serverRegistrations _ w).
  rewrite (bind_Ok _ _ _ _ _ (getRecord_ok ip w0 Hc Hf)).
  change (server w0) with (server w). rewrite Hsome. cbv beta iota.
  unfold modify_registration. rewrite bind_modify.
  unfold bind, get.
  destruct (Nat.eqb _ _); eexists; (split; [reflexivity|]);
    cbn; repeat split; auto.
Qed.

(** When the loop returns, the callback has been called once, after the
    last registration was assigned; when it throws, or when there is
    nothing to visit, the callback has not been called. *)
Lemma loadRecords_signals_completion (w : World) :
  let r := fst (loadRecords toSeconds w) in
  let w' := snd (loadRecords toSeconds w) in
  fired w'
  = fired w ++ match r, serverRegistrations w with
               | Ok _, _ :: _ => [LoadRecordsCallback]
               | _, _ => []
               end
  /\ (r = Ok tt ->
      forall j, (j < List.length (serverRegistrations w))%nat ->
        option_map assigned (nth_error (serverRegistrations w') j)
        = Some true).
Proof.
  unfold loadRecords.
  pose proof (loadRecords_loop_spec (map data_ip (serverRegistrations w))
                0 0 w) as H. cbv zeta in H |- *.
  destruct H as (_ & _ & _ & H4 & H5). rewrite length_map in *.
  split.
  - rewrite H5 by reflexivity.
    destruct (serverRegistrations w); reflexivity.
  - intros Hr j Hj. apply H4; [exact Hr|lia|exact Hj].
Qed.

End Turn.

(** ** Retention pruning and schema *)

Lemma deleteOldPings_ok (w : World) :
  connected w = true -> faults w = [] ->
  deleteOldPings w
  = (Ok tt,
     set_server
       (snd (deleteMany_pings_before (clock w - graphDuration (config w))
               (server w))) w).
Proof.
  intros Hc Hf. unfold deleteOldPings, getEpochMillis, get, bind, try_catch.
  rewrite driver_ok by (rewrite ?Hf; auto). rewrite Hf. simpl.
  now rewrite set_faults_nil by assumption.
Qed.

Lemma initOldPingsDelete_ok (w : World) :
  connected w = true -> faults w = [] ->
  exists w',
    initOldPingsDelete w = (Ok tt, w')
    /\ intervals w'
       = intervals w
         ++ (let i := or_default (oldPingsCleanup_interval (config w)) 3600000
             in if 0 <? i then [i] else [])
    /\ fired w' = fired w ++ [InitOldPingsDeleteCallback].
Proof.
  intros Hc Hf. unfold initOldPingsDelete, logger_info.
  rewrite bind_modify.
  set (w0 := set_log _ w).
  rewrite (bind_Ok _ _ _ _ _ (deleteOldPings_ok w0 Hc Hf)).
  unfold bind at 1. unfold get. cbn [config set_server].
  change (config w0) with (config w).
  destruct (0 <? or_default (oldPingsCleanup_interval (config w)) 3600000);
    eexists; (split; [reflexivity|]); cbn; split; auto.
  now rewrite app_nil_r.
Qed.


End MongoFacts.

(* ================================================================== *)
(** * Properties of the MySQL back end *)
(* ================================================================== *)

Module MySQLFacts.
Import Js JsFacts MySQL.


Lemma serve_ok (st : Statement) (w : World) :
  faults w = [] ->
  serve st w
  = (Ok (fst (execute st (server w))),
     set_server (snd (execute st (server w))) w).
Proof.
  intros Hf. unfold serve. rewrite Hf.
  now destruct (execute st (server w)).
Qed.

Section Loop.

Variable toSeconds : option Z -> option Z.

(** ** The completion callback of [loadRecords] *)

(** No callback of a statement calls the completion callback of
    [loadRecords]. *)
Lemma handle_fired (h : Handler) (res : Exn + Data) (w : World) :
  exists l,
    fired (snd (handle toSeconds h res w)) = fired w ++ l
    /\ ~ In LoadRecordsCallback l.
Proof.
  assert (Hnil : exists l, fired w = fired w ++ l /\ ~ In LoadRecordsCallback l)
    by (exists []; split; [now rewrite app_nil_r|intros []]).
  assert (Hone : forall c, c <> LoadRecordsCallback ->
            exists l, fired w ++ [c] = fired w ++ l
                      /\ ~ In LoadRecordsCallback l).
  { intros c Hc. exists [c]. split; [reflexivity|].
    intros [H|[]]. now apply Hc. }
  destruct h; destruct res as [e|d]; cbn;
    repeat match goal with
           | |- context [loadGraphPoints_pings] =>
             unfold loadGraphPoints_pings; cbn
           | |- context [call_GetRecentPingsCallback ?k] =>
             is_var k; destruct k; cbn
           | |- context [call_GetRecordCallback _ ?k] =>
             is_var k; destruct k; cbn
           | |- context [call_GetRecordLegacyCallback _ ?k] =>
             is_var k; destruct k; cbn
           | |- context [match ?x with _ => _ end] => destruct x; cbn
           | |- context [if ?x then _ else _] => destruct x; cbn
           end;
    try exact Hnil; try (apply Hone; discriminate).
Qed.

Lemma turn_fired (w : World) :
  exists l,
    fired (snd (turn toSeconds w)) = fired w ++ l
    /\ ~ In LoadRecordsCallback l.
Proof.
  unfold turn, bind, get.
  destruct (queue w) as [|t rest].
  - exists []. split; [now rewrite app_nil_r|intros []].
  - cbn [modify].
    set (w1 := set_queue rest w).
    assert (Hs : exists res w2, serve (statement t) w1 = (Ok res, w2)
                                /\ fired w2 = fired w).
    { unfold serve. destruct (faults w1) as [|[e|] f];
        try destruct (execute (statement t) (server w1));
        do 2 eexists; split; reflexivity. }
    destruct Hs as (res & w2 & -> & Hfw).
    rewrite <- Hfw. apply handle_fired.
Qed.

Lemma turns_fired (n : nat) : forall w : World,
  exists l,
    fired (snd (turns toSeconds n w)) = fired w ++ l
    /\ ~ In LoadRecordsCallback l.
Proof.
  induction n as [|n IH]; intros w.
  - exists []. split; [now rewrite app_nil_r|intros []].
  - cbn [turns]. unfold bind at 1. unfold get.
    destruct (queue w) as [|t rest] eqn:Eq.
    + exists []. split; [now rewrite app_nil_r|intros []].
    + destruct (turn_fired w) as (l1 & H1 & N1). unfold bind.
      destruct (turn toSeconds w) as [[[]|e] w1]; cbn [snd] in H1 |- *.
      * destruct (IH w1) as (l2 & H2 & N2).
        exists (l1 ++ l2). rewrite H2, H1, app_assoc. split; [reflexivity|].
        intros Hin. apply in_app_or in Hin. tauto.
      * exists l1. auto.
Qed.

Lemma loadRecords_forEach_fired (ips : list string) : forall (i : nat) (w : World),
  fst (loadRecords_forEach i ips w) = Ok tt
  /\ fired (snd (loadRecords_forEach i ips w)) = fired w.
Proof.
  induction ips as [|ip ips IH]; intros i w; [split; reflexivity|].
  cbn [loadRecords_forEach]. unfold loadRecords_each, modify_registration,
    getRecord, query, bind, modify. cbv beta iota.
  match goal with |- context [loadRecords_forEach (S i) ips ?v] =>
    destruct (IH (S i) v) as [H1 H2];
    destruct (loadRecords_forEach (S i) ips v) as [r w']
  end.
  cbn [fst snd] in *. split; [exact H1|]. rewrite H2. reflexivity.
Qed.

(** ** Single methods, answered by the server *)


Lemma loadGraphPoints_answered (graphDuration : Z) (w : World)
  (rows : list Ping) (g : list (string * (list Z * list (option Z)))) :
  queue w = [] -> faults w = [] -> pings (server w) = Some rows ->
  let startTime := clock w - graphDuration in
  let pingData := filter (between startTime (clock w)) rows in
  group_rows ArrayObject pingData [] = inr g ->
  exists w',
    (loadGraphPoints graphDuration ;; turns toSeconds 1) w = (Ok tt, w')
    /\ serverRegistrations w'
       = deliver_all startTime (object_keys g) (serverRegistrations w)
    /\ fired w' = fired w ++ [LoadGraphPointsCallback]
    /\ queue w' = [] /\ server w' = server w
    /\ timeTracker w'
       = match object_keys g with
         | (_, (timestamps, _)) :: _ => Some (startTime, timestamps)
         | [] => timeTracker w
         end.
Proof.
  intros Hq Hf Hp startTime pingData Hg.
  destruct w as [d f q lg regs tt0 ck cfg iv fr rp].
  cbn in Hq, Hf, Hp, startTime, pingData. subst q f.
  unfold loadGraphPoints, getRecentPings, query, getEpochMillis.
  unfold bind at 1. unfold bind at 1. cbn.
  unfold turn, bind, get, serve. cbn. rewrite Hp. cbn.
  unfold loadGraphPoints_pings.
  fold startTime. fold pingData. rewrite Hg.
  destruct (object_keys g) as [|[serverIp [timestamps values]] rest];
    cbn; eexists; (split; [reflexivity|]); cbn; repeat split.
Qed.


(** The callback of the [INSERT IGNORE] swallows [ER_DUP_ENTRY] and nothing
    else. *)
Lemma OnInsertRecord_spec (res : Exn + Data) (w : World) :
  handle toSeconds OnInsertRecord res w
  = match res with
    | inl e =>
      if is_dup_entry e then (Ok tt, w)
      else (Throw e,
            set_log (log w ++ [mkLog LevelError
                                 "Error inserting player count record"]) w)
    | inr _ => (Ok tt, w)
    end.
Proof.
  destruct res as [e|d]; cbn; [|reflexivity].
  destruct (is_dup_entry e); reflexivity.
Qed.

Lemma deleteOldPings_throws (k : option DeleteOldPingsCallback) (w : World) :
  deleteOldPings k w = (Throw TypeError, w).
Proof. reflexivity. Qed.

Lemma initOldPingsDelete_throws (w : World) :
  initOldPingsDelete w
  = (Throw TypeError,
     set_log (log w ++ [mkLog LevelInfo "Deleting old pings.."]) w).
Proof. reflexivity. Qed.

(** ** The record refresh *)

Lemma turns_step (n : nat) (w : World) :
  queue w <> [] ->
  turns toSeconds (S n) w = (turn toSeconds ;; turns toSeconds n) w.
Proof.
  intros Hq. cbn [turns]. unfold bind at 1. unfold get.
  destruct (queue w); [congruence|reflexivity].
Qed.

Lemma turn_answered (w : World) (t : Task) (rest : list Task) :
  queue w = t :: rest -> faults w = [] ->
  turn toSeconds w
  = handle toSeconds (handler t) (fst (execute (statement t) (server w)))
      (set_server (snd (execute (statement t) (server w)))
         (set_queue rest w)).
Proof.
  intros Hq Hf. unfold turn. unfold bind at 1. unfold get. rewrite Hq.
  rewrite bind_modify.
  rewrite (bind_Ok _ _ _ _ _ (serve_ok (statement t) (set_queue rest w) Hf)).
  reflexivity.
Qed.

(** The callback of the legacy query, called without a legacy record:
    [null] twice is shown and an insert of [null] twice is queued. *)
Lemma loadRecords_legacy_absent (i : nat) (ip : string)
  (playerCount timestamp : option Z) (w : World) :
  loadRecords_legacy toSeconds i ip false playerCount timestamp w
  = (Ok tt,
     set_queue
       (queue w ++ [mkTask (InsertIgnoreRecord None ip None) OnInsertRecord])
       (set_serverRegistrations
          (update_nth i
             (set_recordData (mkRecordData None (toSeconds None)))
             (serverRegistrations w)) w)).
Proof. reflexivity. Qed.

Lemma loadRecords_legacy_found (i : nat) (ip : string)
  (playerCount timestamp : option Z) (w : World) :
  loadRecords_legacy toSeconds i ip true playerCount timestamp w
  = (Ok tt,
     set_queue
       (queue w
        ++ [mkTask (InsertIgnoreRecord timestamp ip playerCount)
              OnInsertRecord])
       (set_serverRegistrations
          (update_nth i
             (set_recordData (mkRecordData playerCount (toSeconds timestamp)))
             (serverRegistrations w)) w)).
Proof. reflexivity. Qed.

(** ** The refresh of any number of services *)

Lemma turns_empty (n : nat) (w : World) :
  queue w = [] -> turns toSeconds n w = (Ok tt, w).
Proof.
  intros Hq. destruct n; [reflexivity|].
  cbn [turns]. unfold bind, get. now rewrite Hq.
Qed.

Lemma turns_add (n m : nat) : forall w : World,
  turns toSeconds (n + m) w
  = match turns toSeconds n w with
    | (Ok _, w1) => turns toSeconds m w1
    | (Throw e, w1) => (Throw e, w1)
    end.
Proof.
  induction n as [|n IH]; intros w; [reflexivity|].
  cbn [Nat.add turns]. unfold bind at 1 3. unfold get.
  destruct (queue w) as [|t rest] eqn:Eq.
  - unfold ret. now rewrite turns_empty.
  - unfold bind.
    destruct (turn toSeconds w) as [[[]|e] w1]; [apply IH|reflexivity].
Qed.

Lemma with_state_faults q regs d w : faults (with_state q regs d w) = faults w.
Proof. reflexivity. Qed.

Lemma with_state_again q regs d q' regs' d' w :
  with_state q' regs' d' (with_state q regs d w) = with_state q' regs' d' w.
Proof. reflexivity. Qed.

Section Refresh.

Variable rows : list Ping.
Variable recs : list PlayersRecord.
Variables ih ii ti : bool.

Let db (cur : list PlayersRecord) : Db := mkDb (Some rows) ih ii ti (Some cur).

Lemma turn_record_present (i : nat) (ip : string) (q : list Task)
  (regs : list ServerRegistration) (w : World)
  (playerCount timestamp : option Z) (more : list (option Z * option Z)) :
  faults w = [] ->
  lookup recs ip = (playerCount, timestamp) :: more ->
  turn toSeconds (with_state (record_task (i, ip) :: q) regs (db recs) w)
  = (Ok tt,
     with_state q
       (update_nth i
          (set_recordData (mkRecordData playerCount (toSeconds timestamp)))
          regs) (db recs) w).
Proof.
  intros Hf Hl. erewrite turn_answered by (reflexivity || exact Hf).
  cbn. fold (lookup recs ip). rewrite Hl. reflexivity.
Qed.

Lemma turn_record_absent (i : nat) (ip : string) (q : list Task)
  (regs : list ServerRegistration) (w : World) :
  faults w = [] ->
  lookup recs ip = [] ->
  turn toSeconds (with_state (record_task (i, ip) :: q) regs (db recs) w)
  = (Ok tt, with_state (q ++ [legacy_task (i, ip)]) regs (db recs) w).
Proof.
  intros Hf Hl. erewrite turn_answered by (reflexivity || exact Hf).
  cbn. fold (lookup recs ip). rewrite Hl. reflexivity.
Qed.

Lemma turn_legacy (i : nat) (ip : string) (q : list Task)
  (regs : list ServerRegistration) (cur : list PlayersRecord) (w : World) :
  faults w = [] ->
  turn toSeconds (with_state (legacy_task (i, ip) :: q) regs (db cur) w)
  = (Ok tt,
     with_state
       (q ++ [insert_task (legacy_timestamp rows) (legacy_playerCount rows)
                (i, ip)])
       (update_nth i
          (set_recordData
             (mkRecordData (legacy_playerCount rows)
                (toSeconds (legacy_timestamp rows))))
          regs) (db cur) w).
Proof.
  intros Hf. erewrite turn_answered by (reflexivity || exact Hf).
  unfold legacy_timestamp, legacy_playerCount. cbn -[select_legacy].
  destruct (select_legacy rows) as [|[m t] rest]; reflexivity.
Qed.

Lemma turn_insert (timestamp playerCount : option Z) (i : nat) (ip : string)
  (q : list Task) (regs : list ServerRegistration)
  (cur : list PlayersRecord) (w : World) :
  faults w = [] ->
  turn toSeconds
    (with_state (insert_task timestamp playerCount (i, ip) :: q) regs
       (db cur) w)
  = (Ok tt,
     with_state q regs (db (insert_ignore timestamp playerCount cur ip)) w).
Proof.
  intros Hf. erewrite turn_answered by (reflexivity || exact Hf).
  unfold insert_ignore. cbn. destruct (has_ip ip cur); reflexivity.
Qed.


Lemma update_nth_id {A} (l : list A) : forall i, update_nth i (fun x => x) l = l.
Proof.
  induction l as [|x l IH]; intros [|i]; simpl; auto. now rewrite IH.
Qed.

Lemma loadRecords_forEach_queued (ips : list string) :
  forall (i : nat) (q : list Task) (regs : list ServerRegistration)
         (d : Db) (w : World),
  loadRecords_forEach i ips (with_state q regs d w)
  = (Ok tt,
     with_state (q ++ map record_task (positions i ips))
       (apply_at (fun _ => findNewGraphPeak) (positions i ips) regs) d w).
Proof.
  induction ips as [|ip ips IH]; intros i q regs d w.
  - cbn. now rewrite app_nil_r.
  - cbn [loadRecords_forEach]. unfold loadRecords_each, modify_registration,
      getRecord, query. unfold bind at 1. unfold bind at 1. unfold modify.
    change (loadRecords_forEach (S i) ips
              (with_state (q ++ [record_task (i, ip)])
                 (update_nth i findNewGraphPeak regs) d w)
            = (Ok tt,
               with_state (q ++ map record_task (positions i (ip :: ips)))
                 (apply_at (fun _ => findNewGraphPeak) (positions i (ip :: ips))
                    regs) d w)).
    rewrite IH. unfold positions. cbn [List.length seq combine map].
    now rewrite <- app_assoc.
Qed.

Lemma phase_records (items : list (nat * string)) :
  forall (q : list Task) (regs : list ServerRegistration) (w : World),
  faults w = [] ->
  turns toSeconds (List.length items)
    (with_state (map record_task items ++ q) regs (db recs) w)
  = (Ok tt,
     with_state (q ++ map legacy_task (filter (absent recs) items))
       (apply_at (record_shown toSeconds recs) items regs) (db recs) w).
Proof.
  induction items as [|[i ip] items IH]; intros q regs w Hf.
  - cbn. now rewrite app_nil_r.
  - cbn [List.length map app]. rewrite turns_step by discriminate.
    unfold absent, record_shown, apply_at. cbn [filter fold_left fst snd].
    destruct (lookup recs ip) as [|[playerCount timestamp] more] eqn:El.
    + rewrite (bind_Ok _ _ _ _ _
                 (turn_record_absent i ip _ regs w Hf El)).
      rewrite <- app_assoc, (IH _ regs w Hf), update_nth_id.
      cbn [map]. now rewrite <- app_assoc.
    + rewrite (bind_Ok _ _ _ _ _
                 (turn_record_present i ip _ regs w playerCount timestamp more
                    Hf El)).
      now rewrite (IH _ _ w Hf).
Qed.

Lemma phase_legacy (items : list (nat * string)) :
  forall (q : list Task) (regs : list ServerRegistration)
         (cur : list PlayersRecord) (w : World),
  faults w = [] ->
  turns toSeconds (List.length items)
    (with_state (map legacy_task items ++ q) regs (db cur) w)
  = (Ok tt,
     with_state
       (q ++ map (insert_task (legacy_timestamp rows) (legacy_playerCount rows))
               items)
       (apply_at (fun _ => legacy_shown toSeconds rows) items regs)
       (db cur) w).
Proof.
  induction items as [|[i ip] items IH]; intros q regs cur w Hf.
  - cbn. now rewrite app_nil_r.
  - cbn [List.length map app]. rewrite turns_step by discriminate.
    rewrite (bind_Ok _ _ _ _ _ (turn_legacy i ip _ regs cur w Hf)).
    rewrite <- app_assoc, (IH _ _ cur w Hf).
    cbn [map]. now rewrite <- app_assoc.
Qed.

Lemma phase_insert (timestamp playerCount : option Z)
  (items : list (nat * string)) :
  forall (q : list Task) (regs : list ServerRegistration)
         (cur : list PlayersRecord) (w : World),
  faults w = [] ->
  turns toSeconds (List.length items)
    (with_state (map (insert_task timestamp playerCount) items ++ q) regs
       (db cur) w)
  = (Ok tt,
     with_state q regs
       (db (fold_left (insert_ignore timestamp playerCount)
              (map snd items) cur)) w).
Proof.
  induction items as [|[i ip] items IH]; intros q regs cur w Hf.
  - reflexivity.
  - cbn [List.length map app]. rewrite turns_step by discriminate.
    rewrite (bind_Ok _ _ _ _ _
               (turn_insert timestamp playerCount i ip _ regs cur w Hf)).
    now rewrite (IH _ regs _ w Hf).
Qed.

(** The whole refresh of the registrations [regs]: three rounds of
    answers, after which nothing is queued. *)
Lemma refresh_answered (regs : list ServerRegistration) (w : World) :
  faults w = [] ->
  let items := positions 0 (map data_ip regs) in
  let missing := filter (absent recs) items in
  (loadRecords ;; turns toSeconds (3 * List.length regs))
    (with_state [] regs (db recs) w)
  = (Ok tt,
     with_state []
       (apply_at (fun _ => legacy_shown toSeconds rows) missing
          (apply_at (record_shown toSeconds recs) items
             (apply_at (fun _ => findNewGraphPeak) items regs)))
       (db (fold_left
              (insert_ignore (legacy_timestamp rows) (legacy_playerCount rows))
              (map snd missing) recs)) w).
Proof.
  intros Hf items missing.
  assert (Hn : List.length items = List.length regs).
  { unfold items, positions. rewrite length_combine, length_seq, length_map.
    apply Nat.min_id. }
  assert (Hm : (List.length missing <= List.length regs)%nat).
  { rewrite <- Hn. apply filter_length_le. }
  unfold loadRecords. unfold bind.
  change (serverRegistrations (with_state [] regs (db recs) w)) with regs.
  rewrite loadRecords_forEach_queued. fold items. cbn [app].
  replace (3 * List.length regs)%nat
    with (List.length items
          + (List.length missing
             + (List.length missing
                + (2 * List.length regs - 2 * List.length missing))))%nat
    by lia.
  rewrite turns_add.
  rewrite <- (app_nil_r (map record_task items)).
  rewrite (phase_records items [] _ w Hf). fold missing. cbn [app].
  rewrite turns_add.
  rewrite <- (app_nil_r (map legacy_task missing)).
  rewrite (phase_legacy missing [] _ recs w Hf). cbn [app].
  rewrite turns_add.
  rewrite <- (app_nil_r (map (insert_task _ _) missing)).
  rewrite (phase_insert _ _ missing [] _ recs w Hf).
  now rewrite turns_empty.
Qed.

(** *** What a single service ends up with *)

Lemma positions_fst_ge (ips : list string) : forall (i : nat) (it : nat * string),
  In it (positions i ips) -> (i <= fst it)%nat.
Proof.
  unfold positions.
  induction ips as [|ip ips IH]; intros i it; cbn; [tauto|].
  intros [<-|H]; [cbn; lia|]. specialize (IH (S i) it H). lia.
Qed.

Lemma positions_NoDup (ips : list string) : forall i : nat,
  NoDup (map fst (positions i ips)).
Proof.
  induction ips as [|ip ips IH]; intros i; [constructor|].
  change (positions i (ip :: ips)) with ((i, ip) :: positions (S i) ips).
  cbn [map fst]. constructor; [|apply IH].
  intros Hin. apply in_map_iff in Hin as (it & Hfst & Hit).
  apply positions_fst_ge in Hit. lia.
Qed.

Lemma find_positions (ips : list string) : forall (i j : nat) (ip : string),
  nth_error ips j = Some ip ->
  find (fun it => Nat.eqb (fst it) (i + j)) (positions i ips)
  = Some ((i + j)%nat, ip).
Proof.
  induction ips as [|ip0 ips IH]; intros i [|j] ip H; try discriminate.
  - injection H as ->. cbn. rewrite Nat.add_0_r, Nat.eqb_refl. reflexivity.
  - change (positions i (ip0 :: ips)) with ((i, ip0) :: positions (S i) ips).
    cbn [find fst].
    destruct (Nat.eqb_spec i (i + S j)) as [E|_]; [lia|].
    rewrite <- Nat.add_succ_comm. apply IH. exact H.
Qed.

Lemma find_position_absent (items : list (nat * string)) (j : nat) :
  ~ In j (map fst items) ->
  find (fun it => Nat.eqb (fst it) j) items = None.
Proof.
  induction items as [|it items IH]; intros H; [reflexivity|].
  cbn [find]. destruct (Nat.eqb_spec (fst it) j) as [E|_].
  - exfalso. apply H. left. exact E.
  - apply IH. intros Hin. apply H. now right.
Qed.

Lemma find_position_filter (p : nat * string -> bool)
  (items : list (nat * string)) (j : nat) (it : nat * string) :
  NoDup (map fst items) ->
  find (fun it => Nat.eqb (fst it) j) items = Some it ->
  find (fun it => Nat.eqb (fst it) j) (filter p items)
  = if p it then Some it else None.
Proof.
  induction items as [|x items IH]; intros Hnd Hfind; [discriminate|].
  cbn [map] in Hnd. apply NoDup_cons_iff in Hnd as [Hx Hnd].
  cbn [find] in Hfind. cbn [filter].
  destruct (Nat.eqb_spec (fst x) j) as [E|Hne].
  - injection Hfind as <-. destruct (p x).
    + cbn [find]. now rewrite E, Nat.eqb_refl.
    + apply find_position_absent. rewrite <- E. intros Hin. apply Hx.
      apply in_map_iff in Hin as (y & Hy & Hin).
      apply filter_In in Hin as [Hin _].
      apply in_map_iff. now exists y.
  - destruct (p x); [cbn [find]|]; try (destruct (Nat.eqb_spec (fst x) j);
      [contradiction|]); now apply IH.
Qed.

Lemma filter_positions_NoDup (p : nat * string -> bool)
  (items : list (nat * string)) :
  NoDup (map fst items) -> NoDup (map fst (filter p items)).
Proof.
  induction items as [|x items IH]; intros Hnd; [constructor|].
  cbn [map] in Hnd. apply NoDup_cons_iff in Hnd as [Hx Hnd]. cbn [filter].
  destruct (p x); [|now apply IH].
  cbn [map]. constructor; [|now apply IH].
  intros Hin. apply Hx. apply in_map_iff in Hin as (y & Hy & Hin).
  apply filter_In in Hin as [Hin _]. apply in_map_iff. now exists y.
Qed.

Lemma apply_at_nth (f : nat * string -> ServerRegistration -> ServerRegistration)
  (items : list (nat * string)) :
  NoDup (map fst items) ->
  forall (regs : list ServerRegistration) (j : nat),
    nth_error (apply_at f items regs) j
    = match find (fun it => Nat.eqb (fst it) j) items with
      | Some it => option_map (f it) (nth_error regs j)
      | None => nth_error regs j
      end.
Proof.
  unfold apply_at.
  induction items as [|x items IH]; intros Hnd regs j; [reflexivity|].
  cbn [map] in Hnd. apply NoDup_cons_iff in Hnd as [Hx Hnd].
  cbn [fold_left find]. rewrite (IH Hnd).
  destruct (Nat.eqb_spec (fst x) j) as [E|Hne].
  - rewrite find_position_absent by (rewrite <- E; exact Hx).
    rewrite <- E. apply update_nth_same.
  - rewrite update_nth_other by congruence. reflexivity.
Qed.

Lemma absent_has_ip (it : nat * string) :
  absent recs it = negb (has_ip (snd it) recs).
Proof.
  unfold absent, lookup, has_ip.
  induction recs as [|r l IH]; [reflexivity|]. cbn [filter existsb].
  destruct (String.eqb (record_ip r) (snd it)); [reflexivity|exact IH].
Qed.

Lemma insert_ignore_keeps (timestamp playerCount : option Z)
  (ips : list string) : forall (cur : list PlayersRecord) (x : PlayersRecord),
  In x cur -> In x (fold_left (insert_ignore timestamp playerCount) ips cur).
Proof.
  induction ips as [|ip ips IH]; intros cur x Hx; [exact Hx|].
  cbn [fold_left]. apply IH. unfold insert_ignore.
  destruct (has_ip ip cur); [exact Hx|apply in_or_app; now left].
Qed.

(** Rows met after the inserts are rows of before, or rows with the
    inserted values. *)
Lemma insert_ignore_rows (timestamp playerCount : option Z)
  (ips : list string) : forall (cur : list PlayersRecord) (x : PlayersRecord),
  In x (fold_left (insert_ignore timestamp playerCount) ips cur) ->
  In x cur \/ x = mkPlayersRecord timestamp (record_ip x) playerCount.
Proof.
  induction ips as [|ip ips IH]; intros cur x Hx; [now left|].
  cbn [fold_left] in Hx. apply IH in Hx as [Hx|Hx]; [|now right].
  unfold insert_ignore in Hx. destruct (has_ip ip cur); [now left|].
  apply in_app_or in Hx as [Hx|[<-|[]]]; [now left|now right].
Qed.

Lemma insert_ignore_has_ip (timestamp playerCount : option Z)
  (ips : list string) (ip : string) : forall cur : list PlayersRecord,
  In ip ips ->
  has_ip ip (fold_left (insert_ignore timestamp playerCount) ips cur) = true.
Proof.
  induction ips as [|ip0 ips IH]; intros cur Hin; [destruct Hin|].
  destruct Hin as [<-|Hin].
  - cbn [fold_left].
    assert (H : has_ip ip0 (insert_ignore timestamp playerCount cur ip0)
                = true).
    { unfold insert_ignore. destruct (has_ip ip0 cur) eqn:E; [exact E|].
      unfold has_ip. rewrite existsb_app. cbn.
      now rewrite String.eqb_refl, orb_true_r. }
    unfold has_ip in *. apply existsb_exists in H as (x & Hx & Hip).
    apply existsb_exists. exists x. split; [|exact Hip].
    now apply insert_ignore_keeps.
  - cbn [fold_left]. now apply IH.
Qed.

Lemma inserted_row (timestamp playerCount : option Z) (ips : list string)
  (ip : string) :
  In ip ips -> has_ip ip recs = false ->
  In (mkPlayersRecord timestamp ip playerCount)
    (fold_left (insert_ignore timestamp playerCount) ips recs).
Proof.
  intros Hin Hno.
  pose proof (insert_ignore_has_ip timestamp playerCount ips ip recs Hin) as H.
  unfold has_ip in H. apply existsb_exists in H as (x & Hx & Hip).
  apply String.eqb_eq in Hip.
  destruct (insert_ignore_rows _ _ _ _ _ Hx) as [Hold|Heq].
  - exfalso. unfold has_ip in Hno.
    assert (Ht : existsb (fun r => String.eqb (record_ip r) ip) recs = true).
    { apply existsb_exists. exists x. split; [exact Hold|].
      now apply String.eqb_eq. }
    congruence.
  - rewrite <- Hip, <- Heq. exact Hx.
Qed.

(** After the refresh the registration at position [j] has had its peak
    scanned and shows its record, or, without a record, the legacy values,
    for which a row has been inserted. *)
Lemma refresh_service (regs : list ServerRegistration) (w : World) (j : nat)
  (r : ServerRegistration) :
  faults w = [] -> nth_error regs j = Some r ->
  exists w',
    (loadRecords ;; turns toSeconds (3 * List.length regs))
      (with_state [] regs (db recs) w) = (Ok tt, w')
    /\ queue w' = [] /\ fired w' = fired w
    /\ pings (server w') = Some rows
    /\ (has_ip (data_ip r) recs = true ->
        nth_error (serverRegistrations w') j
        = Some (record_shown toSeconds recs (j, data_ip r)
                  (findNewGraphPeak r)))
    /\ (has_ip (data_ip r) recs = false ->
        nth_error (serverRegistrations w') j
        = Some (legacy_shown toSeconds rows (findNewGraphPeak r))
        /\ exists cur,
             players_record (server w') = Some cur
             /\ In (mkPlayersRecord (legacy_timestamp rows) (data_ip r)
                      (legacy_playerCount rows)) cur).
Proof.
  intros Hf Hr. eexists. split; [apply (refresh_answered regs w Hf)|].
  set (items := positions 0 (map data_ip regs)).
  set (missing := filter (absent recs) items).
  assert (Hnd : NoDup (map fst items)) by apply positions_NoDup.
  assert (Hfind : find (fun it => Nat.eqb (fst it) j) items
                  = Some (j, data_ip r)).
  { apply (find_positions (map data_ip regs) 0 j).
    rewrite nth_error_map, Hr. reflexivity. }
  assert (Hmid : nth_error
                   (apply_at (record_shown toSeconds recs) items
                      (apply_at (fun _ => findNewGraphPeak) items regs)) j
                 = Some (record_shown toSeconds recs (j, data_ip r)
                           (findNewGraphPeak r))).
  { rewrite !(apply_at_nth _ items Hnd), Hfind, Hr. reflexivity. }
  pose proof (find_position_filter (absent recs) items j _ Hnd Hfind) as Hmiss.
  fold missing in Hmiss. rewrite absent_has_ip in Hmiss. cbn [snd] in Hmiss.
  cbn [queue fired server serverRegistrations with_state set_server set_queue
       set_serverRegistrations pings players_record db].
  split; [reflexivity|]. split; [reflexivity|]. split; [reflexivity|]. split.
  - intros Hhas. rewrite Hhas in Hmiss. cbn [negb] in Hmiss.
    rewrite (apply_at_nth _ missing
               (filter_positions_NoDup _ _ Hnd)), Hmiss.
    exact Hmid.
  - intros Hno. rewrite Hno in Hmiss. cbn [negb] in Hmiss. split.
    + rewrite (apply_at_nth _ missing
                 (filter_positions_NoDup _ _ Hnd)), Hmiss, Hmid.
      cbn [option_map]. f_equal. f_equal.
      unfold record_shown. cbn [snd].
      assert (Ha : absent recs (j, data_ip r) = true)
        by (rewrite absent_has_ip; cbn [snd]; now rewrite Hno).
      unfold absent in Ha. cbn [snd] in Ha.
      now destruct (lookup recs (data_ip r)).
    + eexists. split; [reflexivity|].
      apply inserted_row; [|exact Hno].
      apply find_some in Hmiss as [Hin _].
      apply in_map_iff. now exists (j, data_ip r).
Qed.

End Refresh.

(** ** The schema *)


(** [handleError] logs and throws what it is given. *)
Lemma HandleError_spec (res : Exn + Data) (w : World) :
  handle toSeconds HandleError res w
  = match res with
    | inl e =>
      (Throw e,
       set_log (log w ++ [mkLog LevelError
                            "Cannot create table or table index"]) w)
    | inr _ => (Ok tt, w)
    end.
Proof. destruct res; reflexivity. Qed.

(** Whatever tables, column and indexes are there already, every
    statement of [ensureIndexes] is answered without an exception. *)
Lemma ensureIndexes_answered (w : World) :
  queue w = [] -> faults w = [] ->
  exists w',
    (ensureIndexes ;; turns toSeconds 9) w = (Ok tt, w')
    /\ queue w' = []
    /\ fired w' = fired w ++ [EnsureIndexesCallback; EnsureIndexesCallback]
    /\ pings (server w')
       = Some (match pings (server w) with Some rows => rows | None => [] end)
    /\ players_record (server w')
       = Some (match players_record (server w) with
               | Some rows => rows | None => []
               end)
    /\ ip_hash (server w') = true /\ ip_index (server w') = true
    /\ timestamp_index (server w') = true.
Proof.
  intros Hq Hf.
  destruct w as [[p ih ii ti pr] f q lg regs tt0 ck cfg iv fr rp].
  cbn in Hq, Hf. subst q f.
  destruct p, ih, ii, ti, pr;
    (eexists; split; [vm_compute; reflexivity|]);
    cbn; repeat split;
    change ((fr ++ [EnsureIndexesCallback]) ++ [EnsureIndexesCallback]
            = fr ++ [EnsureIndexesCallback; EnsureIndexesCallback]);
    now rewrite <- app_assoc.
Qed.

End Loop.

End MySQLFacts.

(* ================================================================== *)
(** * The specification against both back ends *)
(* ================================================================== *)

Module Spec.
Import Js Scenario.

(** ** Legacy record *)

(** On the MongoDB back end the legacy record of a service is one of its
    pings, and no ping of the service has a higher [playerCount]. *)
Lemma mongo_getRecordLegacy_maximum (ip : string) (w : Mongo.World) :
  Mongo.connected w = true -> Mongo.faults w = [] ->
  exists result,
    Mongo.getRecordLegacy ip w = (Ok result, w)
    /\ match result with
       | Some r =>
         In r (Mongo.pings (Mongo.server w)) /\ ping_ip r = ip
         /\ forall p, In p (Mongo.pings (Mongo.server w)) -> ping_ip p = ip ->
              count_leb (ping_playerCount p) (ping_playerCount r) = true
       | None =>
         forall p, In p (Mongo.pings (Mongo.server w)) -> ping_ip p <> ip
       end.
Proof.
  intros Hc Hf. eexists. split.
  - apply MongoFacts.getRecordLegacy_ok; assumption.
  - apply MongoFacts.findOne_pings_sorted_spec.
Qed.

(** With the host name written in the statement the MySQL back end
    answers with the first group, not with the maximum. *)
Lemma mysql_getRecordLegacy_first_group :
  MySQL.reported
    (snd (mysql_legacy_of "play.topstrix.net" "play.topstrix.net"
            (mysql [] [] None)))
  = [MySQL.ReportedLegacy true (Some 5) (Some 1000)].
Proof. vm_compute. reflexivity. Qed.

(** C1: after inserting (A, 1000, 5), (A, 2000, 9), (A, 3000, 3) the
    MongoDB back end returns the ping with v = 9, t = 2000 as legacy
    record of A, while the MySQL back end, whose statement names a fixed
    host instead of the service asked for, reports that A has no legacy
    record. *)
Theorem legacy_record_scenario :
  fst (mongo_legacy_of "A" "A" (mongo [] [] None))
  = Ok (Some (mkPing 2000 "A" (Some 9)))
  /\ (exists w',
        mysql_legacy_of "A" "A" (mysql [] [] None) = (Ok tt, w')
        /\ MySQL.queue w' = []
        /\ MySQL.pings (MySQL.server w')
           = Some [mkPing 1000 "A" (Some 5); mkPing 2000 "A" (Some 9);
                   mkPing 3000 "A" (Some 3)]
        /\ MySQL.reported w' = [MySQL.ReportedLegacy false None None]).
Proof.
  split; [vm_compute; reflexivity|].
  eexists. split; [vm_compute; reflexivity|].
  repeat split.
Qed.

(** ** Completion of the record refresh *)

(** On the MongoDB back end a refresh that returns has called the callback
    once, at the end, with every registration assigned; a refresh that
    throws has not called it. *)
Lemma mongo_loadRecords_signals (toSeconds : option Z -> option Z)
  (w : Mongo.World) :
  let r := fst (Mongo.loadRecords toSeconds w) in
  let w' := snd (Mongo.loadRecords toSeconds w) in
  Mongo.fired w'
  = Mongo.fired w ++ match r, Mongo.serverRegistrations w with
                     | Ok _, _ :: _ => [LoadRecordsCallback]
                     | _, _ => []
                     end
  /\ (r = Ok tt ->
      forall j, (j < List.length (Mongo.serverRegistrations w))%nat ->
        option_map Mongo.assigned (nth_error (Mongo.serverRegistrations w') j)
        = Some true).
Proof. apply MongoFacts.loadRecords_signals_completion. Qed.

(** On the MySQL back end a refresh whose statements are all answered
    runs to the end for any registrations, and leaves the callbacks
    uncalled. *)
Lemma mysql_refresh_completes_silently (toSeconds : option Z -> option Z)
  (w : MySQL.World) (rows : list Ping) (recs : list PlayersRecord) :
  MySQL.queue w = [] -> MySQL.faults w = [] ->
  MySQL.pings (MySQL.server w) = Some rows ->
  MySQL.players_record (MySQL.server w) = Some recs ->
  exists w',
    bind MySQL.loadRecords
      (fun _ => MySQL.turns toSeconds
                  (3 * List.length (MySQL.serverRegistrations w))) w
    = (Ok tt, w')
    /\ MySQL.queue w' = [] /\ MySQL.fired w' = MySQL.fired w.
Proof.
  intros Hq Hf Hp Hrec.
  destruct w as [[p ih ii ti pr] f q lg regs tt0 ck cfg iv fr rp].
  cbn in Hq, Hf, Hp, Hrec. subst q f p pr.
  eexists. split.
  - apply (MySQLFacts.refresh_answered toSeconds rows recs ih ii ti regs
             (MySQL.mkWorld (MySQL.mkDb (Some rows) ih ii ti (Some recs))
                [] [] lg regs tt0 ck cfg iv fr rp) eq_refl).
  - split; reflexivity.
Qed.

(** C2: on the MySQL back end the completion callback of [loadRecords] is
    never called, however many statements are answered; in particular a
    refresh of the single service A runs to the end, assigns the record
    of A, and leaves the callback uncalled. *)
Theorem mysql_loadRecords_never_signals :
  (forall (toSeconds : option Z -> option Z) (n : nat) (w : MySQL.World),
      mysql_signals
        (snd (bind MySQL.loadRecords (fun _ => MySQL.turns toSeconds n) w))
      = mysql_signals w)
  /\ (exists w',
        mysql_refresh (mysql [registration "A"] [] None) = (Ok tt, w')
        /\ MySQL.queue w' = []
        /\ MySQL.serverRegistrations w'
           = [mkServerRegistration "A" (Some (mkRecordData None None)) 1 None]
        /\ MySQL.fired w' = []).
Proof.
  split.
  - intros toSeconds n w. unfold mysql_signals, MySQL.loadRecords, bind.
    destruct (MySQLFacts.loadRecords_forEach_fired
                (map data_ip (MySQL.serverRegistrations w)) 0 w) as [H1 H2].
    destruct (MySQL.loadRecords_forEach 0 _ w) as [r w1].
    cbn [fst snd] in H1, H2. subst r.
    destruct (MySQLFacts.turns_fired toSeconds n w1) as (l & Hl & Hn).
    rewrite Hl, H2, count_occ_app.
    rewrite (proj1 (count_occ_not_In Callback_eq_dec l LoadRecordsCallback) Hn).
    lia.
  - eexists. split; [vm_compute; reflexivity|]. repeat split.
Qed.

(** ** Duplicate keys *)

(** On the MySQL back end the callback of the insert swallows
    [ER_DUP_ENTRY] and throws every other error. *)
Lemma mysql_insert_swallows_only_duplicates
  (toSeconds : option Z -> option Z) (e : Exn) (w : MySQL.World) :
  (e = DriverError "ER_DUP_ENTRY" ->
   MySQL.handle toSeconds MySQL.OnInsertRecord (inl e) w = (Ok tt, w))
  /\ (e <> DriverError "ER_DUP_ENTRY" ->
      fst (MySQL.handle toSeconds MySQL.OnInsertRecord (inl e) w) = Throw e).
Proof.
  rewrite MySQLFacts.OnInsertRecord_spec. split.
  - intros ->. reflexivity.
  - intros Hne. destruct e as [code| | |]; cbn; try reflexivity.
    destruct (String.eqb_spec code "ER_DUP_ENTRY") as [->|_];
      [congruence|reflexivity].
Qed.

(** C3: on the MongoDB back end [insertRecord] logs and throws again the
    duplicate-key error of the server, as it does with every error (shown
    here for the record of A, v = 9, t = 2000). *)
Theorem mongo_insertRecord_rethrows_duplicate_key :
  Mongo.insertRecord "A" (Some 9) (Some 2000)
    (mongo [registration "A"] [Some mongo_duplicate_key] None)
  = (Throw mongo_duplicate_key,
     Mongo.set_log
       [mkLog LevelError "Failed to insert player count record of A at 2000"]
       (mongo [registration "A"] [] None)).
Proof. vm_compute. reflexivity. Qed.

(** ** Retention pruning *)

Lemma or_default_nonzero (i fallback : Z) :
  i <> 0 -> or_default (Some i) fallback = i.
Proof.
  intros H. unfold or_default.
  destruct (Z.eqb_spec i 0); [contradiction|reflexivity].
Qed.

(** On the MongoDB back end a positive interval is the period of the
    repeating pass, a missing one gives 3,600,000 ms, a negative one
    schedules nothing. *)
Lemma initOldPingsDelete_schedule (i : Z) :
  let scheduled (interval : option Z) :=
    if 0 <? or_default interval 3600000
    then [or_default interval 3600000] else [] in
  (0 < i -> scheduled (Some i) = [i])
  /\ scheduled None = [3600000]
  /\ (i < 0 -> scheduled (Some i) = [])
  /\ (forall w, Mongo.connected w = true -> Mongo.faults w = [] ->
        exists w', Mongo.initOldPingsDelete w = (Ok tt, w')
          /\ Mongo.intervals w'
             = Mongo.intervals w
               ++ scheduled (oldPingsCleanup_interval (Mongo.config w))).
Proof.
  cbv zeta. repeat split.
  - intros Hi. rewrite or_default_nonzero by lia.
    destruct (Z.ltb_spec 0 i); [reflexivity|lia].
  - intros Hi. rewrite or_default_nonzero by lia.
    destruct (Z.ltb_spec 0 i); [lia|reflexivity].
  - intros w Hc Hf.
    destruct (MongoFacts.initOldPingsDelete_ok w Hc Hf) as (w' & E & I & _).
    exists w'. split; [exact E|exact I].
Qed.

(** C4: with the cleanup interval configured as 0 the MongoDB back end
    schedules the repeating pass, every 3,600,000 ms. *)
Theorem initOldPingsDelete_zero_interval :
  exists w',
    Mongo.initOldPingsDelete (mongo [] [] (Some 0)) = (Ok tt, w')
    /\ Mongo.intervals w' = [3600000].
Proof.
  eexists. split; [vm_compute; reflexivity|reflexivity].
Qed.

(** ** A service without a record *)

(** C5, as stated, fails: for the single service A over an empty store
    the record is absent and the fallback finds nothing, yet the refresh
    leaves a row for A, with [null] twice, in the record store; on both
    back ends. *)
Lemma no_data_state_is_persisted :
  fst (Mongo.getRecord "A" (mongo [registration "A"] [] None)) = Ok None
  /\ fst (Mongo.getRecordLegacy "A" (mongo [registration "A"] [] None))
     = Ok None
  /\ (exists w',
        Mongo.loadRecords toSeconds (mongo [registration "A"] [] None)
        = (Ok tt, w')
        /\ Mongo.players_record (Mongo.server w')
           = [mkPlayersRecord None "A" None])
  /\ (exists w',
        mysql_refresh (mysql [registration "A"] [] None) = (Ok tt, w')
        /\ MySQL.players_record (MySQL.server w')
           = Some [mkPlayersRecord None "A" None]).
Proof.
  split; [vm_compute; reflexivity|].
  split; [vm_compute; reflexivity|].
  split; eexists; (split; [vm_compute; reflexivity|reflexivity]).
Qed.

(** C5, amended: when the record of a service is absent, what the fallback
    found, or [null] twice when it found nothing, is shown as the record
    of the service and inserted into the record store; with nothing found
    the service shows the no-data state.  On the MongoDB back end for any
    turn of the loop, on the MySQL back end for any service of a refresh
    whose statements are all answered.  [normalize] stands for
    [TimeTracker.toSeconds], of which only that it keeps [null] is used. *)
Theorem absent_record_is_inserted (normalize : option Z -> option Z) :
  normalize None = None ->
  (forall (i : nat) (ip : string) (c : nat) (w : Mongo.World),
      Mongo.connected w = true -> Mongo.faults w = [] ->
      find (fun r => String.eqb (record_ip r) ip)
        (Mongo.players_record (Mongo.server w)) = None ->
      exists w',
        Mongo.loadRecords_turn normalize i ip c w = (Ok (S c), w')
        /\ match fst (Mongo.findOne_pings_sorted ip (Mongo.server w)) with
           | Some l =>
             Mongo.players_record (Mongo.server w')
             = Mongo.players_record (Mongo.server w)
               ++ [mkPlayersRecord (Some (ping_timestamp l)) ip
                     (ping_playerCount l)]
             /\ Mongo.serverRegistrations w'
                = update_nth i
                    (set_recordData
                       (mkRecordData (ping_playerCount l)
                          (normalize (Some (ping_timestamp l)))))
                    (update_nth i findNewGraphPeak
                       (Mongo.serverRegistrations w))
           | None =>
             Mongo.players_record (Mongo.server w')
             = Mongo.players_record (Mongo.server w)
               ++ [mkPlayersRecord None ip None]
             /\ Mongo.serverRegistrations w'
                = update_nth i (set_recordData (mkRecordData None None))
                    (update_nth i findNewGraphPeak
                       (Mongo.serverRegistrations w))
           end)
  /\ (forall (w : MySQL.World) (rows : list Ping) (recs : list PlayersRecord)
             (j : nat) (r : ServerRegistration),
        MySQL.queue w = [] -> MySQL.faults w = [] ->
        MySQL.pings (MySQL.server w) = Some rows ->
        MySQL.players_record (MySQL.server w) = Some recs ->
        nth_error (MySQL.serverRegistrations w) j = Some r ->
        MySQL.has_ip (data_ip r) recs = false ->
        exists w' cur,
          bind MySQL.loadRecords
            (fun _ => MySQL.turns normalize
                        (3 * List.length (MySQL.serverRegistrations w))) w
          = (Ok tt, w')
          /\ MySQL.queue w' = []
          /\ MySQL.players_record (MySQL.server w') = Some cur
          /\ match MySQL.select_legacy rows with
             | (maxPlayerCount, timestamp) :: _ =>
               In (mkPlayersRecord (Some timestamp) (data_ip r) maxPlayerCount)
                 cur
               /\ nth_error (MySQL.serverRegistrations w') j
                  = Some (set_recordData
                            (mkRecordData maxPlayerCount
                               (normalize (Some timestamp)))
                            (findNewGraphPeak r))
             | [] =>
               In (mkPlayersRecord None (data_ip r) None) cur
               /\ nth_error (MySQL.serverRegistrations w') j
                  = Some (set_recordData (mkRecordData None None)
                            (findNewGraphPeak r))
             end).
Proof.
  intros Hnull. split.
  - intros i ip c w Hc Hf Hnone.
    destruct (MongoFacts.loadRecords_turn_absent normalize i ip c w Hc Hf Hnone)
      as (w' & E & P & _ & R & _).
    exists w'. split; [exact E|].
    destruct (fst (Mongo.findOne_pings_sorted ip (Mongo.server w)));
      cbn [option_map] in P, R; rewrite ?Hnull in R; auto.
  - intros w rows recs j r Hq Hf Hp Hrec Hr Hno.
    destruct w as [[p ih ii ti pr] f q lg regs tt0 ck cfg iv fr rp].
    cbn in Hq, Hf, Hp, Hrec, Hr. subst q f p pr.
    destruct (MySQLFacts.refresh_service normalize rows recs ih ii ti regs
                (MySQL.mkWorld (MySQL.mkDb (Some rows) ih ii ti (Some recs))
                   [] [] lg regs tt0 ck cfg iv fr rp) j r eq_refl Hr)
      as (w' & E & Q & _ & _ & _ & A).
    destruct (A Hno) as (Hreg & cur & Hcur & Hin).
    exists w', cur. split; [exact E|]. split; [exact Q|]. split; [exact Hcur|].
    unfold MySQL.legacy_shown, MySQL.legacy_timestamp,
      MySQL.legacy_playerCount in Hreg, Hin.
    destruct (MySQL.select_legacy rows) as [|[m t] rest];
      rewrite ?Hnull in Hreg; auto.
Qed.

Lemma absent_record_is_inserted_witness :
  toSeconds None = None
  /\ (exists w',
        Mongo.loadRecords_turn toSeconds 0 "A" 0
          (mongo [registration "A"] [] None) = (Ok 1%nat, w')
        /\ Mongo.players_record (Mongo.server w')
           = [mkPlayersRecord None "A" None]
        /\ Mongo.serverRegistrations w'
           = [mkServerRegistration "A" (Some (mkRecordData None None)) 1 None])
  /\ (exists w' cur,
        bind MySQL.loadRecords (fun _ => MySQL.turns toSeconds 6)
          (mysql [registration "A"; registration "B"] [] None) = (Ok tt, w')
        /\ MySQL.queue w' = []
        /\ MySQL.players_record (MySQL.server w') = Some cur
        /\ In (mkPlayersRecord None "B" None) cur
        /\ nth_error (MySQL.serverRegistrations w') 1
           = Some (mkServerRegistration "B" (Some (mkRecordData None None)) 1
                     None)).
Proof.
  destruct (absent_record_is_inserted toSeconds eq_refl) as [Hmongo Hmysql].
  split; [reflexivity|]. split.
  - destruct (Hmongo 0%nat "A" 0%nat (mongo [registration "A"] [] None)
                eq_refl eq_refl eq_refl) as (w' & E & P & R).
    exists w'. repeat split; assumption.
  - destruct (Hmysql (mysql [registration "A"; registration "B"] [] None)
                [] [] 1%nat (registration "B")
                eq_refl eq_refl eq_refl eq_refl eq_refl eq_refl)
      as (w' & cur & E & Q & C & I & R).
    exists w', cur. repeat split; assumption.
Defined.

(** ** The schema *)




(** ** Range queries *)









(** ** Failure in the middle of a refresh *)

(** C10: on the MongoDB back end, when a read of the store, [getRecord]
    or [getRecordLegacy], fails for a service after the services before it
    were refreshed, [loadRecords] throws the error of the read and does
    not call the callback; every registration refreshed before keeps the
    record it was just assigned, and the registrations after the failing
    one are as they were. *)
Theorem loadRecords_failure_keeps_earlier_assignments
  (normalize : option Z -> option Z) (w w1 : Mongo.World)
  (pre post : list string) (ip : string) (e : Exn)
  (rest : list (option Exn)) :
  map data_ip (Mongo.serverRegistrations w) = pre ++ ip :: post ->
  Mongo.loadRecords_loop normalize 0 pre 0 w = (Ok tt, w1) ->
  Mongo.connected w1 = true ->
  (Mongo.faults w1 = Some e :: rest
   \/ (Mongo.faults w1 = None :: Some e :: rest
       /\ find (fun r => String.eqb (record_ip r) ip)
            (Mongo.players_record (Mongo.server w1)) = None)) ->
  exists w2,
    Mongo.loadRecords normalize w = (Throw e, w2)
    /\ (forall j, (j < List.length pre)%nat ->
          nth_error (Mongo.serverRegistrations w2) j
          = nth_error (Mongo.serverRegistrations w1) j
          /\ option_map Mongo.assigned
               (nth_error (Mongo.serverRegistrations w2) j) = Some true)
    /\ (forall j, (List.length pre < j)%nat ->
          nth_error (Mongo.serverRegistrations w2) j
          = nth_error (Mongo.serverRegistrations w) j)
    /\ Mongo.fired w2 = Mongo.fired w.
Proof.
  intros Hips Hpre Hc Hfail.
  assert (Hlen : List.length (Mongo.serverRegistrations w)
                 = (List.length pre + S (List.length post))%nat).
  { rewrite <- (length_map data_ip), Hips, length_app. reflexivity. }
  pose proof (MongoFacts.loadRecords_loop_spec normalize pre 0 0 w) as P.
  rewrite Hpre in P. cbn [fst snd] in P.
  destruct P as (P1 & P2 & _ & P4 & _).
  assert (Hthrow : fst (Mongo.loadRecords_turn normalize (List.length pre) ip
                          (List.length pre) w1) = Throw e).
  { destruct Hfail as [Hf|[Hf Hnone]].
    - eapply MongoFacts.loadRecords_turn_getRecord_fails; eassumption.
    - eapply MongoFacts.loadRecords_turn_getRecordLegacy_fails; eassumption. }
  pose proof (MongoFacts.loadRecords_turn_spec normalize (List.length pre) ip
                (List.length pre) w1) as T.
  cbv zeta in T. rewrite Hthrow in T.
  destruct (Mongo.loadRecords_turn normalize (List.length pre) ip
              (List.length pre) w1) as [r w2] eqn:Eturn.
  cbn [fst snd] in Hthrow, T. subst r.
  destruct T as ((T1 & T2 & _) & _).
  pose proof (MongoFacts.loadRecords_loop_spec normalize
                (map data_ip (Mongo.serverRegistrations w)) 0 0 w) as W.
  cbv zeta in W. destruct W as (_ & _ & _ & _ & W5).
  assert (Hrun : Mongo.loadRecords normalize w = (Throw e, w2)).
  { unfold Mongo.loadRecords. rewrite Hips.
    rewrite MongoFacts.loadRecords_loop_app, Hpre.
    cbn [Mongo.loadRecords_loop Nat.add].
    now rewrite (JsFacts.bind_Throw _ _ _ _ _ Eturn). }
  exists w2. split; [exact Hrun|]. split; [|split].
  - intros j Hj. rewrite T2 by lia. split; [reflexivity|].
    apply P4; [reflexivity|simpl; lia|lia].
  - intros j Hj. rewrite T2 by lia. apply P2. simpl. lia.
  - fold (Mongo.loadRecords normalize w) in W5. rewrite Hrun in W5.
    cbn [fst snd] in W5. rewrite W5, app_nil_r; [reflexivity|].
    now rewrite length_map.
Qed.

Lemma loadRecords_failure_keeps_earlier_assignments_witness :
  exists w2,
    Mongo.loadRecords toSeconds refresh_with_fault
    = (Throw lock_wait_timeout, w2)
    /\ nth_error (Mongo.serverRegistrations w2) 0
       = Some (mkServerRegistration "A" (Some (mkRecordData None None)) 1 None)
    /\ nth_error (Mongo.serverRegistrations w2) 2 = Some (registration "C")
    /\ Mongo.fired w2 = [].
Proof.
  assert (H1 : map data_ip (Mongo.serverRegistrations refresh_with_fault)
               = ["A"] ++ "B" :: ["C"]) by reflexivity.
  assert (H2 : Mongo.loadRecords_loop toSeconds 0 ["A"] 0 refresh_with_fault
               = (Ok tt, refresh_after_A)) by (vm_compute; reflexivity).
  assert (H3 : Mongo.connected refresh_after_A = true) by reflexivity.
  assert (H4 : Mongo.faults refresh_after_A = [Some lock_wait_timeout])
    by reflexivity.
  destruct (loadRecords_failure_keeps_earlier_assignments toSeconds
              refresh_with_fault refresh_after_A ["A"] ["C"] "B"
              lock_wait_timeout [] H1 H2 H3 (or_introl H4))
    as (w2 & E & Hbefore & Hafter & F).
  exists w2. split; [exact E|]. split; [|split].
  - rewrite (proj1 (Hbefore 0%nat ltac:(simpl; lia))). reflexivity.
  - rewrite (Hafter 2%nat ltac:(simpl; lia)). reflexivity.
  - exact F.
Defined.

End Spec.


(* ================================================================== *)
(** * Further properties of the two stores *)
(* ================================================================== *)

Module StoreFacts.
Import Js JsFacts Views.

Local Notation "x <- c ;; k" := (bind c (fun x => k))
  (at level 61, c at next level, right associativity).
Local Notation "c ;; k" := (bind c (fun _ => k))
  (at level 61, right associativity).

(** ** Pruning *)

Lemma not_older (cutoff : Z) (rows : list Ping) :
  filter (fun p => negb (ping_timestamp p <? cutoff)) rows
  = filter (fun p => cutoff <=? ping_timestamp p) rows.
Proof.
  apply filter_ext. intros p.
  destruct (Z.ltb_spec (ping_timestamp p) cutoff),
    (Z.leb_spec cutoff (ping_timestamp p)); simpl; auto; lia.
Qed.

Lemma since_In (cutoff : Z) (rows : list Ping) (x : Ping) :
  In x (filter (fun p => cutoff <=? ping_timestamp p) rows)
  <-> In x rows /\ cutoff <= ping_timestamp x.
Proof. rewrite filter_In, Z.leb_le. tauto. Qed.

(** X1: on the MongoDB back end [deleteOldPings] removes exactly the pings
    older than the graph window: with the cut-off at the clock minus
    [graphDuration], the pings left are the stored ones whose timestamp is
    at or after the cut-off, in their order, and the records are not
    touched. *)
Theorem prune_keeps_the_window (w : Mongo.World) :
  Mongo.connected w = true -> Mongo.faults w = [] ->
  exists w',
    Mongo.deleteOldPings w = (Ok tt, w')
    /\ Mongo.pings (Mongo.server w')
       = filter (fun p => Mongo.clock w - graphDuration (Mongo.config w)
                          <=? ping_timestamp p)
           (Mongo.pings (Mongo.server w))
    /\ (forall x, In x (Mongo.pings (Mongo.server w'))
                  <-> In x (Mongo.pings (Mongo.server w))
                      /\ Mongo.clock w - graphDuration (Mongo.config w)
                         <= ping_timestamp x)
    /\ Mongo.players_record (Mongo.server w')
       = Mongo.players_record (Mongo.server w).
Proof.
  intros Hc Hf. eexists.
  split; [apply MongoFacts.deleteOldPings_ok; assumption|].
  cbn. rewrite not_older. split; [reflexivity|].
  split; [intros x; apply since_In|reflexivity].
Qed.

Lemma prune_keeps_the_window_witness :
  exists w',
    Mongo.deleteOldPings Samples.mongo = (Ok tt, w')
    /\ Mongo.pings (Mongo.server w')
       = [mkPing 1000 "A" (Some 5); mkPing 3000 "B" (Some 3);
          mkPing 3001 "A" (Some 7)].
Proof.
  destruct (prune_keeps_the_window Samples.mongo eq_refl eq_refl)
    as (w' & E & Hp & _).
  exists w'. split; [exact E|]. rewrite Hp. reflexivity.
Defined.

Lemma filter_twice {A} (f : A -> bool) (l : list A) :
  filter f (filter f l) = filter f l.
Proof.
  induction l as [|x l IH]; [reflexivity|]. simpl.
  destruct (f x) eqn:E; simpl; rewrite ?E, IH; reflexivity.
Qed.

(** X2: on the MongoDB back end a second [deleteOldPings] at the same time
    removes nothing more: the store after two passes is the store after
    one. *)
Theorem prune_twice_is_prune_once (w : Mongo.World) :
  Mongo.connected w = true -> Mongo.faults w = [] ->
  exists w1 w2,
    Mongo.deleteOldPings w = (Ok tt, w1)
    /\ Mongo.deleteOldPings w1 = (Ok tt, w2)
    /\ Mongo.server w2 = Mongo.server w1.
Proof.
  intros Hc Hf. do 2 eexists.
  split; [apply MongoFacts.deleteOldPings_ok; assumption|].
  split; [apply MongoFacts.deleteOldPings_ok; assumption|].
  destruct w as [[p r pi ri] ? ? ? ? ? ? ? ? ?]. cbn.
  f_equal. apply filter_twice.
Qed.

Lemma prune_twice_is_prune_once_witness :
  exists w1 w2,
    Mongo.deleteOldPings Samples.mongo = (Ok tt, w1)
    /\ Mongo.deleteOldPings w1 = (Ok tt, w2)
    /\ Mongo.server w2 = Mongo.server w1.
Proof.
  exact (prune_twice_is_prune_once Samples.mongo eq_refl eq_refl).
Defined.

(** ** Writing and reading back *)

Ltac mysql_world w :=
  destruct w as [[?p ?ih ?ii ?ti ?pr] ?f ?q ?lg ?regs ?tt0 ?ck ?cfg ?iv ?fr ?rp];
  cbn in *; subst.

Ltac mysql_answer :=
  unfold MySQL.turns, MySQL.turn, MySQL.serve, MySQL.insertPing,
    MySQL.getRecentPings, MySQL.getRecord, MySQL.getRecordLegacy,
    MySQL.updatePlayerCountRecord, MySQL.query, bind, get, modify; cbn.

Lemma mediumint_in_range (v : option Z) :
  MySQL.in_mediumint v -> MySQL.mediumint v = v.
Proof.
  destruct v as [n|]; [|reflexivity]. cbn. intros H. f_equal. lia.
Qed.

(** X3: a ping written by [insertPing] is read back by [getRecentPings]:
    the answer holds, in some order, the stored pings of the range and
    the new one when its timestamp lies in the range, and the stored pings
    of the range alone otherwise; on the MySQL back end for a player count
    the column can hold. *)
Theorem inserted_ping_is_read_back (ip : string) (timestamp : Z)
  (count : option Z) (startTime endTime : Z) :
  let fresh := if between startTime endTime (mkPing timestamp ip count)
               then [mkPing timestamp ip count] else [] in
  (forall w : Mongo.World,
      Mongo.connected w = true -> Mongo.faults w = [] ->
      exists pingData,
        fst ((Mongo.insertPing ip timestamp count ;;
              Mongo.getRecentPings startTime endTime) w) = Ok pingData
        /\ Permutation pingData
             (filter (between startTime endTime)
                (Mongo.pings (Mongo.server w)) ++ fresh))
  /\ (forall (toSeconds : option Z -> option Z) (w : MySQL.World)
             (rows : list Ping),
        MySQL.queue w = [] -> MySQL.faults w = [] ->
        MySQL.pings (MySQL.server w) = Some rows ->
        MySQL.in_mediumint count ->
        exists w' pingData,
          (MySQL.insertPing ip timestamp count ;;
           MySQL.getRecentPings startTime endTime MySQL.ReportPings ;;
           MySQL.turns toSeconds 2) w = (Ok tt, w')
          /\ MySQL.queue w' = []
          /\ MySQL.reported w'
             = MySQL.reported w ++ [MySQL.ReportedPings pingData]
          /\ Permutation pingData
               (filter (between startTime endTime) rows ++ fresh)).
Proof.
  intros fresh. split.
  - intros w Hc Hf. eexists. split.
    + rewrite (bind_Ok _ _ _ _ _
                 (MongoFacts.insertPing_ok ip timestamp count w Hc Hf)).
      rewrite MongoFacts.getRecentPings_ok by (cbn; rewrite ?Hf; auto).
      reflexivity.
    + cbn. now rewrite filter_app.
  - intros toSeconds w rows Hq Hf Hp Hrange. mysql_world w. mysql_answer.
    rewrite (mediumint_in_range count Hrange).
    do 2 eexists. split; [reflexivity|]. cbn. split; [reflexivity|].
    split; [reflexivity|]. now rewrite filter_app.
Qed.

Lemma inserted_ping_is_read_back_witness :
  (exists pingData,
      fst ((Mongo.insertPing "B" 2000 (Some 4) ;;
            Mongo.getRecentPings 1000 3000) Samples.mongo) = Ok pingData
      /\ Permutation pingData
           [mkPing 1000 "A" (Some 5); mkPing 3000 "B" (Some 3);
            mkPing 2000 "B" (Some 4)])
  /\ (exists w' pingData,
        (MySQL.insertPing "B" 4000 (Some 4) ;;
         MySQL.getRecentPings 1000 3000 MySQL.ReportPings ;;
         MySQL.turns Scenario.toSeconds 2) Samples.mysql = (Ok tt, w')
        /\ MySQL.reported w' = [MySQL.ReportedPings pingData]
        /\ Permutation pingData
             [mkPing 1000 "A" (Some 5); mkPing 3000 "B" (Some 3)]).
Proof.
  split.
  - exact (proj1 (inserted_ping_is_read_back "B" 2000 (Some 4) 1000 3000)
             Samples.mongo eq_refl eq_refl).
  - assert (Hrange : MySQL.in_mediumint (Some 4)) by (cbn; lia).
    destruct (proj2 (inserted_ping_is_read_back "B" 4000 (Some 4) 1000 3000)
                Scenario.toSeconds Samples.mysql Scenario.window_pings
                eq_refl eq_refl eq_refl Hrange)
      as (w' & pingData & E & _ & Hr & Hp).
    exists w', pingData. split; [exact E|]. split; [exact Hr|exact Hp].
Defined.

Lemma find_last {A} (f : A -> bool) (l : list A) (x : A) :
  find f (l ++ [x])
  = match find f l with
    | Some y => Some y
    | None => if f x then Some x else None
    end.
Proof.
  induction l as [|y l IH]; simpl; [reflexivity|].
  destruct (f y); [reflexivity|exact IH].
Qed.

(** X4: on the MongoDB back end [insertRecord] appends a record and
    replaces none: a later [getRecord] for the address answers the record
    that was there before, and the new one only when there was none. *)
Theorem mongo_insertRecord_adds_never_replaces (ip : string)
  (playerCount timestamp : option Z) (w : Mongo.World) :
  Mongo.connected w = true -> Mongo.faults w = [] ->
  exists w',
    (Mongo.insertRecord ip playerCount timestamp ;; Mongo.getRecord ip) w
    = (Ok (Some match find (fun r => String.eqb (record_ip r) ip)
                        (Mongo.players_record (Mongo.server w)) with
                | Some earlier => earlier
                | None => mkPlayersRecord timestamp ip playerCount
                end), w')
    /\ Mongo.players_record (Mongo.server w')
       = Mongo.players_record (Mongo.server w)
         ++ [mkPlayersRecord timestamp ip playerCount]
    /\ Mongo.pings (Mongo.server w') = Mongo.pings (Mongo.server w).
Proof.
  intros Hc Hf. eexists. split.
  - rewrite (bind_Ok _ _ _ _ _
               (MongoFacts.insertRecord_ok ip playerCount timestamp w Hc Hf)).
    rewrite MongoFacts.getRecord_ok by assumption. cbn.
    rewrite find_last. cbn. rewrite String.eqb_refl.
    destruct (find _ (Mongo.players_record (Mongo.server w))); reflexivity.
  - split; reflexivity.
Qed.

Lemma mongo_insertRecord_adds_never_replaces_witness :
  exists w',
    (Mongo.insertRecord "A" (Some 20) (Some 4000) ;; Mongo.getRecord "A")
      Samples.mongo
    = (Ok (Some (mkPlayersRecord (Some 2000) "A" (Some 9))), w')
    /\ Mongo.players_record (Mongo.server w')
       = [mkPlayersRecord (Some 2000) "A" (Some 9);
          mkPlayersRecord (Some 4000) "A" (Some 20)].
Proof.
  destruct (mongo_insertRecord_adds_never_replaces "A" (Some 20) (Some 4000)
              Samples.mongo eq_refl eq_refl) as (w' & E & Hr & _).
  exists w'. split; [exact E|exact Hr].
Defined.

(** [updateOne] on [players_record] *)
Lemma find_set_first (ip : string) (playerCount timestamp : option Z)
  (l : list PlayersRecord) :
  find (fun r => String.eqb (record_ip r) ip)
    (Mongo.set_first ip playerCount timestamp l)
  = option_map (fun _ => mkPlayersRecord timestamp ip playerCount)
      (find (fun r => String.eqb (record_ip r) ip) l).
Proof.
  induction l as [|r l IH]; [reflexivity|]. simpl.
  destruct (String.eqb_spec (record_ip r) ip) as [E|Hne]; simpl.
  - rewrite E, String.eqb_refl. reflexivity.
  - destruct (String.eqb_spec (record_ip r) ip); [contradiction|exact IH].
Qed.

Lemma find_set_first_other (ip other : string)
  (playerCount timestamp : option Z) (l : list PlayersRecord) :
  other <> ip ->
  find (fun r => String.eqb (record_ip r) other)
    (Mongo.set_first ip playerCount timestamp l)
  = find (fun r => String.eqb (record_ip r) other) l.
Proof.
  intros Hne. induction l as [|r l IH]; [reflexivity|]. simpl.
  destruct (String.eqb_spec (record_ip r) ip) as [E|Hr]; simpl.
  - destruct (String.eqb_spec (record_ip r) other) as [E'|_];
      [congruence|reflexivity].
  - destruct (String.eqb (record_ip r) other); [reflexivity|exact IH].
Qed.

Lemma set_first_absent (ip : string) (playerCount timestamp : option Z)
  (l : list PlayersRecord) :
  find (fun r => String.eqb (record_ip r) ip) l = None ->
  Mongo.set_first ip playerCount timestamp l = l.
Proof.
  induction l as [|r l IH]; [reflexivity|]. simpl.
  destruct (String.eqb (record_ip r) ip); [discriminate|].
  intros H. now rewrite IH.
Qed.

Lemma set_first_length (ip : string) (playerCount timestamp : option Z)
  (l : list PlayersRecord) :
  List.length (Mongo.set_first ip playerCount timestamp l) = List.length l.
Proof.
  induction l as [|r l IH]; [reflexivity|]. simpl.
  destruct (String.eqb (record_ip r) ip); simpl; auto.
Qed.

Lemma mongo_update_ok (ip : string) (playerCount timestamp : option Z)
  (w : Mongo.World) :
  Mongo.connected w = true -> Mongo.faults w = [] ->
  Mongo.updatePlayerCountRecord ip playerCount timestamp w
  = (Ok tt,
     Mongo.set_server
       (snd (Mongo.updateOne_players_record ip playerCount timestamp
               (Mongo.server w))) w).
Proof.
  intros Hc Hf. unfold Mongo.updatePlayerCountRecord, try_catch.
  rewrite MongoFacts.driver_ok by (rewrite ?Hf; auto). rewrite Hf. simpl.
  now rewrite MongoFacts.set_faults_nil by assumption.
Qed.

Lemma update_records_lookup (ip : string) (playerCount timestamp : option Z)
  (l : list PlayersRecord) :
  MySQL.lookup (MySQL.update_records timestamp playerCount ip l) ip
  = map (fun _ => (playerCount, timestamp)) (MySQL.lookup l ip).
Proof.
  unfold MySQL.lookup, MySQL.update_records.
  induction l as [|r l IH]; [reflexivity|]. simpl.
  destruct (String.eqb (record_ip r) ip) eqn:E; simpl; rewrite E; simpl;
    now rewrite IH.
Qed.

Lemma update_records_lookup_other (ip other : string)
  (playerCount timestamp : option Z) (l : list PlayersRecord) :
  other <> ip ->
  MySQL.lookup (MySQL.update_records timestamp playerCount ip l) other
  = MySQL.lookup l other.
Proof.
  intros Hne. unfold MySQL.lookup, MySQL.update_records.
  induction l as [|r l IH]; [reflexivity|]. simpl.
  destruct (String.eqb_spec (record_ip r) ip) as [E|Hr]; simpl.
  - destruct (String.eqb_spec (record_ip r) other) as [E'|_];
      [congruence|exact IH].
  - destruct (String.eqb (record_ip r) other); simpl; now rewrite IH.
Qed.

Lemma update_records_absent (ip : string) (playerCount timestamp : option Z)
  (l : list PlayersRecord) :
  MySQL.has_ip ip l = false ->
  MySQL.update_records timestamp playerCount ip l = l.
Proof.
  unfold MySQL.has_ip, MySQL.update_records.
  induction l as [|r l IH]; [reflexivity|]. simpl.
  destruct (String.eqb (record_ip r) ip); simpl; [discriminate|].
  intros H. now rewrite IH.
Qed.

(** X5: [updatePlayerCountRecord] changes the record of its address and
    nothing else, on both back ends: a later [getRecord] answers the new
    values when the address had a record and still no record when it had
    none, in which case the store is as before; the records of other
    addresses, the number of records and the pings are kept.  On the MySQL
    back end for a player count the column can hold. *)
Theorem update_changes_an_existing_record_only (ip : string)
  (playerCount timestamp : option Z) :
  (forall w : Mongo.World,
      Mongo.connected w = true -> Mongo.faults w = [] ->
      exists w',
        (Mongo.updatePlayerCountRecord ip playerCount timestamp ;;
         Mongo.getRecord ip) w
        = (Ok (option_map (fun _ => mkPlayersRecord timestamp ip playerCount)
                 (find (fun r => String.eqb (record_ip r) ip)
                    (Mongo.players_record (Mongo.server w)))), w')
        /\ (find (fun r => String.eqb (record_ip r) ip)
              (Mongo.players_record (Mongo.server w)) = None ->
            Mongo.server w' = Mongo.server w)
        /\ (forall other, other <> ip ->
              find (fun r => String.eqb (record_ip r) other)
                (Mongo.players_record (Mongo.server w'))
              = find (fun r => String.eqb (record_ip r) other)
                  (Mongo.players_record (Mongo.server w)))
        /\ List.length (Mongo.players_record (Mongo.server w'))
           = List.length (Mongo.players_record (Mongo.server w))
        /\ Mongo.pings (Mongo.server w') = Mongo.pings (Mongo.server w))
  /\ (forall (toSeconds : option Z -> option Z) (w : MySQL.World)
             (recs : list PlayersRecord),
        MySQL.queue w = [] -> MySQL.faults w = [] ->
        MySQL.players_record (MySQL.server w) = Some recs ->
        MySQL.in_mediumint playerCount ->
        exists w' recs',
          (MySQL.updatePlayerCountRecord ip playerCount timestamp ;;
           MySQL.getRecord ip MySQL.ReportRecord ;;
           MySQL.turns toSeconds 2) w = (Ok tt, w')
          /\ MySQL.reported w'
             = MySQL.reported w
               ++ [if MySQL.has_ip ip recs
                   then MySQL.ReportedRecord true playerCount timestamp
                   else MySQL.ReportedRecord false None None]
          /\ MySQL.players_record (MySQL.server w') = Some recs'
          /\ (MySQL.has_ip ip recs = false -> recs' = recs)
          /\ (forall other, other <> ip ->
                MySQL.lookup recs' other = MySQL.lookup recs other)
          /\ List.length recs' = List.length recs
          /\ MySQL.pings (MySQL.server w') = MySQL.pings (MySQL.server w)).
Proof.
  split.
  - intros w Hc Hf. eexists. split.
    + rewrite (bind_Ok _ _ _ _ _
                 (mongo_update_ok ip playerCount timestamp w Hc Hf)).
      rewrite MongoFacts.getRecord_ok by assumption. cbn.
      rewrite find_set_first. reflexivity.
    + cbn. split; [|split; [|split]].
      * intros Hnone. rewrite set_first_absent by exact Hnone.
        now destruct (Mongo.server w).
      * intros other Hne. now apply find_set_first_other.
      * apply set_first_length.
      * reflexivity.
  - intros toSeconds w recs Hq Hf Hr Hrange. mysql_world w. mysql_answer.
    rewrite (mediumint_in_range playerCount Hrange).
    fold (MySQL.lookup (MySQL.update_records timestamp playerCount ip recs) ip).
    rewrite update_records_lookup.
    assert (Hl : MySQL.lookup recs ip = []
                 <-> MySQL.has_ip ip recs = false).
    { pose proof (MySQLFacts.absent_has_ip recs (0%nat, ip)) as H.
      unfold MySQL.absent in H. cbn [snd] in H.
      destruct (MySQL.lookup recs ip), (MySQL.has_ip ip recs);
        cbn in H; split; congruence. }
    destruct (MySQL.lookup recs ip) as [|[c t] more] eqn:El.
    + rewrite (proj1 Hl eq_refl). cbn. do 2 eexists.
      split; [reflexivity|]. cbn. split; [reflexivity|].
      split; [reflexivity|]. split; [|split; [|split]].
      * intros _. apply update_records_absent. now apply Hl.
      * intros other Hne. now apply update_records_lookup_other.
      * apply length_map.
      * reflexivity.
    + destruct (MySQL.has_ip ip recs) eqn:Eh;
        [|discriminate (proj2 Hl eq_refl)].
      cbn. do 2 eexists.
      split; [reflexivity|]. cbn. split; [reflexivity|].
      split; [reflexivity|]. split; [|split; [|split]].
      * discriminate.
      * intros other Hne. now apply update_records_lookup_other.
      * apply length_map.
      * reflexivity.
Qed.

Lemma update_changes_an_existing_record_only_witness :
  (exists w',
      (Mongo.updatePlayerCountRecord "A" (Some 12) (Some 2500) ;;
       Mongo.getRecord "A") Samples.mongo
      = (Ok (Some (mkPlayersRecord (Some 2500) "A" (Some 12))), w'))
  /\ (exists w',
        (MySQL.updatePlayerCountRecord "B" (Some 12) (Some 2500) ;;
         MySQL.getRecord "B" MySQL.ReportRecord ;;
         MySQL.turns Scenario.toSeconds 2) Samples.mysql = (Ok tt, w')
        /\ MySQL.reported w' = [MySQL.ReportedRecord false None None]
        /\ MySQL.players_record (MySQL.server w') = Some Samples.recorded).
Proof.
  split.
  - destruct (proj1 (update_changes_an_existing_record_only "A" (Some 12)
                       (Some 2500)) Samples.mongo eq_refl eq_refl)
      as (w' & E & _).
    exists w'. exact E.
  - assert (Hrange : MySQL.in_mediumint (Some 12)) by (cbn; lia).
    destruct (proj2 (update_changes_an_existing_record_only "B" (Some 12)
                       (Some 2500)) Scenario.toSeconds Samples.mysql
                Samples.recorded eq_refl eq_refl eq_refl
                Hrange)
      as (w' & recs' & E & Hr & Hp & Hsame & _).
    exists w'. split; [exact E|]. split; [exact Hr|].
    now rewrite Hp, (Hsame eq_refl).
Defined.

(** X6: [insertPing] never touches the records: the MongoDB call leaves
    [players_record] as it was whether it succeeds or fails, and on both
    back ends [getRecord] answers after an [insertPing] what it answers
    without it. *)
Theorem insertPing_leaves_the_records (from ip : string) (timestamp : Z)
  (count : option Z) :
  (forall w : Mongo.World,
      Mongo.players_record
        (Mongo.server (snd (Mongo.insertPing from timestamp count w)))
      = Mongo.players_record (Mongo.server w))
  /\ (forall w : Mongo.World,
        Mongo.connected w = true -> Mongo.faults w = [] ->
        fst ((Mongo.insertPing from timestamp count ;; Mongo.getRecord ip) w)
        = fst (Mongo.getRecord ip w))
  /\ (forall (toSeconds : option Z -> option Z) (w : MySQL.World)
             (rows : list Ping) (recs : list PlayersRecord),
        MySQL.queue w = [] -> MySQL.faults w = [] ->
        MySQL.pings (MySQL.server w) = Some rows ->
        MySQL.players_record (MySQL.server w) = Some recs ->
        exists w1 w2,
          (MySQL.insertPing from timestamp count ;;
           MySQL.getRecord ip MySQL.ReportRecord ;;
           MySQL.turns toSeconds 2) w = (Ok tt, w1)
          /\ (MySQL.getRecord ip MySQL.ReportRecord ;;
              MySQL.turns toSeconds 1) w = (Ok tt, w2)
          /\ MySQL.reported w1 = MySQL.reported w2
          /\ MySQL.players_record (MySQL.server w1) = Some recs).
Proof.
  split; [|split].
  - intros w. unfold Mongo.insertPing, try_catch, Mongo.driver.
    destruct (Mongo.connected w); [|reflexivity].
    destruct (Mongo.faults w) as [|[e|] rest]; reflexivity.
  - intros w Hc Hf.
    rewrite (bind_Ok _ _ _ _ _
               (MongoFacts.insertPing_ok from timestamp count w Hc Hf)).
    now rewrite !MongoFacts.getRecord_ok by assumption.
  - intros toSeconds w rows recs Hq Hf Hp Hr. mysql_world w. mysql_answer.
    destruct (map _ (filter _ recs)) as [|[c t] more]; cbn;
      do 2 eexists; repeat split.
Qed.

Lemma insertPing_leaves_the_records_witness :
  fst ((Mongo.insertPing "B" 2000 (Some 4) ;; Mongo.getRecord "A")
         Samples.mongo)
  = fst (Mongo.getRecord "A" Samples.mongo)
  /\ (exists w1 w2,
        (MySQL.insertPing "B" 2000 (Some 4) ;;
         MySQL.getRecord "A" MySQL.ReportRecord ;;
         MySQL.turns Scenario.toSeconds 2) Samples.mysql = (Ok tt, w1)
        /\ (MySQL.getRecord "A" MySQL.ReportRecord ;;
            MySQL.turns Scenario.toSeconds 1) Samples.mysql = (Ok tt, w2)
        /\ MySQL.reported w1 = MySQL.reported w2
        /\ MySQL.players_record (MySQL.server w1) = Some Samples.recorded).
Proof.
  split.
  - exact (proj1 (proj2 (insertPing_leaves_the_records "B" "A" 2000 (Some 4)))
             Samples.mongo eq_refl eq_refl).
  - exact (proj2 (proj2 (insertPing_leaves_the_records "B" "A" 2000 (Some 4)))
             Scenario.toSeconds Samples.mysql Scenario.window_pings
             Samples.recorded eq_refl eq_refl eq_refl eq_refl).
Defined.

(** ** Failures of the MongoDB driver *)

Lemma guarded_driver_fault {A} (op : Mongo.Db -> A * Mongo.Db) (msg : string)
  (w : Mongo.World) (e : Exn) (rest : list (option Exn)) :
  Mongo.connected w = true -> Mongo.faults w = Some e :: rest ->
  fails_with
    (try_catch (Mongo.driver op)
       (fun err => Mongo.logger_error msg ;; throw err)) w e rest.
Proof.
  intros Hc Hf. exists msg. unfold try_catch.
  now rewrite (MongoFacts.driver_fault op w e rest Hc Hf).
Qed.

(** X7: on the MongoDB back end a call the server refuses is logged once
    and raised again: [getRecentPings], [getRecord], [getRecordLegacy],
    [insertPing], [insertRecord], [updatePlayerCountRecord] and
    [deleteOldPings] throw the error of the server after one error entry
    in the log, and change nothing else. *)
Theorem mongo_failed_call_throws_and_logs (w : Mongo.World) (e : Exn)
  (rest : list (option Exn)) :
  Mongo.connected w = true -> Mongo.faults w = Some e :: rest ->
  (forall startTime endTime,
      fails_with (Mongo.getRecentPings startTime endTime) w e rest)
  /\ (forall ip, fails_with (Mongo.getRecord ip) w e rest)
  /\ (forall ip, fails_with (Mongo.getRecordLegacy ip) w e rest)
  /\ (forall ip timestamp count,
        fails_with (Mongo.insertPing ip timestamp count) w e rest)
  /\ (forall ip playerCount timestamp,
        fails_with (Mongo.insertRecord ip playerCount timestamp) w e rest)
  /\ (forall ip playerCount timestamp,
        fails_with (Mongo.updatePlayerCountRecord ip playerCount timestamp)
          w e rest)
  /\ fails_with Mongo.deleteOldPings w e rest.
Proof.
  intros Hc Hf.
  repeat split; intros; apply guarded_driver_fault; assumption.
Qed.

Lemma mongo_failed_call_throws_and_logs_witness :
  fails_with (Mongo.getRecord "A") Samples.mongo_refusing
    Scenario.lock_wait_timeout []
  /\ fails_with Mongo.deleteOldPings Samples.mongo_refusing
       Scenario.lock_wait_timeout [].
Proof.
  pose proof (mongo_failed_call_throws_and_logs Samples.mongo_refusing
                Scenario.lock_wait_timeout [] eq_refl eq_refl)
    as (_ & Hrecord & _ & _ & _ & _ & Hdelete).
  split; [exact (Hrecord "A")|exact Hdelete].
Defined.

Lemma guarded_driver_unconnected {A} (op : Mongo.Db -> A * Mongo.Db)
  (msg : string) (w : Mongo.World) :
  Mongo.connected w = false ->
  fails_unconnected
    (try_catch (Mongo.driver op)
       (fun err => Mongo.logger_error msg ;; throw err)) w.
Proof.
  intros Hc. exists msg. unfold try_catch, Mongo.driver. now rewrite Hc.
Qed.

(** X8: before [connect] the MongoDB back end refuses every call:
    [ensureIndexes] throws "Database connection not established" and
    changes nothing, the seven data calls log one error and throw a
    [TypeError], and a [connect] that returns leaves the back end
    connected. *)
Theorem mongo_before_connect (w : Mongo.World) :
  Mongo.connected w = false ->
  Mongo.ensureIndexes w
  = (Throw (Error "Database connection not established"), w)
  /\ (forall startTime endTime,
        fails_unconnected (Mongo.getRecentPings startTime endTime) w)
  /\ (forall ip, fails_unconnected (Mongo.getRecord ip) w)
  /\ (forall ip, fails_unconnected (Mongo.getRecordLegacy ip) w)
  /\ (forall ip timestamp count,
        fails_unconnected (Mongo.insertPing ip timestamp count) w)
  /\ (forall ip playerCount timestamp,
        fails_unconnected (Mongo.insertRecord ip playerCount timestamp) w)
  /\ (forall ip playerCount timestamp,
        fails_unconnected
          (Mongo.updatePlayerCountRecord ip playerCount timestamp) w)
  /\ fails_unconnected Mongo.deleteOldPings w
  /\ (forall w1, Mongo.connect w = (Ok tt, w1) -> Mongo.connected w1 = true).
Proof.
  intros Hc. split.
  { unfold Mongo.ensureIndexes, bind, get. now rewrite Hc. }
  repeat split; intros; try (apply guarded_driver_unconnected; assumption).
  match goal with H : Mongo.connect w = _ |- _ => revert H end.
  unfold Mongo.connect, try_catch.
  destruct (Mongo.faults w) as [|[e|] rest]; cbn; intros [= <-]; reflexivity.
Qed.

Lemma mongo_before_connect_witness :
  Mongo.ensureIndexes Samples.mongo_offline
  = (Throw (Error "Database connection not established"),
     Samples.mongo_offline)
  /\ fails_unconnected (Mongo.getRecord "A") Samples.mongo_offline.
Proof.
  pose proof (mongo_before_connect Samples.mongo_offline eq_refl)
    as (Hensure & _ & Hrecord & _).
  split; [exact Hensure|exact (Hrecord "A")].
Defined.

(** ** Creating the schema again *)

Lemma with_index_In (spec : Mongo.IndexSpec) (l : list Mongo.IndexSpec) :
  In spec (with_index spec l).
Proof.
  unfold with_index. destruct (in_dec _ spec l); [assumption|].
  apply in_or_app. right. now left.
Qed.

Lemma with_index_keeps (spec other : Mongo.IndexSpec)
  (l : list Mongo.IndexSpec) :
  In other l -> In other (with_index spec l).
Proof.
  unfold with_index. destruct (in_dec _ spec l); [auto|].
  intros H. apply in_or_app. now left.
Qed.

Lemma with_index_present (spec : Mongo.IndexSpec) (l : list Mongo.IndexSpec) :
  In spec l -> with_index spec l = l.
Proof.
  unfold with_index. destruct (in_dec _ spec l); [reflexivity|contradiction].
Qed.

Lemma createIndex_pings_ok (spec : Mongo.IndexSpec) (w : Mongo.World) :
  Mongo.connected w = true -> Mongo.faults w = [] ->
  Mongo.driver (Mongo.createIndex_pings spec) w
  = (Ok tt,
     Mongo.set_server
       (Mongo.mkDb (Mongo.pings (Mongo.server w))
          (Mongo.players_record (Mongo.server w))
          (with_index spec (Mongo.pings_indexes (Mongo.server w)))
          (Mongo.players_record_indexes (Mongo.server w))) w).
Proof.
  intros Hc Hf. rewrite MongoFacts.driver_ok by (rewrite ?Hf; auto).
  rewrite Hf. cbn [tl]. rewrite MongoFacts.set_faults_nil by assumption.
  unfold Mongo.createIndex_pings, with_index.
  destruct (in_dec Mongo.IndexSpec_eq_dec spec
              (Mongo.pings_indexes (Mongo.server w))); cbn [fst snd];
    [destruct (Mongo.server w)|]; reflexivity.
Qed.

Lemma createIndex_players_record_ok (spec : Mongo.IndexSpec)
  (w : Mongo.World) :
  Mongo.connected w = true -> Mongo.faults w = [] ->
  Mongo.driver (Mongo.createIndex_players_record spec) w
  = (Ok tt,
     Mongo.set_server
       (Mongo.mkDb (Mongo.pings (Mongo.server w))
          (Mongo.players_record (Mongo.server w))
          (Mongo.pings_indexes (Mongo.server w))
          (with_index spec (Mongo.players_record_indexes (Mongo.server w))))
       w).
Proof.
  intros Hc Hf. rewrite MongoFacts.driver_ok by (rewrite ?Hf; auto).
  rewrite Hf. cbn [tl]. rewrite MongoFacts.set_faults_nil by assumption.
  unfold Mongo.createIndex_players_record, with_index.
  destruct (in_dec Mongo.IndexSpec_eq_dec spec
              (Mongo.players_record_indexes (Mongo.server w))); cbn [fst snd];
    [destruct (Mongo.server w)|]; reflexivity.
Qed.

Lemma mongo_ensureIndexes_exact (w : Mongo.World) :
  Mongo.connected w = true -> Mongo.faults w = [] ->
  Mongo.ensureIndexes w
  = (Ok tt,
     Mongo.set_fired (Mongo.fired w ++ [EnsureIndexesCallback])
       (Mongo.set_server
          (Mongo.mkDb (Mongo.pings (Mongo.server w))
             (Mongo.players_record (Mongo.server w))
             (with_index [("timestamp", 1)]
                (with_index [("ip", 1); ("playerCount", 1)]
                   (Mongo.pings_indexes (Mongo.server w))))
             (with_index [("ip", 1)]
                (Mongo.players_record_indexes (Mongo.server w)))) w)).
Proof.
  intros Hc Hf. unfold Mongo.ensureIndexes. unfold bind at 1. unfold get.
  rewrite Hc. cbn [negb]. unfold try_catch.
  rewrite (bind_Ok _ _ _ _ _ (createIndex_pings_ok _ w Hc Hf)).
  set (w1 := Mongo.set_server _ w).
  rewrite (bind_Ok _ _ _ _ _ (createIndex_pings_ok _ w1 Hc Hf)).
  set (w2 := Mongo.set_server _ w1).
  rewrite (bind_Ok _ _ _ _ _ (createIndex_players_record_ok _ w2 Hc Hf)).
  destruct w; reflexivity.
Qed.

(** X9: on the MongoDB back end [ensureIndexes] can be run again: the
    second run leaves the store as the first left it; after the first the
    three indexes exist, the indexes and the documents that were there
    are kept, and each run calls the callback once. *)
Theorem mongo_ensureIndexes_again (w : Mongo.World) :
  Mongo.connected w = true -> Mongo.faults w = [] ->
  exists w1 w2,
    Mongo.ensureIndexes w = (Ok tt, w1)
    /\ Mongo.ensureIndexes w1 = (Ok tt, w2)
    /\ Mongo.server w2 = Mongo.server w1
    /\ In [("ip", 1); ("playerCount", 1)] (Mongo.pings_indexes (Mongo.server w1))
    /\ In [("timestamp", 1)] (Mongo.pings_indexes (Mongo.server w1))
    /\ In [("ip", 1)] (Mongo.players_record_indexes (Mongo.server w1))
    /\ (forall spec, In spec (Mongo.pings_indexes (Mongo.server w)) ->
                     In spec (Mongo.pings_indexes (Mongo.server w1)))
    /\ (forall spec, In spec (Mongo.players_record_indexes (Mongo.server w)) ->
                     In spec (Mongo.players_record_indexes (Mongo.server w1)))
    /\ Mongo.pings (Mongo.server w1) = Mongo.pings (Mongo.server w)
    /\ Mongo.players_record (Mongo.server w1)
       = Mongo.players_record (Mongo.server w)
    /\ Mongo.fired w2
       = Mongo.fired w ++ [EnsureIndexesCallback; EnsureIndexesCallback].
Proof.
  intros Hc Hf. do 2 eexists.
  split; [apply mongo_ensureIndexes_exact; assumption|].
  split; [apply mongo_ensureIndexes_exact; assumption|].
  cbn. split; [|repeat split].
  - f_equal.
    + rewrite (with_index_present [("ip", 1); ("playerCount", 1)])
        by apply with_index_keeps, with_index_In.
      apply with_index_present, with_index_In.
    + apply with_index_present, with_index_In.
  - apply with_index_keeps, with_index_In.
  - apply with_index_In.
  - apply with_index_In.
  - intros spec H. now apply with_index_keeps, with_index_keeps.
  - intros spec H. now apply with_index_keeps.
  - now rewrite <- app_assoc.
Qed.

Lemma mongo_ensureIndexes_again_witness :
  exists w1 w2,
    Mongo.ensureIndexes Samples.mongo = (Ok tt, w1)
    /\ Mongo.ensureIndexes w1 = (Ok tt, w2)
    /\ Mongo.server w2 = Mongo.server w1
    /\ Mongo.pings (Mongo.server w1) = Scenario.window_pings.
Proof.
  destruct (mongo_ensureIndexes_again Samples.mongo eq_refl eq_refl)
    as (w1 & w2 & E1 & E2 & Hs & _ & _ & _ & _ & _ & Hp & _).
  exists w1, w2. repeat split; assumption.
Defined.

Lemma mysql_ensureIndexes_faults (toSeconds : option Z -> option Z)
  (w : MySQL.World) :
  MySQL.queue w = [] -> MySQL.faults w = [] ->
  MySQL.faults (snd ((MySQL.ensureIndexes ;; MySQL.turns toSeconds 9) w)) = [].
Proof.
  intros Hq Hf.
  destruct w as [[p ih ii ti pr] f q lg regs tt0 ck cfg iv fr rp].
  cbn in Hq, Hf. subst q f.
  destruct p, ih, ii, ti, pr; vm_compute; reflexivity.
Qed.

(** X10: on the MySQL back end [ensureIndexes] calls its callback once
    before any statement was answered, with eight statements queued; when
    the nine statements are answered the callback has been called a
    second time, both tables, the column and both indexes exist and the
    rows are kept; a second run leaves the store as the first left
    it. *)
Theorem mysql_ensureIndexes_settles (toSeconds : option Z -> option Z)
  (w : MySQL.World) :
  MySQL.queue w = [] -> MySQL.faults w = [] ->
  let rows := match MySQL.pings (MySQL.server w) with
              | Some rows => rows | None => []
              end in
  let recs := match MySQL.players_record (MySQL.server w) with
              | Some recs => recs | None => []
              end in
  (exists w0,
      MySQL.ensureIndexes w = (Ok tt, w0)
      /\ MySQL.fired w0 = MySQL.fired w ++ [EnsureIndexesCallback]
      /\ List.length (MySQL.queue w0) = 8%nat
      /\ MySQL.server w0 = MySQL.server w)
  /\ (exists w1 w2,
        (MySQL.ensureIndexes ;; MySQL.turns toSeconds 9) w = (Ok tt, w1)
        /\ MySQL.queue w1 = []
        /\ MySQL.fired w1
           = MySQL.fired w ++ [EnsureIndexesCallback; EnsureIndexesCallback]
        /\ MySQL.server w1
           = MySQL.mkDb (Some rows) true true true (Some recs)
        /\ (MySQL.ensureIndexes ;; MySQL.turns toSeconds 9) w1 = (Ok tt, w2)
        /\ MySQL.server w2 = MySQL.server w1).
Proof.
  intros Hq Hf rows recs. split.
  - eexists. split; [reflexivity|]. cbn. rewrite Hq. repeat split.
  - destruct (MySQLFacts.ensureIndexes_answered toSeconds w Hq Hf)
      as (w1 & E1 & Q1 & F1 & P1 & R1 & A1 & B1 & C1).
    assert (Hf1 : MySQL.faults w1 = []).
    { pose proof (mysql_ensureIndexes_faults toSeconds w Hq Hf) as H.
      now rewrite E1 in H. }
    destruct (MySQLFacts.ensureIndexes_answered toSeconds w1 Q1 Hf1)
      as (w2 & E2 & _ & _ & P2 & R2 & A2 & B2 & C2).
    exists w1, w2. split; [exact E1|]. split; [exact Q1|]. split; [exact F1|].
    assert (S1 : MySQL.server w1
                 = MySQL.mkDb (Some rows) true true true (Some recs)).
    { subst rows recs. destruct (MySQL.server w1); cbn in *. congruence. }
    split; [exact S1|]. split; [exact E2|].
    rewrite S1 in P2, R2. rewrite S1.
    destruct (MySQL.server w2); cbn in *. congruence.
Qed.

Lemma mysql_ensureIndexes_settles_witness :
  exists w1 w2,
    (MySQL.ensureIndexes ;; MySQL.turns Scenario.toSeconds 9)
      Samples.mysql_empty = (Ok tt, w1)
    /\ MySQL.server w1 = MySQL.mkDb (Some []) true true true (Some [])
    /\ (MySQL.ensureIndexes ;; MySQL.turns Scenario.toSeconds 9) w1
       = (Ok tt, w2)
    /\ MySQL.server w2 = MySQL.server w1.
Proof.
  destruct (proj2 (mysql_ensureIndexes_settles Scenario.toSeconds
                     Samples.mysql_empty eq_refl eq_refl))
    as (w1 & w2 & E1 & _ & _ & S1 & E2 & S2).
  exists w1, w2. repeat split; assumption.
Defined.

(** ** A startup pass that fails *)

(** X11: a startup pass that fails schedules nothing.  On the MongoDB back
    end, when the first pass of [initOldPingsDelete] is refused by the
    server the error is raised, no timer is started, the callback is not
    called and the store is as before.  On the MySQL back end
    [deleteOldPings] throws a [TypeError] at [this._sql.prepare] on every
    call, whatever the server would answer: it sends no statement, and
    [initOldPingsDelete] therefore never starts a timer and never calls
    its callback. *)
Theorem failed_startup_prune_schedules_nothing :
  (forall (e : Exn) (rest : list (option Exn)) (w : Mongo.World),
      Mongo.connected w = true -> Mongo.faults w = Some e :: rest ->
      exists w',
        Mongo.initOldPingsDelete w = (Throw e, w')
        /\ Mongo.intervals w' = Mongo.intervals w
        /\ Mongo.fired w' = Mongo.fired w
        /\ Mongo.server w' = Mongo.server w)
  /\ (forall (k : option MySQL.DeleteOldPingsCallback) (w : MySQL.World),
        MySQL.deleteOldPings k w = (Throw TypeError, w))
  /\ (forall w : MySQL.World,
        exists w',
          MySQL.initOldPingsDelete w = (Throw TypeError, w')
          /\ MySQL.queue w' = MySQL.queue w
          /\ MySQL.intervals w' = MySQL.intervals w
          /\ MySQL.fired w' = MySQL.fired w
          /\ MySQL.server w' = MySQL.server w
          /\ MySQL.faults w' = MySQL.faults w).
Proof.
  split; [|split].
  - intros e rest w Hc Hf. destruct w as [d c f lg regs tt0 ck cfg iv fr].
    cbn in Hc, Hf. subst c f. eexists. split; [reflexivity|]. repeat split.
  - reflexivity.
  - intros w. eexists. split; [reflexivity|]. repeat split.
Qed.

Lemma failed_startup_prune_schedules_nothing_witness :
  (exists w',
      Mongo.initOldPingsDelete Samples.mongo_refusing
      = (Throw Scenario.lock_wait_timeout, w')
      /\ Mongo.intervals w' = [] /\ Mongo.fired w' = [])
  /\ (exists w',
        MySQL.initOldPingsDelete Samples.mysql = (Throw TypeError, w')
        /\ MySQL.intervals w' = [] /\ MySQL.fired w' = []).
Proof.
  split.
  - destruct (proj1 failed_startup_prune_schedules_nothing
                Scenario.lock_wait_timeout [] Samples.mongo_refusing
                eq_refl eq_refl) as (w' & E & Hi & Hfd & _).
    exists w'. repeat split; assumption.
  - destruct (proj2 (proj2 failed_startup_prune_schedules_nothing)
                Samples.mysql) as (w' & E & _ & Hi & Hfd & _).
    exists w'. repeat split; assumption.
Defined.

(** ** Grouping the rows of a window *)

Lemma append_row_key_list (row : Ping)
  (g : list (string * (list Z * list (option Z)))) :
  map fst (append_row row g)
  = if in_dec string_dec (ping_ip row) (map fst g)
    then map fst g else map fst g ++ [ping_ip row].
Proof.
  induction g as [|[k [ts vs]] g IH]; [reflexivity|].
  cbn [append_row map fst].
  destruct (String.eqb_spec k (ping_ip row)) as [E|Hne].
  - cbn [map fst].
    destruct (in_dec string_dec (ping_ip row) (k :: map fst g)) as [_|Hn];
      [reflexivity|]. exfalso. apply Hn. now left.
  - cbn [map fst]. rewrite IH.
    destruct (in_dec string_dec (ping_ip row) (map fst g)) as [Hin|Hn],
      (in_dec string_dec (ping_ip row) (k :: map fst g)) as [Hin'|Hn'];
      try reflexivity.
    + exfalso. apply Hn'. now right.
    + exfalso. destruct Hin' as [E|Hin']; [now apply Hne|now apply Hn].
Qed.

Lemma append_row_entries (row : Ping)
  (g : list (string * (list Z * list (option Z)))) (k : string)
  (ts : list Z) (vs : list (option Z)) :
  NoDup (map fst g) ->
  In (k, (ts, vs)) (append_row row g) ->
  (k <> ping_ip row /\ In (k, (ts, vs)) g)
  \/ (k = ping_ip row
      /\ ((exists ts0 vs0,
             In (k, (ts0, vs0)) g
             /\ ts = ts0 ++ [ping_timestamp row]
             /\ vs = vs0 ++ [ping_playerCount row])
          \/ (~ In k (map fst g)
              /\ ts = [ping_timestamp row] /\ vs = [ping_playerCount row]))).
Proof.
  induction g as [|[k0 [ts0 vs0]] g IH]; intros Hnd Hin.
  - destruct Hin as [[= <- <- <-]|[]]. right. split; [reflexivity|].
    right. repeat split. intros [].
  - cbn [map fst] in Hnd. apply NoDup_cons_iff in Hnd as [Hk0 Hnd].
    cbn [append_row] in Hin.
    destruct (String.eqb_spec k0 (ping_ip row)) as [E|Hne].
    + destruct Hin as [[= <- <- <-]|Hin].
      * right. split; [exact E|]. left. exists ts0, vs0.
        split; [now left|split; reflexivity].
      * left. split; [|now right]. intros ->. apply Hk0.
        rewrite E. apply in_map_iff. now exists (ping_ip row, (ts, vs)).
    + destruct Hin as [[= <- <- <-]|Hin].
      * left. split; [exact Hne|now left].
      * destruct (IH Hnd Hin) as [[A B]|[A [(t1 & v1 & B & C & D)|(B & C & D)]]].
        -- left. split; [exact A|now right].
        -- right. split; [exact A|]. left. exists t1, v1.
           split; [now right|split; assumption].
        -- right. split; [exact A|]. right. split; [|split; assumption].
           intros [E|Hin']; [cbn in E; apply Hne; congruence|now apply B].
Qed.

Lemma rows_of_app (ip : string) (l1 l2 : list Ping) :
  rows_of ip (l1 ++ l2) = rows_of ip l1 ++ rows_of ip l2.
Proof. apply filter_app. Qed.

Lemma rows_of_none (ip : string) (l : list Ping) :
  (forall row, In row l -> ping_ip row <> ip) -> rows_of ip l = [].
Proof.
  induction l as [|r l IH]; intros H; [reflexivity|]. cbn.
  destruct (String.eqb_spec (ping_ip r) ip) as [E|_].
  - exfalso. apply (H r); [now left|exact E].
  - apply IH. intros row Hr. apply H. now right.
Qed.

Lemma append_row_groups_of (row : Ping) (seen : list Ping)
  (g : list (string * (list Z * list (option Z)))) :
  groups_of seen g -> groups_of (seen ++ [row]) (append_row row g).
Proof.
  intros (Hnd & Hent & Hkeys). split; [|split].
  - rewrite append_row_key_list.
    destruct (in_dec string_dec (ping_ip row) (map fst g)) as [_|Hn];
      [exact Hnd|].
    apply NoDup_app; repeat split; auto.
    + constructor; [intros []|constructor].
    + intros x Hx [<-|[]]. now apply Hn.
  - intros k ts vs Hin. rewrite rows_of_app.
    destruct (append_row_entries row g k ts vs Hnd Hin)
      as [[A B]|[A [(t1 & v1 & B & C & D)|(B & C & D)]]].
    + destruct (Hent k ts vs B) as (E1 & E2 & E3).
      assert (Hr : rows_of k [row] = []).
      { cbn. destruct (String.eqb_spec (ping_ip row) k); [congruence|easy]. }
      rewrite Hr, app_nil_r. auto.
    + destruct (Hent k t1 v1 B) as (E1 & E2 & E3).
      assert (Hr : rows_of k [row] = [row]).
      { cbn. destruct (String.eqb_spec (ping_ip row) k); [easy|congruence]. }
      rewrite Hr, !map_app, <- E1, <- E2. cbn. repeat split; auto.
      intros H. now apply app_eq_nil in H as [_ H].
    + assert (Hs : rows_of k seen = []).
      { apply rows_of_none. intros r Hr E. apply B. rewrite <- E.
        now apply Hkeys. }
      assert (Hr : rows_of k [row] = [row]).
      { cbn. destruct (String.eqb_spec (ping_ip row) k); [easy|congruence]. }
      rewrite Hs, Hr. cbn. repeat split; auto. discriminate.
  - intros r Hr. rewrite append_row_key_list.
    destruct (in_dec string_dec (ping_ip row) (map fst g)) as [Hin|Hn].
    + apply in_app_or in Hr as [Hr|[<-|[]]]; [now apply Hkeys|exact Hin].
    + apply in_or_app.
      apply in_app_or in Hr as [Hr|[<-|[]]];
        [left; now apply Hkeys|right; now left].
Qed.

Lemma fold_groups_of (l : list Ping) :
  forall (seen : list Ping) (g : list (string * (list Z * list (option Z)))),
  groups_of seen g ->
  groups_of (seen ++ l) (fold_left (fun g row => append_row row g) l g).
Proof.
  induction l as [|row l IH]; intros seen g H; cbn.
  - now rewrite app_nil_r.
  - replace (seen ++ row :: l) with ((seen ++ [row]) ++ l)
      by (now rewrite <- app_assoc).
    apply IH, append_row_groups_of, H.
Qed.

(** The properties a loop that returned has created. *)
Lemma group_rows_groups (h : Holder) (rows : list Ping)
  (g : list (string * (list Z * list (option Z)))) :
  group_rows h rows [] = inr g ->
  NoDup (map fst g)
  /\ (forall k ts vs, In (k, (ts, vs)) g ->
        ts = map ping_timestamp (rows_of k rows)
        /\ vs = map ping_playerCount (rows_of k rows)
        /\ List.length ts = List.length vs
        /\ ts <> [])
  /\ (forall row, In row rows ->
        exists ts vs, In (ping_ip row, (ts, vs)) g).
Proof.
  intros Hg. rewrite (JsFacts.group_rows_inr h rows [] g Hg).
  assert (H : groups_of rows
                (fold_left (fun g row => append_row row g) rows [])).
  { apply (fold_groups_of rows [] []). split; [constructor|].
    split; [intros k ts vs []|intros row []]. }
  destruct H as (Hnd & Hent & Hkeys). split; [exact Hnd|]. split.
  - intros k ts vs Hin. destruct (Hent k ts vs Hin) as (E1 & E2 & E3).
    repeat split; auto.
    + rewrite E1, E2, !length_map. reflexivity.
    + rewrite E1. intros H. apply E3. now apply map_eq_nil in H.
  - intros row Hr. specialize (Hkeys row Hr).
    apply in_map_iff in Hkeys as ([k [ts vs]] & E & Hin). cbn in E. subst k.
    now exists ts, vs.
Qed.

Lemma append_row_head (row : Ping)
  (g : list (string * (list Z * list (option Z)))) (k : string) :
  option_map fst (hd_error g) = Some k ->
  option_map fst (hd_error (append_row row g)) = Some k.
Proof.
  destruct g as [|[k0 [ts vs]] g]; [discriminate|]. cbn.
  now destruct (String.eqb k0 (ping_ip row)).
Qed.

Lemma fold_group_head (l : list Ping) :
  forall (g : list (string * (list Z * list (option Z)))) (k : string),
  option_map fst (hd_error g) = Some k ->
  option_map fst
    (hd_error (fold_left (fun g row => append_row row g) l g)) = Some k.
Proof.
  induction l as [|row l IH]; intros g k H; [exact H|].
  cbn. apply IH, append_row_head, H.
Qed.

(** The property created first is the one of the first row. *)
Lemma group_rows_first (h : Holder) (row : Ping) (rows : list Ping)
  (g : list (string * (list Z * list (option Z)))) :
  group_rows h (row :: rows) [] = inr g ->
  option_map fst (hd_error g) = Some (ping_ip row).
Proof.
  intros Hg. rewrite (JsFacts.group_rows_inr h _ [] g Hg). cbn.
  now apply fold_group_head.
Qed.

(** The first key of [Object.keys] is the axis service, and it holds the
    timestamps of its rows. *)
Lemma group_rows_axis (h : Holder) (window : list Ping)
  (g : list (string * (list Z * list (option Z))))
  (e0 : string * (list Z * list (option Z))) :
  group_rows h window [] = inr g ->
  hd_error (object_keys g) = Some e0 ->
  axis_service window (fst e0)
  /\ fst (snd e0) = map ping_timestamp (rows_of (fst e0) window).
Proof.
  intros Hg H0.
  destruct (group_rows_groups h window g Hg) as (Hnd & Hent & Hkeys).
  destruct (JsFacts.object_keys_head g e0 H0) as [Hin Hmin].
  destruct e0 as [k [ts vs]]. cbn [fst snd] in *.
  destruct (Hent k ts vs Hin) as (E1 & E2 & _ & Hne).
  split; [|exact E1].
  unfold axis_service. split.
  - destruct (rows_of k window) as [|m mine] eqn:Er;
      [subst ts; now elim Hne|].
    assert (Hm : In m (rows_of k window)) by (rewrite Er; now left).
    apply filter_In in Hm as [Hm Hip]. apply String.eqb_eq in Hip.
    apply in_map_iff. now exists m.
  - destruct (array_index k) as [n|].
    + intros row m Hrow Hm.
      destruct (Hkeys row Hrow) as (ts' & vs' & Hin').
      exact (Hmin _ m Hin' Hm).
    + destruct Hmin as [Hnone Hhd]. split.
      * intros row Hrow.
        destruct (Hkeys row Hrow) as (ts' & vs' & Hin').
        exact (Hnone _ Hin').
      * destruct window as [|row window].
        { cbn in Hg. injection Hg as <-. destruct Hin. }
        pose proof (group_rows_first h row window g Hg) as Hf.
        rewrite Hhd in Hf. cbn in Hf. cbn. now injection Hf as ->.
Qed.

Lemma axis_of_keys (h : Holder) (startTime : Z) (window : list Ping)
  (g : list (string * (list Z * list (option Z))))
  (before : option (Z * list Z)) :
  group_rows h window [] = inr g ->
  with_axis startTime window before
    match object_keys g with
    | (_, (timestamps, _)) :: _ => Some (startTime, timestamps)
    | [] => before
    end.
Proof.
  intros Hg.
  destruct (object_keys g) as [|[k [ts vs]] t] eqn:Eo.
  - pose proof (JsFacts.object_keys_perm g) as P. rewrite Eo in P.
    apply Permutation_nil in P. subst g.
    destruct window as [|row window]; [reflexivity|].
    destruct (group_rows_groups h _ [] Hg) as (_ & _ & Hkeys).
    destruct (Hkeys row (or_introl eq_refl)) as (ts & vs & []).
  - destruct window as [|row window].
    { cbn in Hg. injection Hg as <-. discriminate. }
    destruct (group_rows_axis h _ g (k, (ts, vs)) Hg) as [Hax Hts];
      [now rewrite Eo|].
    exists k. split; [exact Hax|]. cbn in Hts. now rewrite Hts.
Qed.

(** X12: the grouping of [loadGraphPoints], for the properties of a plain
    object (MongoDB) or of an array (MySQL).  When no address among the
    rows is a name the holder inherits, or the [length] of an array, the
    loop returns one group for each address among the rows: the
    timestamps and the player counts of a group are those of the rows of
    its address, in the order of the rows, so both sequences have the
    same length and are not empty; no address has two groups;
    [Object.keys] lists these groups, each once, and the first it lists
    is the axis service.  When an address among the rows is such a name,
    the loop throws, a [TypeError] for a plain object. *)
Theorem grouped_rows_follow_the_rows (h : Holder) (rows : list Ping) :
  ((forall row, In row rows -> reserved h (ping_ip row) = false) ->
   exists g,
     group_rows h rows [] = inr g
     /\ NoDup (map fst g)
     /\ (forall k ts vs, In (k, (ts, vs)) g ->
           ts = map ping_timestamp (rows_of k rows)
           /\ vs = map ping_playerCount (rows_of k rows)
           /\ List.length ts = List.length vs
           /\ ts <> [])
     /\ (forall row, In row rows ->
           exists ts vs, In (ping_ip row, (ts, vs)) g)
     /\ Permutation (object_keys g) g
     /\ (forall e, hd_error (object_keys g) = Some e ->
           axis_service rows (fst e)))
  /\ ((exists row, In row rows /\ reserved h (ping_ip row) = true) ->
      exists e,
        group_rows h rows [] = inl e /\ (h = PlainObject -> e = TypeError)).
Proof.
  split.
  - intros Hres. eexists.
    split; [exact (JsFacts.group_rows_plain h rows [] Hres)|].
    pose proof (JsFacts.group_rows_plain h rows [] Hres) as Hg.
    destruct (group_rows_groups h rows _ Hg) as (Hnd & Hent & Hkeys).
    split; [exact Hnd|]. split; [exact Hent|]. split; [exact Hkeys|].
    split; [apply JsFacts.object_keys_perm|].
    intros e He. exact (proj1 (group_rows_axis h rows _ e Hg He)).
  - intros Hbad. apply JsFacts.group_rows_reserved; [intros k []|exact Hbad].
Qed.

Lemma grouped_rows_follow_the_rows_witness :
  (exists g,
      group_rows ArrayObject Samples.numbered_pings [] = inr g
      /\ NoDup (map fst g)
      /\ Permutation (object_keys g) g)
  /\ (exists e,
        group_rows PlainObject Samples.inherited_pings [] = inl e
        /\ (PlainObject = PlainObject -> e = TypeError)).
Proof.
  split.
  - destruct (proj1 (grouped_rows_follow_the_rows ArrayObject
                       Samples.numbered_pings))
      as (g & Hg & Hnd & _ & _ & Hperm & _).
    + intros row [<-|[<-|[]]]; reflexivity.
    + exists g. split; [exact Hg|]. split; [exact Hnd|exact Hperm].
  - apply (proj2 (grouped_rows_follow_the_rows PlainObject
                    Samples.inherited_pings)).
    exists (mkPing 2000 "constructor" (Some 6)).
    split; [right; now left|reflexivity].
Defined.

(** ** Handing the groups to the registrations *)

Lemma deliver_nth (startTime : Z) (ip : string) (ts : list Z)
  (vs : list (option Z)) (regs : list ServerRegistration) :
  forall (j : nat) (r : ServerRegistration),
  nth_error regs j = Some r ->
  nth_error (deliver startTime ip ts vs regs) j
  = Some (if String.eqb (data_ip r) ip && first_for ip regs j
          then set_graphPoints (startTime, ts, vs) r else r).
Proof.
  unfold first_for.
  induction regs as [|r0 regs IH]; intros [|j] r H; try discriminate.
  - injection H as ->. cbn.
    destruct (String.eqb (data_ip r) ip); reflexivity.
  - cbn [deliver]. cbn [nth_error] in H. cbn [firstn existsb].
    destruct (String.eqb (data_ip r0) ip) eqn:E0.
    + cbn [nth_error orb negb]. rewrite H, andb_false_r. reflexivity.
    + cbn [nth_error orb]. now apply IH.
Qed.

Lemma deliver_data_ip (startTime : Z) (ip : string) (ts : list Z)
  (vs : list (option Z)) (regs : list ServerRegistration) :
  map data_ip (deliver startTime ip ts vs regs) = map data_ip regs.
Proof.
  induction regs as [|r0 regs IH]; [reflexivity|]. cbn [deliver].
  destruct (String.eqb (data_ip r0) ip); cbn; [reflexivity|now rewrite IH].
Qed.

Lemma deliver_all_length (startTime : Z)
  (g : list (string * (list Z * list (option Z)))) :
  forall regs : list ServerRegistration,
  List.length (deliver_all startTime g regs) = List.length regs.
Proof.
  unfold deliver_all.
  induction g as [|[k [ts vs]] g IH]; intros regs; [reflexivity|].
  cbn [fold_left fst snd]. rewrite IH.
  rewrite <- (length_map data_ip), deliver_data_ip. apply length_map.
Qed.

Lemma first_for_data_ip (ip : string) (regs regs' : list ServerRegistration)
  (j : nat) :
  map data_ip regs = map data_ip regs' ->
  first_for ip regs j = first_for ip regs' j.
Proof.
  unfold first_for. revert regs' j.
  induction regs as [|r regs IH]; intros [|r' regs'] j H; try discriminate;
    [reflexivity|].
  injection H as Hr H. destruct j as [|j]; [reflexivity|].
  cbn [firstn existsb]. rewrite Hr. f_equal.
  specialize (IH regs' j H). apply (f_equal negb) in IH.
  rewrite !negb_involutive in IH. now rewrite IH.
Qed.

Lemma group_for_absent (g : list (string * (list Z * list (option Z))))
  (ip : string) :
  ~ In ip (map fst g) -> group_for g ip = None.
Proof.
  unfold group_for. induction g as [|e g IH]; intros H; [reflexivity|].
  cbn [find]. destruct (String.eqb_spec (fst e) ip) as [E|_].
  - exfalso. apply H. now left.
  - apply IH. intros Hin. apply H. now right.
Qed.

Lemma deliver_all_nth (startTime : Z)
  (g : list (string * (list Z * list (option Z)))) :
  NoDup (map fst g) ->
  forall (regs : list ServerRegistration) (j : nat) (r : ServerRegistration),
  nth_error regs j = Some r ->
  nth_error (deliver_all startTime g regs) j
  = Some (delivered startTime g regs j r).
Proof.
  unfold deliver_all.
  induction g as [|[k [ts vs]] g IH]; intros Hnd regs j r Hr; [exact Hr|].
  cbn [map fst] in Hnd. apply NoDup_cons_iff in Hnd as [Hk Hnd].
  cbn [fold_left fst snd].
  rewrite (IH Hnd _ j _ (deliver_nth startTime k ts vs regs j r Hr)).
  f_equal. unfold delivered, group_for. cbn [find fst].
  destruct (String.eqb_spec (data_ip r) k) as [E|Hne].
  - rewrite <- E, String.eqb_refl. cbn [andb].
    assert (Hnone : group_for g (data_ip r) = None)
      by (apply group_for_absent; now rewrite E).
    unfold group_for in Hnone.
    destruct (first_for (data_ip r) regs j); cbn [data_ip set_graphPoints];
      now rewrite Hnone.
  - cbn [andb].
    destruct (String.eqb_spec k (data_ip r)) as [E|_]; [congruence|].
    rewrite (first_for_data_ip (data_ip r) _ regs j
               (deliver_data_ip startTime k ts vs regs)).
    reflexivity.
Qed.

Lemma object_keys_NoDup (h : Holder) (window : list Ping)
  (g : list (string * (list Z * list (option Z)))) :
  group_rows h window [] = inr g -> NoDup (map fst (object_keys g)).
Proof.
  intros Hg. destruct (group_rows_groups h window g Hg) as (Hnd & _).
  apply (Permutation_NoDup
           (Permutation_map fst
              (Permutation_sym (JsFacts.object_keys_perm g))) Hnd).
Qed.

Lemma group_for_rows (h : Holder) (window : list Ping)
  (g : list (string * (list Z * list (option Z)))) (ip : string) :
  group_rows h window [] = inr g ->
  group_for (object_keys g) ip
  = match rows_of ip window with
    | [] => None
    | mine => Some (ip, (map ping_timestamp mine, map ping_playerCount mine))
    end.
Proof.
  intros Hg.
  destruct (group_rows_groups h window g Hg) as (Hnd & Hent & Hkeys).
  unfold group_for.
  destruct (find (fun e => String.eqb (fst e) ip) (object_keys g))
    as [[k [ts vs]]|] eqn:Ef.
  - apply find_some in Ef as [Hin Hk]. cbn in Hk.
    apply String.eqb_eq in Hk. subst k.
    apply (proj1 (JsFacts.object_keys_In _ _)) in Hin.
    destruct (Hent ip ts vs Hin) as (E1 & E2 & _ & Hne).
    destruct (rows_of ip window) as [|m mine];
      [now rewrite E1 in Hne|]. now rewrite E1, E2.
  - destruct (rows_of ip window) as [|m mine] eqn:Er; [reflexivity|].
    assert (Hm : In m (rows_of ip window)) by (rewrite Er; now left).
    apply filter_In in Hm as [Hm Hip]. apply String.eqb_eq in Hip.
    destruct (Hkeys m Hm) as (ts & vs & Hin).
    apply (proj2 (JsFacts.object_keys_In _ _)) in Hin.
    apply (find_none _ _ Ef) in Hin. cbn in Hin.
    rewrite Hip, String.eqb_refl in Hin. discriminate.
Qed.

Lemma delivered_with_points (h : Holder) (startTime : Z)
  (window : list Ping) (g : list (string * (list Z * list (option Z))))
  (regs : list ServerRegistration) (j : nat) (r : ServerRegistration) :
  group_rows h window [] = inr g ->
  delivered startTime (object_keys g) regs j r
  = with_points startTime window regs j r.
Proof.
  intros Hg. unfold delivered, with_points.
  rewrite (group_for_rows h window g _ Hg).
  now destruct (rows_of (data_ip r) window).
Qed.

(** X13: when no address among the pings of the window is a name the
    holder of the groups inherits, or the [length] of an array,
    [loadGraphPoints] returns and hands the points of an address to the
    first registration with that address and to no other: a registration
    whose address has no row in the window, or which comes after another
    registration of its address, is left as it was, and the first one gets
    the start of the window with the timestamps and counts of the rows of
    its address, in the order in which the query returned them; on both
    back ends. *)
Theorem graph_points_go_to_the_first_registration (graphDuration : Z) :
  (forall (w : Mongo.World) (j : nat) (r : ServerRegistration),
      Mongo.connected w = true -> Mongo.faults w = [] ->
      (forall row,
          In row (filter (between (Mongo.clock w - graphDuration)
                            (Mongo.clock w))
                    (Mongo.pings (Mongo.server w))) ->
          reserved PlainObject (ping_ip row) = false) ->
      nth_error (Mongo.serverRegistrations w) j = Some r ->
      exists w',
        Mongo.loadGraphPoints graphDuration w = (Ok tt, w')
        /\ nth_error (Mongo.serverRegistrations w') j
           = Some (with_points (Mongo.clock w - graphDuration)
                     (filter (between (Mongo.clock w - graphDuration)
                                (Mongo.clock w))
                        (Mongo.pings (Mongo.server w)))
                     (Mongo.serverRegistrations w) j r)
        /\ List.length (Mongo.serverRegistrations w')
           = List.length (Mongo.serverRegistrations w))
  /\ (forall (toSeconds : option Z -> option Z) (w : MySQL.World)
             (rows : list Ping) (j : nat) (r : ServerRegistration),
        MySQL.queue w = [] -> MySQL.faults w = [] ->
        MySQL.pings (MySQL.server w) = Some rows ->
        (forall row,
            In row (filter (between (MySQL.clock w - graphDuration)
                              (MySQL.clock w)) rows) ->
            reserved ArrayObject (ping_ip row) = false) ->
        nth_error (MySQL.serverRegistrations w) j = Some r ->
        exists w',
          (MySQL.loadGraphPoints graphDuration ;; MySQL.turns toSeconds 1) w
          = (Ok tt, w')
          /\ nth_error (MySQL.serverRegistrations w') j
             = Some (with_points (MySQL.clock w - graphDuration)
                       (filter (between (MySQL.clock w - graphDuration)
                                  (MySQL.clock w)) rows)
                       (MySQL.serverRegistrations w) j r)
          /\ List.length (MySQL.serverRegistrations w')
             = List.length (MySQL.serverRegistrations w)).
Proof.
  split.
  - intros w j r Hc Hf Hres Hr.
    pose proof (JsFacts.group_rows_plain PlainObject _ [] Hres) as Hg.
    assert (Hf' : next_ok (Mongo.faults w) = true) by now rewrite Hf.
    destruct (MongoFacts.loadGraphPoints_ok graphDuration w _ Hc Hf' Hg)
      as (w' & E & R & _).
    exists w'. split; [exact E|]. rewrite R.
    split; [|apply deliver_all_length].
    rewrite (deliver_all_nth _ _ (object_keys_NoDup _ _ _ Hg) _ j r Hr).
    now rewrite (delivered_with_points PlainObject _ _ _ _ j r Hg).
  - intros toSeconds w rows j r Hq Hf Hp Hres Hr.
    pose proof (JsFacts.group_rows_plain ArrayObject _ [] Hres) as Hg.
    destruct (MySQLFacts.loadGraphPoints_answered toSeconds graphDuration w
                rows _ Hq Hf Hp Hg) as (w' & E & R & _).
    exists w'. split; [exact E|]. rewrite R.
    split; [|apply deliver_all_length].
    rewrite (deliver_all_nth _ _ (object_keys_NoDup _ _ _ Hg) _ j r Hr).
    now rewrite (delivered_with_points ArrayObject _ _ _ _ j r Hg).
Qed.

Lemma graph_points_go_to_the_first_registration_witness :
  (exists w',
      Mongo.loadGraphPoints 2000 Samples.mongo = (Ok tt, w')
      /\ nth_error (Mongo.serverRegistrations w') 0
         = Some (set_graphPoints (1000, [1000], [Some 5])
                   (Scenario.registration "A")))
  /\ (exists w',
        (MySQL.loadGraphPoints 2000 ;; MySQL.turns Scenario.toSeconds 1)
          Samples.mysql = (Ok tt, w')
        /\ nth_error (MySQL.serverRegistrations w') 2
           = Some (Scenario.registration "A")).
Proof.
  split.
  - destruct (proj1 (graph_points_go_to_the_first_registration 2000)
                Samples.mongo 0%nat (Scenario.registration "A")
                eq_refl eq_refl) as (w' & E & Hr & _).
    + intros row [<-|[<-|[]]]; reflexivity.
    + reflexivity.
    + exists w'. split; [exact E|]. rewrite Hr. reflexivity.
  - destruct (proj2 (graph_points_go_to_the_first_registration 2000)
                Scenario.toSeconds Samples.mysql Scenario.window_pings 2%nat
                (Scenario.registration "A") eq_refl eq_refl eq_refl)
      as (w' & E & Hr & _).
    + intros row [<-|[<-|[]]]; reflexivity.
    + reflexivity.
    + exists w'. split; [exact E|]. rewrite Hr. reflexivity.
Defined.

(** X14: when no address among the pings of the window is a name the
    holder of the groups inherits, or the [length] of an array,
    [loadGraphPoints] returns and sets the time axis from the first key
    that [Object.keys] lists: the time tracker gets the start of the
    window and the timestamps of the rows of the axis service, which is an
    address with the least array index when an address of the window is
    an array index, and the address of the first row the query returned
    when none is; with no row in the window the time tracker is left as
    it was; the callback is called once and the store is not changed; on
    both back ends. *)
Theorem time_axis_is_the_first_service (graphDuration : Z) :
  (forall w : Mongo.World,
      Mongo.connected w = true -> Mongo.faults w = [] ->
      (forall row,
          In row (filter (between (Mongo.clock w - graphDuration)
                            (Mongo.clock w))
                    (Mongo.pings (Mongo.server w))) ->
          reserved PlainObject (ping_ip row) = false) ->
      exists w',
        Mongo.loadGraphPoints graphDuration w = (Ok tt, w')
        /\ with_axis (Mongo.clock w - graphDuration)
             (filter (between (Mongo.clock w - graphDuration) (Mongo.clock w))
                (Mongo.pings (Mongo.server w)))
             (Mongo.timeTracker w) (Mongo.timeTracker w')
        /\ Mongo.fired w' = Mongo.fired w ++ [LoadGraphPointsCallback]
        /\ Mongo.server w' = Mongo.server w)
  /\ (forall (toSeconds : option Z -> option Z) (w : MySQL.World)
             (rows : list Ping),
        MySQL.queue w = [] -> MySQL.faults w = [] ->
        MySQL.pings (MySQL.server w) = Some rows ->
        (forall row,
            In row (filter (between (MySQL.clock w - graphDuration)
                              (MySQL.clock w)) rows) ->
            reserved ArrayObject (ping_ip row) = false) ->
        exists w',
          (MySQL.loadGraphPoints graphDuration ;; MySQL.turns toSeconds 1) w
          = (Ok tt, w')
          /\ with_axis (MySQL.clock w - graphDuration)
               (filter (between (MySQL.clock w - graphDuration)
                          (MySQL.clock w)) rows)
               (MySQL.timeTracker w) (MySQL.timeTracker w')
          /\ MySQL.fired w' = MySQL.fired w ++ [LoadGraphPointsCallback]
          /\ MySQL.server w' = MySQL.server w).
Proof.
  split.
  - intros w Hc Hf Hres.
    pose proof (JsFacts.group_rows_plain PlainObject _ [] Hres) as Hg.
    assert (Hf' : next_ok (Mongo.faults w) = true) by now rewrite Hf.
    destruct (MongoFacts.loadGraphPoints_ok graphDuration w _ Hc Hf' Hg)
      as (w' & E & _ & S & F & T).
    exists w'. split; [exact E|]. split; [|split; assumption].
    rewrite T. exact (axis_of_keys PlainObject _ _ _ _ Hg).
  - intros toSeconds w rows Hq Hf Hp Hres.
    pose proof (JsFacts.group_rows_plain ArrayObject _ [] Hres) as Hg.
    destruct (MySQLFacts.loadGraphPoints_answered toSeconds graphDuration w
                rows _ Hq Hf Hp Hg) as (w' & E & _ & F & _ & S & T).
    exists w'. split; [exact E|]. split; [|split; assumption].
    rewrite T. exact (axis_of_keys ArrayObject _ _ _ _ Hg).
Qed.

Lemma time_axis_is_the_first_service_witness :
  (exists w',
      Mongo.loadGraphPoints 2000 Samples.mongo_numbered = (Ok tt, w')
      /\ Mongo.timeTracker w' = Some (1000, [2000]))
  /\ (exists w',
        (MySQL.loadGraphPoints 2000 ;; MySQL.turns Scenario.toSeconds 1)
          Samples.mysql = (Ok tt, w')
        /\ MySQL.timeTracker w' = Some (1000, [1000])).
Proof.
  split.
  - destruct (proj1 (time_axis_is_the_first_service 2000)
                Samples.mongo_numbered eq_refl eq_refl)
      as (w' & E & (ip & (Hin & Hax) & Ht) & _).
    + intros row [<-|[<-|[]]]; reflexivity.
    + exists w'. split; [exact E|]. rewrite Ht.
      destruct Hin as [<-|[<-|[]]].
      * destruct Hax as [Hax _].
        discriminate (Hax (mkPing 2000 "1" (Some 6))
                        (or_intror (or_introl eq_refl))).
      * reflexivity.
  - destruct (proj2 (time_axis_is_the_first_service 2000) Scenario.toSeconds
                Samples.mysql Scenario.window_pings eq_refl eq_refl eq_refl)
      as (w' & E & (ip & (Hin & Hax) & Ht) & _).
    + intros row [<-|[<-|[]]]; reflexivity.
    + exists w'. split; [exact E|]. rewrite Ht.
      destruct Hin as [<-|[<-|[]]]; [reflexivity|].
      destruct Hax as [_ Hax]. discriminate Hax.
Defined.

(** ** A refresh of the records on the MongoDB back end *)


Lemma find_app_some {A} (f : A -> bool) (l a : list A) (x : A) :
  find f l = Some x -> find f (l ++ a) = Some x.
Proof.
  induction l as [|y l IH]; [discriminate|]. cbn.
  destruct (f y); [auto|exact IH].
Qed.

Lemma find_app_none {A} (f : A -> bool) (l a : list A) :
  find f l = None -> find f (l ++ a) = find f a.
Proof.
  induction l as [|y l IH]; [reflexivity|]. cbn.
  destruct (f y); [discriminate|exact IH].
Qed.

Lemma legacy_row_pings (d d' : Mongo.Db) (ip : string) :
  Mongo.pings d' = Mongo.pings d -> legacy_row d' ip = legacy_row d ip.
Proof.
  intros H. unfold legacy_row, Mongo.findOne_pings_sorted. rewrite H.
  now destruct (filter _ (Mongo.pings d)).
Qed.

Lemma with_records_nil (d : Mongo.Db) : with_records [] d = d.
Proof. destruct d. unfold with_records. cbn. now rewrite app_nil_r. Qed.

Lemma with_records_app (a b : list PlayersRecord) (d : Mongo.Db) :
  with_records b (with_records a d) = with_records (a ++ b) d.
Proof. unfold with_records. cbn. now rewrite app_assoc. Qed.

Section MongoRefresh.

Variable toSeconds : option Z -> option Z.

Lemma mongo_turn_absent (i : nat) (ip : string) (c : nat) (w : Mongo.World) :
  Mongo.connected w = true -> Mongo.faults w = [] ->
  find (fun r => String.eqb (record_ip r) ip)
    (Mongo.players_record (Mongo.server w)) = None ->
  exists w',
    Mongo.loadRecords_turn toSeconds i ip c w = (Ok (S c), w')
    /\ Mongo.server w'
       = with_records [legacy_row (Mongo.server w) ip] (Mongo.server w)
    /\ Mongo.serverRegistrations w'
       = update_nth i
           (set_recordData
              (mkRecordData (record_playerCount (legacy_row (Mongo.server w) ip))
                 (toSeconds
                    (record_timestamp (legacy_row (Mongo.server w) ip)))))
           (update_nth i findNewGraphPeak (Mongo.serverRegistrations w))
    /\ Mongo.connected w' = true /\ Mongo.faults w' = [].
Proof.
  intros Hc Hf Hnone.
  unfold Mongo.loadRecords_turn, Mongo.modify_registration.
  rewrite bind_modify. unfold try_catch, Mongo.loadRecords_try.
  set (w0 := Mongo.set_serverRegistrations _ w).
  rewrite (bind_Ok _ _ _ _ _ (MongoFacts.getRecord_ok ip w0 Hc Hf)).
  change (Mongo.server w0) with (Mongo.server w). rewrite Hnone.
  cbv beta iota.
  set (legacy := fst (Mongo.findOne_pings_sorted ip (Mongo.server w))).
  set (newTimestamp := option_map ping_timestamp legacy).
  set (newPlayerCount :=
         match legacy with Some l => ping_playerCount l | None => None end).
  set (w3 := Mongo.set_serverRegistrations
               (update_nth i
                  (set_recordData
                     (mkRecordData newPlayerCount (toSeconds newTimestamp)))
                  (Mongo.serverRegistrations w0)) w0).
  assert (Hts : match legacy with
                | Some l => Some (ping_timestamp l) | None => None
                end = newTimestamp)
    by (unfold newTimestamp; now destruct legacy).
  erewrite bind_Ok.
  2:{ rewrite (bind_Ok _ _ _ _ _ (MongoFacts.getRecordLegacy_ok ip w0 Hc Hf)).
      change (Mongo.server w0) with (Mongo.server w). fold legacy.
      unfold Mongo.modify_registration. rewrite bind_modify.
      fold newPlayerCount. rewrite Hts. fold w3.
      apply (MongoFacts.insertRecord_ok ip newPlayerCount newTimestamp w3
               Hc Hf). }
  unfold bind, get.
  destruct (Nat.eqb _ _); eexists; (split; [reflexivity|]);
    cbn; repeat split; auto.
Qed.

Lemma mongo_refresh_loop (ips : list string) :
  forall (i c : nat) (w : Mongo.World),
  Mongo.connected w = true -> Mongo.faults w = [] ->
  (forall k ip, nth_error ips k = Some ip ->
     option_map data_ip (nth_error (Mongo.serverRegistrations w) (i + k))
     = Some ip) ->
  exists w' added,
    Mongo.loadRecords_loop toSeconds i ips c w = (Ok tt, w')
    /\ Mongo.connected w' = true /\ Mongo.faults w' = []
    /\ Mongo.server w' = with_records added (Mongo.server w)
    /\ NoDup (map record_ip added)
    /\ (forall rec, In rec added ->
          In (record_ip rec) ips
          /\ find (fun r => String.eqb (record_ip r) (record_ip rec))
               (Mongo.players_record (Mongo.server w)) = None
          /\ rec = legacy_row (Mongo.server w) (record_ip rec))
    /\ (forall j, (j < i \/ i + List.length ips <= j)%nat ->
          nth_error (Mongo.serverRegistrations w') j
          = nth_error (Mongo.serverRegistrations w) j)
    /\ (forall k ip, nth_error ips k = Some ip ->
          exists r',
            nth_error (Mongo.serverRegistrations w') (i + k) = Some r'
            /\ data_ip r' = ip
            /\ recordData r'
               = shown_record toSeconds
                   (Mongo.players_record (Mongo.server w')) ip
            /\ recordData r' <> None)
    /\ List.length (Mongo.serverRegistrations w')
       = List.length (Mongo.serverRegistrations w).
Proof.
  induction ips as [|ip rest IH]; intros i c w Hc Hf Hips.
  - exists w, []. rewrite with_records_nil.
    split; [reflexivity|]. split; [exact Hc|]. split; [exact Hf|].
    split; [reflexivity|]. split; [constructor|].
    split; [intros ? []|]. split; [reflexivity|]. split; [|reflexivity].
    intros [|k] ip H; discriminate H.
  - cbn [Mongo.loadRecords_loop].
    pose proof (Hips 0%nat ip eq_refl) as H0. rewrite Nat.add_0_r in H0.
    destruct (nth_error (Mongo.serverRegistrations w) i) as [r|] eqn:Er;
      [|discriminate]. cbn in H0. injection H0 as Hip.
    assert (Hturn : exists w1 here d,
      Mongo.loadRecords_turn toSeconds i ip c w = (Ok (S c), w1)
      /\ Mongo.connected w1 = true /\ Mongo.faults w1 = []
      /\ Mongo.server w1 = with_records here (Mongo.server w)
      /\ NoDup (map record_ip here)
      /\ (forall rec, In rec here ->
            record_ip rec = ip
            /\ find (fun r => String.eqb (record_ip r) ip)
                 (Mongo.players_record (Mongo.server w)) = None
            /\ rec = legacy_row (Mongo.server w) ip)
      /\ Mongo.serverRegistrations w1
         = update_nth i (set_recordData d)
             (update_nth i findNewGraphPeak (Mongo.serverRegistrations w))
      /\ Some d = shown_record toSeconds
                    (Mongo.players_record (Mongo.server w1)) ip).
    { destruct (find (fun r => String.eqb (record_ip r) ip)
                  (Mongo.players_record (Mongo.server w))) as [record|] eqn:Ef.
      - destruct (MongoFacts.loadRecords_turn_present toSeconds i ip c w record
                    Hc Hf Ef) as (w1 & E & Hs & Hr & Hc1 & Hf1).
        exists w1, [], (mkRecordData (record_playerCount record)
                          (toSeconds (record_timestamp record))).
        rewrite with_records_nil.
        split; [exact E|]. split; [exact Hc1|]. split; [exact Hf1|].
        split; [exact Hs|]. split; [constructor|].
        split; [intros ? []|]. split; [exact Hr|].
        unfold shown_record. now rewrite Hs, Ef.
      - destruct (mongo_turn_absent i ip c w Hc Hf Ef)
          as (w1 & E & Hs & Hr & Hc1 & Hf1).
        exists w1, [legacy_row (Mongo.server w) ip],
          (mkRecordData (record_playerCount (legacy_row (Mongo.server w) ip))
             (toSeconds (record_timestamp (legacy_row (Mongo.server w) ip)))).
        split; [exact E|]. split; [exact Hc1|]. split; [exact Hf1|].
        split; [exact Hs|].
        split; [repeat constructor; intros []|].
        split; [intros rec [<-|[]]; repeat split; exact Ef|].
        split; [exact Hr|].
        unfold shown_record. rewrite Hs. cbn [with_records Mongo.players_record].
        rewrite (find_app_none _ _ _ Ef). cbn.
        now rewrite String.eqb_refl. }
    destruct Hturn
      as (w1 & here & d & E & Hc1 & Hf1 & Hs1 & Hnd1 & Hhere & Hr1 & Hd).
    rewrite (bind_Ok _ _ _ _ _ E).
    assert (Hips1 : forall k ip', nth_error rest k = Some ip' ->
              option_map data_ip
                (nth_error (Mongo.serverRegistrations w1) (S i + k))
              = Some ip').
    { intros k ip' Hk. rewrite Hr1, !update_nth_other by lia.
      replace (S i + k)%nat with (i + S k)%nat by lia.
      now apply Hips. }
    destruct (IH (S i) (S c) w1 Hc1 Hf1 Hips1)
      as (w' & added & E' & Hc' & Hf' & Hs' & Hnd' & Hadded & Hframe & Hshown
          & Hlen).
    exists w', (here ++ added).
    split; [exact E'|]. split; [exact Hc'|]. split; [exact Hf'|].
    split; [now rewrite Hs', Hs1, with_records_app|].
    split; [|split; [|split; [|split]]].
    + rewrite map_app. apply NoDup_app; [exact Hnd1|exact Hnd'|].
      intros k Hk1 Hk'.
      apply in_map_iff in Hk1 as (rec1 & <- & Hin1).
      apply in_map_iff in Hk' as (rec' & Heq & Hin').
      destruct (Hadded rec' Hin') as (_ & Hnone & _).
      rewrite Hs1 in Hnone. cbn [with_records Mongo.players_record] in Hnone.
      assert (Hno := find_none _ _ Hnone rec1
                       (in_or_app _ _ _ (or_intror Hin1))).
      cbn beta in Hno. rewrite Heq, String.eqb_refl in Hno. discriminate.
    + intros rec Hin. apply in_app_or in Hin as [Hin|Hin].
      * destruct (Hhere rec Hin) as (Hrip & Hnone & Hrow).
        rewrite Hrip. repeat split; [now left|exact Hnone|exact Hrow].
      * destruct (Hadded rec Hin) as (Hrest & Hnone & Hrow).
        split; [now right|]. split.
        -- rewrite Hs1 in Hnone. cbn [with_records Mongo.players_record] in Hnone.
           destruct (find (fun r => String.eqb (record_ip r) (record_ip rec))
                       (Mongo.players_record (Mongo.server w))) eqn:Ef;
             [|reflexivity].
           now rewrite (find_app_some _ _ _ _ Ef) in Hnone.
        -- rewrite Hrow at 1. apply legacy_row_pings. now rewrite Hs1.
    + intros j Hj. cbn [List.length] in Hj.
      rewrite Hframe by lia. rewrite Hr1, !update_nth_other by lia.
      reflexivity.
    + intros [|k] ip' Hk.
      * injection Hk as <-. rewrite Nat.add_0_r.
        rewrite Hframe by lia. rewrite Hr1, !update_nth_same, Er. cbn.
        eexists. split; [reflexivity|]. cbn.
        split; [exact Hip|].
        assert (Hsame : shown_record toSeconds
                          (Mongo.players_record (Mongo.server w')) ip
                        = Some d).
        { rewrite Hd. unfold shown_record. rewrite Hs'.
          cbn [with_records Mongo.players_record].
          symmetry in Hd. unfold shown_record in Hd.
          destruct (find _ (Mongo.players_record (Mongo.server w1))) eqn:Ef;
            [|discriminate].
          now rewrite (find_app_some _ _ _ _ Ef). }
        rewrite Hsame. split; [reflexivity|discriminate].
      * cbn [nth_error] in Hk.
        replace (i + S k)%nat with (S i + k)%nat by lia.
        apply Hshown, Hk.
    + now rewrite Hlen, Hr1, !update_nth_length.
Qed.

Lemma mongo_refresh_run (w : Mongo.World) :
  Mongo.connected w = true -> Mongo.faults w = [] ->
  exists w' added,
    Mongo.loadRecords toSeconds w = (Ok tt, w')
    /\ Mongo.connected w' = true /\ Mongo.faults w' = []
    /\ Mongo.server w' = with_records added (Mongo.server w)
    /\ NoDup (map record_ip added)
    /\ (forall rec, In rec added ->
          In (record_ip rec) (map data_ip (Mongo.serverRegistrations w))
          /\ find (fun r => String.eqb (record_ip r) (record_ip rec))
               (Mongo.players_record (Mongo.server w)) = None
          /\ rec = legacy_row (Mongo.server w) (record_ip rec))
    /\ (forall j r, nth_error (Mongo.serverRegistrations w) j = Some r ->
          exists r',
            nth_error (Mongo.serverRegistrations w') j = Some r'
            /\ data_ip r' = data_ip r
            /\ recordData r'
               = shown_record toSeconds
                   (Mongo.players_record (Mongo.server w')) (data_ip r)
            /\ recordData r' <> None)
    /\ List.length (Mongo.serverRegistrations w')
       = List.length (Mongo.serverRegistrations w).
Proof.
  intros Hc Hf. unfold Mongo.loadRecords.
  destruct (mongo_refresh_loop (map data_ip (Mongo.serverRegistrations w))
              0 0 w Hc Hf)
    as (w' & added & E & Hc' & Hf' & Hs & Hnd & Hadded & _ & Hshown & Hlen).
  { intros k ip Hk. now rewrite nth_error_map in Hk. }
  exists w', added. repeat split; auto; try (now apply Hadded).
  intros j r Hr. apply (Hshown j (data_ip r)).
  now rewrite nth_error_map, Hr.
Qed.

(** X15: on the MongoDB back end a [loadRecords] the server does not
    refuse returns, and afterwards every registration displays the record
    the store then holds for its address; the store has only grown, by
    one record for each address that had none, derived from the pings of
    that address, and no address got two. *)
Theorem mongo_refresh_displays_the_stored_records (w : Mongo.World) :
  Mongo.connected w = true -> Mongo.faults w = [] ->
  exists w' added,
    Mongo.loadRecords toSeconds w = (Ok tt, w')
    /\ Mongo.server w' = with_records added (Mongo.server w)
    /\ NoDup (map record_ip added)
    /\ (forall rec, In rec added ->
          In (record_ip rec) (map data_ip (Mongo.serverRegistrations w))
          /\ find (fun r => String.eqb (record_ip r) (record_ip rec))
               (Mongo.players_record (Mongo.server w)) = None
          /\ rec = legacy_row (Mongo.server w) (record_ip rec))
    /\ (forall j r, nth_error (Mongo.serverRegistrations w) j = Some r ->
          exists r',
            nth_error (Mongo.serverRegistrations w') j = Some r'
            /\ data_ip r' = data_ip r
            /\ recordData r'
               = shown_record toSeconds
                   (Mongo.players_record (Mongo.server w')) (data_ip r)
            /\ recordData r' <> None).
Proof.
  intros Hc Hf.
  destruct (mongo_refresh_run w Hc Hf)
    as (w' & added & E & _ & _ & Hs & Hnd & Hadded & Hshown & _).
  exists w', added. repeat split; auto; now apply Hadded.
Qed.

(** X16: on the MongoDB back end a second [loadRecords] changes nothing:
    it adds no record and every registration displays the record it
    displayed after the first. *)
Theorem mongo_refresh_again_changes_nothing (w : Mongo.World) :
  Mongo.connected w = true -> Mongo.faults w = [] ->
  exists w' w'',
    Mongo.loadRecords toSeconds w = (Ok tt, w')
    /\ Mongo.loadRecords toSeconds w' = (Ok tt, w'')
    /\ Mongo.server w'' = Mongo.server w'
    /\ forall j,
         option_map recordData (nth_error (Mongo.serverRegistrations w'') j)
         = option_map recordData (nth_error (Mongo.serverRegistrations w') j).
Proof.
  intros Hc Hf.
  destruct (mongo_refresh_run w Hc Hf)
    as (w' & added & E & Hc' & Hf' & Hs & _ & _ & Hshown & Hlen).
  destruct (mongo_refresh_run w' Hc' Hf')
    as (w'' & added' & E' & _ & _ & Hs' & _ & Hadded' & Hshown' & Hlen').
  assert (Hall : forall j r', nth_error (Mongo.serverRegistrations w') j = Some r' ->
            recordData r'
            = shown_record toSeconds (Mongo.players_record (Mongo.server w'))
                (data_ip r')
            /\ recordData r' <> None).
  { intros j r' Hr'.
    destruct (nth_error (Mongo.serverRegistrations w) j) as [r|] eqn:Er.
    - destruct (Hshown j r Er) as (r0 & Hr0 & Hip & Hrec & Hsome).
      rewrite Hr' in Hr0. injection Hr0 as <-. now rewrite Hip.
    - apply nth_error_None in Er. rewrite <- Hlen in Er.
      apply nth_error_None in Er. congruence. }
  assert (Hnil : added' = []).
  { destruct added' as [|rec rest]; [reflexivity|]. exfalso.
    destruct (Hadded' rec (or_introl eq_refl)) as (Hin & Hnone & _).
    apply in_map_iff in Hin as (r' & Hip & Hin).
    apply In_nth_error in Hin as (j & Hj).
    destruct (Hall j r' Hj) as (Hrec & Hsome).
    rewrite Hrec in Hsome. unfold shown_record in Hsome.
    rewrite Hip, Hnone in Hsome. now apply Hsome. }
  subst added'. rewrite with_records_nil in Hs'.
  exists w', w''. repeat split; auto.
  intros j.
  destruct (nth_error (Mongo.serverRegistrations w') j) as [r'|] eqn:Er'.
  - destruct (Hshown' j r' Er') as (r'' & Hr'' & Hip & Hrec & _).
    rewrite Hr''. cbn. f_equal.
    rewrite Hrec, Hs'. symmetry. apply (Hall j r' Er').
  - apply nth_error_None in Er'. rewrite <- Hlen' in Er'.
    apply nth_error_None in Er'. now rewrite Er'.
Qed.

End MongoRefresh.

Lemma mongo_refresh_displays_the_stored_records_witness :
  exists w' added,
    Mongo.loadRecords Scenario.toSeconds Samples.mongo = (Ok tt, w')
    /\ Mongo.server w' = with_records added (Mongo.server Samples.mongo)
    /\ NoDup (map record_ip added)
    /\ exists r',
         nth_error (Mongo.serverRegistrations w') 2 = Some r'
         /\ recordData r'
            = shown_record Scenario.toSeconds
                (Mongo.players_record (Mongo.server w')) "A".
Proof.
  destruct (mongo_refresh_displays_the_stored_records Scenario.toSeconds
              Samples.mongo eq_refl eq_refl)
    as (w' & added & E & Hs & Hnd & _ & Hshown).
  exists w', added. split; [exact E|]. split; [exact Hs|].
  split; [exact Hnd|].
  destruct (Hshown 2%nat (Scenario.registration "A") eq_refl)
    as (r' & Hr & _ & Hrec & _).
  exists r'. split; [exact Hr|exact Hrec].
Defined.

Lemma mongo_refresh_again_changes_nothing_witness :
  exists w' w'',
    Mongo.loadRecords Scenario.toSeconds Samples.mongo = (Ok tt, w')
    /\ Mongo.loadRecords Scenario.toSeconds w' = (Ok tt, w'')
    /\ Mongo.server w'' = Mongo.server w'.
Proof.
  destruct (mongo_refresh_again_changes_nothing Scenario.toSeconds
              Samples.mongo eq_refl eq_refl) as (w' & w'' & E & E' & Hs & _).
  exists w', w''. repeat split; assumption.
Defined.

(** ** A refresh of the records on the MySQL back end *)

Lemma has_ip_find (ip : string) (l : list PlayersRecord) :
  MySQL.has_ip ip l
  = match find (fun r => String.eqb (record_ip r) ip) l with
    | Some _ => true | None => false
    end.
Proof.
  unfold MySQL.has_ip. induction l as [|r l IH]; [reflexivity|]. cbn.
  now destruct (String.eqb (record_ip r) ip).
Qed.

Lemma lookup_find (ip : string) (l : list PlayersRecord) :
  hd_error (MySQL.lookup l ip)
  = option_map (fun r => (record_playerCount r, record_timestamp r))
      (find (fun r => String.eqb (record_ip r) ip) l).
Proof.
  unfold MySQL.lookup. induction l as [|r l IH]; [reflexivity|]. cbn.
  now destruct (String.eqb (record_ip r) ip).
Qed.

Lemma insert_ignore_appends (timestamp playerCount : option Z)
  (ips : list string) : forall cur : list PlayersRecord,
  exists added,
    fold_left (MySQL.insert_ignore timestamp playerCount) ips cur
    = cur ++ added
    /\ NoDup (map record_ip added)
    /\ (forall rec, In rec added ->
          In (record_ip rec) ips
          /\ MySQL.has_ip (record_ip rec) cur = false
          /\ rec = mkPlayersRecord timestamp (record_ip rec) playerCount)
    /\ (forall ip, In ip ips -> MySQL.has_ip ip cur = false ->
          In (mkPlayersRecord timestamp ip playerCount) added).
Proof.
  induction ips as [|ip ips IH]; intros cur.
  - exists []. cbn. rewrite app_nil_r.
    split; [reflexivity|]. split; [constructor|].
    split; [intros ? []|intros ? []].
  - cbn [fold_left]. unfold MySQL.insert_ignore at 2.
    destruct (MySQL.has_ip ip cur) eqn:Eh.
    + destruct (IH cur) as (added & E & Hnd & Hin & Hall).
      exists added. split; [exact E|]. split; [exact Hnd|]. split.
      * intros rec Hr. destruct (Hin rec Hr) as (A & B & C).
        split; [now right|]. split; assumption.
      * intros ip' [<-|Hip'] Hno; [congruence|now apply Hall].
    + set (row := mkPlayersRecord timestamp ip playerCount).
      destruct (IH (cur ++ [row])) as (added & E & Hnd & Hin & Hall).
      assert (Hsplit : forall k, MySQL.has_ip k (cur ++ [row]) = false ->
                MySQL.has_ip k cur = false /\ k <> ip).
      { intros k Hk. unfold MySQL.has_ip in *. rewrite existsb_app in Hk.
        apply orb_false_iff in Hk as [Hk1 Hk2]. split; [exact Hk1|].
        intros ->. cbn in Hk2. now rewrite String.eqb_refl in Hk2. }
      exists (row :: added). rewrite E, <- app_assoc. cbn [app].
      split; [reflexivity|]. split; [|split].
      * cbn [map]. constructor; [|exact Hnd].
        intros Hn. apply in_map_iff in Hn as (rec & Hip & Hr).
        destruct (Hin rec Hr) as (_ & B & _).
        apply Hsplit in B as [_ B]. now apply B.
      * intros rec [<-|Hr].
        -- split; [now left|]. split; [exact Eh|reflexivity].
        -- destruct (Hin rec Hr) as (A & B & C).
           split; [now right|]. split; [apply (Hsplit _ B)|exact C].
      * intros ip' Hip' Hno.
        destruct (String.eqb_spec ip' ip) as [->|Hne]; [now left|].
        right. apply Hall; [destruct Hip'; congruence|].
        unfold MySQL.has_ip in *. rewrite existsb_app, Hno. cbn.
        apply String.eqb_neq in Hne. rewrite String.eqb_sym in Hne.
        now rewrite Hne.
Qed.

Lemma filter_none {A} (p : A -> bool) (l : list A) :
  (forall x, In x l -> p x = false) -> filter p l = [].
Proof.
  induction l as [|x l IH]; intros H; [reflexivity|]. cbn.
  rewrite (H x (or_introl eq_refl)). apply IH. intros y Hy. apply H. now right.
Qed.

Lemma positions_snd (ips : list string) (i : nat) :
  map snd (MySQL.positions i ips) = ips.
Proof.
  unfold MySQL.positions. revert i.
  induction ips as [|ip ips IH]; intros i; [reflexivity|].
  cbn. now rewrite IH.
Qed.

Lemma positions_fst (ips : list string) (i : nat) :
  map fst (MySQL.positions i ips) = seq i (List.length ips).
Proof.
  unfold MySQL.positions. revert i.
  induction ips as [|ip ips IH]; intros i; [reflexivity|].
  cbn. now rewrite IH.
Qed.

Section MySQLRefresh.

Variable toSeconds : option Z -> option Z.

Lemma mysql_refresh_exact (w : MySQL.World) (rows : list Ping)
  (recs : list PlayersRecord) :
  MySQL.queue w = [] -> MySQL.faults w = [] ->
  MySQL.pings (MySQL.server w) = Some rows ->
  MySQL.players_record (MySQL.server w) = Some recs ->
  let regs := MySQL.serverRegistrations w in
  let items := MySQL.positions 0 (map data_ip regs) in
  let missing := filter (MySQL.absent recs) items in
  refresh_records toSeconds w
  = (Ok tt,
     MySQL.with_state []
       (MySQL.apply_at (fun _ => MySQL.legacy_shown toSeconds rows) missing
          (MySQL.apply_at (MySQL.record_shown toSeconds recs) items
             (MySQL.apply_at (fun _ => findNewGraphPeak) items regs)))
       (MySQL.mkDb (Some rows) (MySQL.ip_hash (MySQL.server w))
          (MySQL.ip_index (MySQL.server w))
          (MySQL.timestamp_index (MySQL.server w))
          (Some (fold_left
                   (MySQL.insert_ignore (MySQL.legacy_timestamp rows)
                      (MySQL.legacy_playerCount rows))
                   (map snd missing) recs))) w).
Proof.
  intros Hq Hf Hp Hr.
  destruct w as [[p ih ii ti pr] f q lg regs0 tt0 ck cfg iv fr rp].
  cbn in Hq, Hf, Hp, Hr. subst q f p pr.
  exact (MySQLFacts.refresh_answered toSeconds rows recs ih ii ti regs0
           (MySQL.mkWorld (MySQL.mkDb (Some rows) ih ii ti (Some recs)) []
              [] lg regs0 tt0 ck cfg iv fr rp) eq_refl).
Qed.

Lemma apply_at_length
  (f : nat * string -> ServerRegistration -> ServerRegistration)
  (items : list (nat * string)) : forall regs : list ServerRegistration,
  List.length (MySQL.apply_at f items regs) = List.length regs.
Proof.
  unfold MySQL.apply_at.
  induction items as [|it items IH]; intros regs; [reflexivity|].
  cbn [fold_left]. now rewrite IH, update_nth_length.
Qed.

Lemma mysql_refresh_run (w : MySQL.World) (rows : list Ping)
  (recs : list PlayersRecord) :
  MySQL.queue w = [] -> MySQL.faults w = [] ->
  MySQL.pings (MySQL.server w) = Some rows ->
  MySQL.players_record (MySQL.server w) = Some recs ->
  exists w' added,
    refresh_records toSeconds w = (Ok tt, w')
    /\ MySQL.queue w' = [] /\ MySQL.faults w' = []
    /\ MySQL.fired w' = MySQL.fired w
    /\ MySQL.server w'
       = MySQL.mkDb (Some rows) (MySQL.ip_hash (MySQL.server w))
           (MySQL.ip_index (MySQL.server w))
           (MySQL.timestamp_index (MySQL.server w)) (Some (recs ++ added))
    /\ NoDup (map record_ip added)
    /\ (forall rec, In rec added ->
          In (record_ip rec) (map data_ip (MySQL.serverRegistrations w))
          /\ MySQL.has_ip (record_ip rec) recs = false
          /\ rec = mkPlayersRecord (MySQL.legacy_timestamp rows)
                     (record_ip rec) (MySQL.legacy_playerCount rows))
    /\ (forall j r, nth_error (MySQL.serverRegistrations w) j = Some r ->
          exists r',
            nth_error (MySQL.serverRegistrations w') j = Some r'
            /\ data_ip r' = data_ip r
            /\ recordData r'
               = shown_record toSeconds (recs ++ added) (data_ip r)
            /\ recordData r' <> None)
    /\ List.length (MySQL.serverRegistrations w')
       = List.length (MySQL.serverRegistrations w).
Proof.
  intros Hq Hf Hp Hr.
  rewrite (mysql_refresh_exact w rows recs Hq Hf Hp Hr). cbv zeta.
  set (regs := MySQL.serverRegistrations w).
  set (items := MySQL.positions 0 (map data_ip regs)).
  set (missing := filter (MySQL.absent recs) items).
  destruct (insert_ignore_appends (MySQL.legacy_timestamp rows)
              (MySQL.legacy_playerCount rows) (map snd missing) recs)
    as (added & E & Hnd & Hin & Hall).
  rewrite E.
  assert (Hitems : NoDup (map fst items))
    by (unfold items; rewrite positions_fst; apply seq_NoDup).
  eexists. exists added. split; [reflexivity|].
  cbn [MySQL.queue MySQL.fired MySQL.server MySQL.serverRegistrations
       MySQL.faults MySQL.with_state MySQL.set_server MySQL.set_queue
       MySQL.set_serverRegistrations].
  split; [reflexivity|]. split; [exact Hf|]. split; [reflexivity|].
  split; [reflexivity|]. split; [exact Hnd|].
  split; [|split].
  - intros rec Hrec. destruct (Hin rec Hrec) as (A & B & C).
    split; [|split; assumption].
    apply in_map_iff in A as (it & Hit & Hmem).
    apply filter_In in Hmem as [Hmem _].
    rewrite <- (positions_snd (map data_ip regs) 0). fold items.
    rewrite <- Hit. now apply in_map.
  - intros j r Hj.
    assert (Hfind : find (fun it => Nat.eqb (fst it) j) items
                    = Some (j, data_ip r)).
    { apply (MySQLFacts.find_positions (map data_ip regs) 0 j).
      rewrite nth_error_map, Hj. reflexivity. }
    pose proof (MySQLFacts.find_position_filter (MySQL.absent recs) items j _
                  Hitems Hfind) as Hmiss.
    fold missing in Hmiss. rewrite MySQLFacts.absent_has_ip in Hmiss.
    cbn [snd] in Hmiss.
    rewrite (MySQLFacts.apply_at_nth _ missing
               (MySQLFacts.filter_positions_NoDup _ _ Hitems)), Hmiss.
    rewrite !(MySQLFacts.apply_at_nth _ items Hitems), Hfind.
    rewrite Hj. cbn [option_map].
    pose proof (has_ip_find (data_ip r) recs) as Hhas.
    pose proof (lookup_find (data_ip r) recs) as Hlook.
    unfold shown_record.
    destruct (find (fun r0 => String.eqb (record_ip r0) (data_ip r)) recs)
      as [rec0|] eqn:Ef.
    + rewrite Hhas. cbn [negb].
      rewrite (find_app_some _ _ _ _ Ef). cbn [option_map] in *.
      unfold MySQL.record_shown. cbn [snd].
      destruct (MySQL.lookup recs (data_ip r)) as [|[pc ts] more];
        [discriminate|]. cbn in Hlook. injection Hlook as -> ->.
      eexists. split; [reflexivity|]. cbn.
      split; [reflexivity|]. split; [reflexivity|discriminate].
    + rewrite Hhas. cbn [negb option_map].
      rewrite (find_app_none _ _ _ Ef).
      assert (Hrow : In (mkPlayersRecord (MySQL.legacy_timestamp rows)
                           (data_ip r) (MySQL.legacy_playerCount rows)) added).
      { apply Hall; [|exact Hhas].
        rewrite Hhas in Hmiss. cbn [negb] in Hmiss.
        apply find_some in Hmiss as [Hmem _].
        apply in_map_iff. now exists (j, data_ip r). }
      destruct (find (fun r0 => String.eqb (record_ip r0) (data_ip r)) added)
        as [rec1|] eqn:Ea.
      * apply find_some in Ea as [Hmem Hip]. cbn beta in Hip.
        apply String.eqb_eq in Hip.
        destruct (Hin rec1 Hmem) as (_ & _ & Hshape).
        rewrite Hip in Hshape. subst rec1.
        eexists. split; [reflexivity|]. cbn.
        split; [|split; [reflexivity|discriminate]].
        unfold MySQL.record_shown. cbn [snd].
        now destruct (MySQL.lookup recs (data_ip r)) as [|[pc ts] more].
      * pose proof (find_none _ _ Ea _ Hrow) as Hno. cbn in Hno.
        now rewrite String.eqb_refl in Hno.
  - now rewrite !apply_at_length.
Qed.

(** X17: on the MySQL back end a [loadRecords] whose statements are all
    answered leaves every registration displaying the record the store
    then holds for its address; the store has only grown, by one record
    for each address that had none, every such record carrying the values
    of the legacy query, and no address got two. *)
Theorem mysql_refresh_displays_the_stored_records (w : MySQL.World)
  (rows : list Ping) (recs : list PlayersRecord) :
  MySQL.queue w = [] -> MySQL.faults w = [] ->
  MySQL.pings (MySQL.server w) = Some rows ->
  MySQL.players_record (MySQL.server w) = Some recs ->
  exists w' added,
    refresh_records toSeconds w = (Ok tt, w')
    /\ MySQL.queue w' = []
    /\ MySQL.server w'
       = MySQL.mkDb (Some rows) (MySQL.ip_hash (MySQL.server w))
           (MySQL.ip_index (MySQL.server w))
           (MySQL.timestamp_index (MySQL.server w)) (Some (recs ++ added))
    /\ NoDup (map record_ip added)
    /\ (forall rec, In rec added ->
          In (record_ip rec) (map data_ip (MySQL.serverRegistrations w))
          /\ MySQL.has_ip (record_ip rec) recs = false
          /\ rec = mkPlayersRecord (MySQL.legacy_timestamp rows)
                     (record_ip rec) (MySQL.legacy_playerCount rows))
    /\ (forall j r, nth_error (MySQL.serverRegistrations w) j = Some r ->
          exists r',
            nth_error (MySQL.serverRegistrations w') j = Some r'
            /\ data_ip r' = data_ip r
            /\ recordData r'
               = shown_record toSeconds (recs ++ added) (data_ip r)
            /\ recordData r' <> None).
Proof.
  intros Hq Hf Hp Hr.
  destruct (mysql_refresh_run w rows recs Hq Hf Hp Hr)
    as (w' & added & E & Hq' & _ & _ & Hs & Hnd & Hadded & Hshown & _).
  exists w', added. repeat split; auto; now apply Hadded.
Qed.

(** X18: on the MySQL back end a second [loadRecords] changes nothing: it
    adds no record and every registration displays the record it
    displayed after the first. *)
Theorem mysql_refresh_again_changes_nothing (w : MySQL.World)
  (rows : list Ping) (recs : list PlayersRecord) :
  MySQL.queue w = [] -> MySQL.faults w = [] ->
  MySQL.pings (MySQL.server w) = Some rows ->
  MySQL.players_record (MySQL.server w) = Some recs ->
  exists w' w'',
    refresh_records toSeconds w = (Ok tt, w')
    /\ refresh_records toSeconds w' = (Ok tt, w'')
    /\ MySQL.server w'' = MySQL.server w'
    /\ forall j,
         option_map recordData (nth_error (MySQL.serverRegistrations w'') j)
         = option_map recordData (nth_error (MySQL.serverRegistrations w') j).
Proof.
  intros Hq Hf Hp Hr.
  destruct (mysql_refresh_run w rows recs Hq Hf Hp Hr)
    as (w' & added & E & Hq' & Hf' & _ & Hs & _ & _ & Hshown & Hlen).
  assert (Hp' : MySQL.pings (MySQL.server w') = Some rows)
    by now rewrite Hs.
  assert (Hr' : MySQL.players_record (MySQL.server w') = Some (recs ++ added))
    by now rewrite Hs.
  destruct (mysql_refresh_run w' rows (recs ++ added) Hq' Hf' Hp' Hr')
    as (w'' & added' & E' & _ & _ & _ & Hs' & _ & Hadded' & Hshown' & Hlen').
  assert (Hall : forall j r',
            nth_error (MySQL.serverRegistrations w') j = Some r' ->
            recordData r'
            = shown_record toSeconds (recs ++ added) (data_ip r')
            /\ recordData r' <> None).
  { intros j r' Hj.
    destruct (nth_error (MySQL.serverRegistrations w) j) as [r|] eqn:Er.
    - destruct (Hshown j r Er) as (r0 & Hr0 & Hip & Hrec & Hsome).
      rewrite Hj in Hr0. injection Hr0 as <-. now rewrite Hip.
    - apply nth_error_None in Er. rewrite <- Hlen in Er.
      apply nth_error_None in Er. congruence. }
  assert (Hnil : added' = []).
  { destruct added' as [|rec rest]; [reflexivity|]. exfalso.
    destruct (Hadded' rec (or_introl eq_refl)) as (Hin & Hnone & _).
    apply in_map_iff in Hin as (r' & Hip & Hin).
    apply In_nth_error in Hin as (j & Hj).
    destruct (Hall j r' Hj) as (Hrec & Hsome).
    rewrite Hrec in Hsome. unfold shown_record in Hsome.
    rewrite has_ip_find, <- Hip in Hnone.
    now destruct (find _ (recs ++ added)). }
  subst added'. rewrite app_nil_r in Hs', Hshown'.
  exists w', w''. split; [exact E|]. split; [exact E'|].
  split; [rewrite Hs', Hs; reflexivity|].
  intros j.
  destruct (nth_error (MySQL.serverRegistrations w') j) as [r'|] eqn:Er'.
  - destruct (Hshown' j r' Er') as (r'' & Hr'' & Hip & Hrec & _).
    rewrite Hr''. cbn. f_equal.
    rewrite Hrec. symmetry. apply (Hall j r' Er').
  - apply nth_error_None in Er'. rewrite <- Hlen' in Er'.
    apply nth_error_None in Er'. now rewrite Er'.
Qed.

End MySQLRefresh.

Lemma mysql_refresh_displays_the_stored_records_witness :
  exists w' added,
    refresh_records Scenario.toSeconds Samples.mysql = (Ok tt, w')
    /\ MySQL.queue w' = []
    /\ MySQL.players_record (MySQL.server w')
       = Some (Samples.recorded ++ added)
    /\ NoDup (map record_ip added).
Proof.
  destruct (mysql_refresh_displays_the_stored_records Scenario.toSeconds
              Samples.mysql Scenario.window_pings Samples.recorded
              eq_refl eq_refl eq_refl eq_refl)
    as (w' & added & E & Hq & Hs & Hnd & _).
  exists w', added. split; [exact E|]. split; [exact Hq|].
  split; [now rewrite Hs|exact Hnd].
Defined.

Lemma mysql_refresh_again_changes_nothing_witness :
  exists w' w'',
    refresh_records Scenario.toSeconds Samples.mysql = (Ok tt, w')
    /\ refresh_records Scenario.toSeconds w' = (Ok tt, w'')
    /\ MySQL.server w'' = MySQL.server w'.
Proof.
  destruct (mysql_refresh_again_changes_nothing Scenario.toSeconds
              Samples.mysql Scenario.window_pings Samples.recorded
              eq_refl eq_refl eq_refl eq_refl)
    as (w' & w'' & E & E' & Hs & _).
  exists w', w''. repeat split; assumption.
Defined.

(** ** A statement the MySQL server refuses *)

(** X19: on the MySQL back end a statement the server refuses is logged
    once and its error raised where nobody catches it: for
    [getRecentPings], [getRecord], [getRecordLegacy], [insertPing] and
    [updatePlayerCountRecord] the callback of the caller is not called and
    nothing but the log changes. *)
Theorem mysql_failed_statement_is_logged_and_raised
  (toSeconds : option Z -> option Z) (w : MySQL.World) (e : Exn)
  (rest : list (option Exn)) :
  MySQL.queue w = [] -> MySQL.faults w = Some e :: rest ->
  (forall startTime endTime k,
      statement_fails toSeconds (MySQL.getRecentPings startTime endTime k)
        w e rest)
  /\ (forall ip k, statement_fails toSeconds (MySQL.getRecord ip k) w e rest)
  /\ (forall ip k,
        statement_fails toSeconds (MySQL.getRecordLegacy ip k) w e rest)
  /\ (forall ip timestamp count,
        statement_fails toSeconds (MySQL.insertPing ip timestamp count)
          w e rest)
  /\ (forall ip playerCount timestamp,
        statement_fails toSeconds
          (MySQL.updatePlayerCountRecord ip playerCount timestamp) w e rest).
Proof.
  intros Hq Hf. unfold statement_fails.
  destruct w as [[p ih ii ti pr] f q lg regs tt0 ck cfg iv fr rp].
  cbn in Hq, Hf. subst q f.
  repeat split; intros; eexists; reflexivity.
Qed.

Lemma mysql_failed_statement_is_logged_and_raised_witness :
  statement_fails Scenario.toSeconds
    (MySQL.getRecord "A" MySQL.ReportRecord) Samples.mysql_refusing
    Scenario.lock_wait_timeout []
  /\ statement_fails Scenario.toSeconds (MySQL.insertPing "A" 3000 (Some 1))
       Samples.mysql_refusing Scenario.lock_wait_timeout [].
Proof.
  pose proof (mysql_failed_statement_is_logged_and_raised Scenario.toSeconds
                Samples.mysql_refusing Scenario.lock_wait_timeout []
                eq_refl eq_refl) as (_ & Hrecord & _ & Hping & _).
  split; [exact (Hrecord "A" MySQL.ReportRecord)|].
  exact (Hping "A" 3000 (Some 1)).
Defined.

(** ** A window that cannot be read *)

(** X20: when the pings of the window cannot be read [loadGraphPoints]
    delivers nothing: the error is raised, no registration and no time
    axis is changed, the callback is not called and the store is as
    before; the MongoDB back end logs the failure twice, once in
    [getRecentPings] and once in [loadGraphPoints], the MySQL back end
    once. *)
Theorem failed_loadGraphPoints_delivers_nothing (graphDuration : Z) (e : Exn)
  (rest : list (option Exn)) :
  (forall w : Mongo.World,
      Mongo.connected w = true -> Mongo.faults w = Some e :: rest ->
      exists w',
        Mongo.loadGraphPoints graphDuration w = (Throw e, w')
        /\ Mongo.serverRegistrations w' = Mongo.serverRegistrations w
        /\ Mongo.timeTracker w' = Mongo.timeTracker w
        /\ Mongo.fired w' = Mongo.fired w
        /\ Mongo.server w' = Mongo.server w
        /\ exists first,
             Mongo.log w'
             = Mongo.log w
               ++ [mkLog LevelError first;
                   mkLog LevelError "Failed to load graph points"])
  /\ (forall (toSeconds : option Z -> option Z) (w : MySQL.World),
        MySQL.queue w = [] -> MySQL.faults w = Some e :: rest ->
        exists w',
          (MySQL.loadGraphPoints graphDuration ;; MySQL.turns toSeconds 1) w
          = (Throw e, w')
          /\ MySQL.serverRegistrations w' = MySQL.serverRegistrations w
          /\ MySQL.timeTracker w' = MySQL.timeTracker w
          /\ MySQL.fired w' = MySQL.fired w
          /\ MySQL.server w' = MySQL.server w
          /\ MySQL.log w'
             = MySQL.log w ++ [mkLog LevelError "Cannot get recent pings"]).
Proof.
  split.
  - intros w Hc Hf. destruct w as [d c f lg regs tt0 ck cfg iv fr].
    cbn in Hc, Hf. subst c f.
    unfold Mongo.loadGraphPoints, Mongo.getRecentPings, Mongo.driver,
      Mongo.getEpochMillis, try_catch, bind. cbn.
    eexists. split; [reflexivity|].
    cbn. repeat split. eexists. rewrite <- app_assoc. reflexivity.
  - intros toSeconds w Hq Hf.
    destruct w as [[p ih ii ti pr] f q lg regs tt0 ck cfg iv fr rp].
    cbn in Hq, Hf. subst q f. eexists. split; [reflexivity|].
    repeat split.
Qed.

Lemma failed_loadGraphPoints_delivers_nothing_witness :
  (exists w',
      Mongo.loadGraphPoints 2000 Samples.mongo_refusing
      = (Throw Scenario.lock_wait_timeout, w')
      /\ Mongo.serverRegistrations w' = Samples.services
      /\ Mongo.fired w' = [])
  /\ (exists w',
        (MySQL.loadGraphPoints 2000 ;; MySQL.turns Scenario.toSeconds 1)
          Samples.mysql_refusing = (Throw Scenario.lock_wait_timeout, w')
        /\ MySQL.serverRegistrations w' = Samples.services
        /\ MySQL.fired w' = []).
Proof.
  split.
  - destruct (proj1 (failed_loadGraphPoints_delivers_nothing 2000
                       Scenario.lock_wait_timeout [])
                Samples.mongo_refusing eq_refl eq_refl)
      as (w' & E & Hr & _ & Hfd & _).
    exists w'. repeat split; assumption.
  - destruct (proj2 (failed_loadGraphPoints_delivers_nothing 2000
                       Scenario.lock_wait_timeout [])
                Scenario.toSeconds Samples.mysql_refusing eq_refl eq_refl)
      as (w' & E & Hr & _ & Hfd & _).
    exists w'. repeat split; assumption.
Defined.

End StoreFacts.

(* ================================================================== *)
(** * The countdown to the next connection attempt *)

Module ReconnectFacts.
Import Socket Reconnect.

Lemma run_app (a b : list Event) (p : Page) :
  run (a ++ b) p = run b (run a p).
Proof. apply fold_left_app. Qed.

(** While seconds remain, a tick only lowers the counter and shows it. *)
Lemma tick_waits (p : Page) (i : nat) (d : Z) :
  intervals p = S i ->
  _reconnectDelaySeconds (manager p) = Some d ->
  1 < d ->
  tick p
  = with_caption
      (with_manager p
         (mkSocketManager (_hasRequestedHistoryGraph (manager p))
            (_reconnectDelayBase (manager p)) (Some (d - 1))
            (_webSocket (manager p))))
      (CaptionReconnectingIn (d - 1)).
Proof.
  intros Hi Hd Hlt. unfold tick. rewrite Hi, Hd.
  destruct (Z.eqb_spec (d - 1) 0) as [E|_]; [lia|].
  destruct (Z.ltb_spec 0 (d - 1)) as [_|E]; [reflexivity|lia].
Qed.

Lemma ticks_wait (n : nat) : forall (p : Page) (i : nat) (d : Z),
  intervals p = S i ->
  _reconnectDelaySeconds (manager p) = Some d ->
  Z.of_nat n < d ->
  let q := run (repeat Tick n) p in
  _reconnectDelaySeconds (manager q) = Some (d - Z.of_nat n)
  /\ _webSocket (manager q) = _webSocket (manager p)
  /\ nextSocket q = nextSocket p
  /\ intervals q = intervals p
  /\ sent q = sent p
  /\ _hasRequestedHistoryGraph (manager q)
     = _hasRequestedHistoryGraph (manager p)
  /\ caption q = match n with
                 | O => caption p
                 | S _ => CaptionReconnectingIn (d - Z.of_nat n)
                 end.
Proof.
  induction n as [|n IH]; intros p i d Hi Hd Hlt q.
  - subst q. cbn [repeat run fold_left]. rewrite Z.sub_0_r.
    repeat split; auto.
  - subst q. cbn [repeat run fold_left step].
    rewrite (tick_waits p i d Hi Hd) by lia.
    set (p1 := with_caption _ _).
    destruct (IH p1 i (d - 1)) as (A & B & C & D & E & F & G);
      [exact Hi|reflexivity|lia|].
    fold (run (repeat Tick n) p1).
    replace (d - Z.of_nat (S n)) with (d - 1 - Z.of_nat n) by lia.
    split; [exact A|]. split; [exact B|]. split; [exact C|].
    split; [exact D|]. split; [exact E|]. split; [exact F|].
    rewrite G. destruct n as [|n]; [|reflexivity].
    cbn [p1 with_caption caption]. f_equal. lia.
Qed.

Lemma onclose_shape (code : Z) (p : Page) :
  intervals (onclose code p) = S (intervals p)
  /\ _reconnectDelaySeconds (manager (onclose code p))
     = Some (delay_of (onclose code p))
  /\ _webSocket (manager (onclose code p)) = None
  /\ nextSocket (onclose code p) = nextSocket p
  /\ sent (onclose code p) = sent p
  /\ caption (onclose code p) = CaptionLost.
Proof.
  unfold onclose, delay_of. destruct (code =? 1006); cbn; repeat split.
Qed.

(** X21: while the countdown of [scheduleReconnect] has seconds left no
    connection is attempted: after fewer ticks than the delay the page has
    no socket and has created none, the caption shows the seconds that
    remain (and the loss of the connection before the first tick), and
    the timer is still running. *)
Theorem no_attempt_before_the_delay (code : Z) (p : Page) (k : nat) :
  Z.of_nat k < delay_of (onclose code p) ->
  let q := run (repeat Tick k) (onclose code p) in
  _webSocket (manager q) = None
  /\ nextSocket q = nextSocket p
  /\ caption q = match k with
                 | O => CaptionLost
                 | S _ => CaptionReconnectingIn
                            (delay_of (onclose code p) - Z.of_nat k)
                 end
  /\ intervals q = S (intervals p)
  /\ sent q = sent p.
Proof.
  intros Hlt q.
  destruct (onclose_shape code p) as (Hi & Hd & Hs & Hn & Hsent & Hcap).
  destruct (ticks_wait k (onclose code p) (intervals p)
              (delay_of (onclose code p)) Hi Hd Hlt)
    as (A & B & C & D & E & F & G).
  fold q in A, B, C, D, E, F, G.
  split; [now rewrite B|]. split; [now rewrite C|]. split.
  - rewrite G. destruct k; [exact Hcap|reflexivity].
  - split; [now rewrite D|now rewrite E].
Qed.

Lemma no_attempt_before_the_delay_witness :
  _webSocket (manager (run (repeat Tick 3) (run Samples.twice_refused init)))
  = None
  /\ caption (run (repeat Tick 3) (run Samples.twice_refused init))
     = CaptionReconnectingIn 1.
Proof.
  destruct (no_attempt_before_the_delay 1006
              (run [Close 1006; Tick] init) 3 eq_refl)
    as (Hs & _ & Hc & _).
  split; [exact Hs|exact Hc].
Defined.

Lemma one_countdown_step (p : Page) (e : Event) :
  one_countdown p ->
  (is_close e = true -> live p = true) ->
  one_countdown (step p e)
  /\ (nextSocket (step p e) + intervals (step p e)
      = nextSocket p + intervals p + (if is_close e then 1 else 0))%nat.
Proof.
  intros [Hb Hs] Hclose. unfold one_countdown, live in *.
  destruct p as [[flag base delay socket] next snt ivs cap unc].
  cbn in Hb, Hs, Hclose.
  destruct e as [|code| |[|]| | |]; cbn [step is_close].
  - cbn. split; [|lia]. split; [lia|exact Hs].
  - specialize (Hclose eq_refl).
    destruct Hs as [[_ ->]|[Hl _]]; [|congruence].
    unfold onclose, handleDisconnect, reset, scheduleReconnect.
    destruct (code =? 1006); cbn; (split; [|lia]); (split; [lia|]);
      right; repeat split; eexists; (split; [reflexivity|]); nia.
  - destruct Hs as [[Hl ->]|(Hl & -> & d & Hd & Hge)].
    + cbn. split; [|lia]. split; [exact Hb|]. left. now split.
    + cbn in Hd. subst delay. unfold tick. cbn [intervals manager
        _reconnectDelaySeconds].
      destruct (Z.eqb_spec (d - 1) 0) as [E|Hne].
      * cbn. split; [|lia]. split; [exact Hb|]. left. now split.
      * destruct (Z.ltb_spec 0 (d - 1)) as [Hpos|Hneg]; [|lia].
        cbn. split; [|lia]. split; [exact Hb|]. right.
        split; [exact Hl|]. split; [reflexivity|].
        eexists. split; [reflexivity|lia].
  - unfold sendHistoryGraphRequest. cbn.
    destruct flag, socket; cbn; (split; [|lia]); (split; [exact Hb|exact Hs]).
  - split; [|lia]. split; [exact Hb|exact Hs].
  - split; [|lia]. split; [exact Hb|exact Hs].
  - split; [|lia]. split; [exact Hb|exact Hs].
  - unfold sendHistoryGraphRequest. cbn.
    destruct flag, socket; cbn; (split; [|lia]); (split; [exact Hb|exact Hs]).
Qed.

Lemma one_countdown_run (evs : list Event) : forall p : Page,
  one_countdown p -> closes_live evs p = true ->
  one_countdown (run evs p)
  /\ (nextSocket (run evs p) + intervals (run evs p)
      = nextSocket p + intervals p + closes evs)%nat.
Proof.
  unfold closes.
  induction evs as [|e evs IH]; intros p Hp Hl.
  - split; [exact Hp|cbn; lia].
  - cbn [closes_live] in Hl. apply andb_true_iff in Hl as [Hl1 Hl2].
    destruct (one_countdown_step p e Hp) as [Hp1 Hn1].
    { intros He. now rewrite He in Hl1. }
    destruct (IH (step p e) Hp1 Hl2) as [Hp2 Hn2].
    cbn [run fold_left]. fold (run evs (step p e)).
    split; [exact Hp2|]. rewrite Hn2, Hn1. cbn [filter].
    destruct (is_close e); cbn [List.length]; lia.
Qed.

(** X22: as long as [onclose] is only called while the page has a socket,
    at most one countdown runs at any time, and it runs exactly while the
    page has no socket, with at least one second to go; every close is
    followed by one new socket, so the sockets created and the countdown
    still running add up to one more than the closes. *)
Theorem at_most_one_countdown (evs : list Event) :
  closes_live evs init = true ->
  let q := run evs init in
  (intervals q <= 1)%nat
  /\ (intervals q = 1%nat <-> _webSocket (manager q) = None)
  /\ (nextSocket q + intervals q = 1 + closes evs)%nat
  /\ (intervals q = 1%nat ->
      exists d, _reconnectDelaySeconds (manager q) = Some d /\ 1 <= d).
Proof.
  intros Hl q.
  assert (Hinit : one_countdown init).
  { split; [cbn; lia|]. left. now split. }
  destruct (one_countdown_run evs init Hinit Hl) as [[_ Hs] Hn].
  fold q in Hs, Hn. unfold live in Hs.
  destruct Hs as [[Hlive Hi]|(Hlive & Hi & Hd)].
  - split; [lia|]. split; [|split; [exact Hn|]].
    + split; [lia|]. intros E. now rewrite E in Hlive.
    + lia.
  - split; [lia|]. split; [|split; [exact Hn|]].
    + split; [|auto]. intros _.
      now destruct (_webSocket (manager q)).
    + intros _. exact Hd.
Qed.

Lemma at_most_one_countdown_witness :
  (intervals (run Samples.twice_refused init) <= 1)%nat
  /\ (nextSocket (run Samples.twice_refused init)
      + intervals (run Samples.twice_refused init) = 3)%nat.
Proof.
  destruct (at_most_one_countdown Samples.twice_refused eq_refl)
    as (Hle & _ & Hn & _).
  split; [exact Hle|exact Hn].
Defined.

(** X23: a [sendHistoryGraphRequest] made while the page has no socket
    raises a [TypeError] after the flag was set: nothing is sent, and as
    long as no close follows nothing is sent afterwards either, also not
    on the connection that comes next. *)
Theorem request_without_socket_is_lost (p : Page) (evs : list Event) :
  _webSocket (manager p) = None ->
  _hasRequestedHistoryGraph (manager p) = false ->
  forallb (fun e => negb (is_close e)) evs = true ->
  let q := step p CallSendHistoryGraphRequest in
  uncaught q = S (uncaught p)
  /\ _hasRequestedHistoryGraph (manager q) = true
  /\ sent (run evs q) = sent p.
Proof.
  intros Hs Hf Hevs q.
  assert (Hq : uncaught q = S (uncaught p)
               /\ _hasRequestedHistoryGraph (manager q) = true
               /\ sent q = sent p).
  { subst q. cbn [step]. unfold sendHistoryGraphRequest.
    rewrite Hf, Hs. cbn. repeat split. }
  destruct Hq as (A & B & C).
  split; [exact A|]. split; [exact B|].
  rewrite <- C. now apply SocketFacts.run_keeps_flag.
Qed.

Lemma request_without_socket_is_lost_witness :
  uncaught (step Samples.disconnected CallSendHistoryGraphRequest) = 1%nat
  /\ sent (run [Tick; Open; MsgInit true]
             (step Samples.disconnected CallSendHistoryGraphRequest))
     = [].
Proof.
  destruct (request_without_socket_is_lost Samples.disconnected
              [Tick; Open; MsgInit true] eq_refl eq_refl eq_refl)
    as (Hu & _ & Hs).
  split; [exact Hu|exact Hs].
Defined.

End ReconnectFacts.

(* ================================================================== *)
(** * The timers and the counters of the application *)

Module AppFacts.
Import App.

Lemma clearInterval_all (ids : list nat) : forall running : list nat,
  fold_left clearInterval ids running
  = filter (fun t => negb (existsb (Nat.eqb t) ids)) running.
Proof.
  induction ids as [|id ids IH]; intros running.
  - cbn. induction running as [|t l IHl]; [reflexivity|].
    cbn. now rewrite <- IHl.
  - cbn [fold_left]. rewrite IH. unfold clearInterval.
    induction running as [|t l IHl]; [reflexivity|].
    cbn [filter existsb].
    destruct (Nat.eqb t id); cbn [negb orb filter]; [exact IHl|].
    destruct (existsb (Nat.eqb t) ids); cbn [negb]; [exact IHl|].
    now rewrite IHl.
Qed.

Lemma clearInterval_own (ids : list nat) :
  fold_left clearInterval ids ids = [].
Proof.
  rewrite clearInterval_all.
  assert (H : forall l, incl l ids ->
            filter (fun t => negb (existsb (Nat.eqb t) ids)) l = []).
  { induction l as [|t l IH]; intros Hin; [reflexivity|].
    cbn [filter].
    assert (Ht : existsb (Nat.eqb t) ids = true).
    { apply existsb_exists. exists t. split; [apply Hin; now left|].
      apply Nat.eqb_refl. }
    rewrite Ht. cbn [negb]. apply IH. intros x Hx. apply Hin. now right. }
  apply H, incl_refl.
Qed.

Section WithFormat.

Variable formatNumber : Num -> string.

Lemma tasks_tracked_call (s : State) (c : Call) (n : nat) :
  tasks_tracked s -> List.length (_taskIds s) = n ->
  tasks_tracked (call formatNumber s c)
  /\ List.length (_taskIds (call formatNumber s c)) = configured [c] n.
Proof.
  intros (Ht & Hnd & Hlt) Hn. unfold tasks_tracked.
  destruct c as [|isReady|counts|counts|]; cbn [call configured].
  - cbn. rewrite Ht, length_app, Hn. cbn.
    split; [|lia]. split; [reflexivity|]. split.
    + apply NoDup_app; [exact Hnd|repeat constructor; intros []|].
      intros id Hin [<-|[]]. specialize (Hlt _ Hin). lia.
    + intros id Hin. apply in_app_or in Hin as [Hin|[<-|[]]];
        [specialize (Hlt _ Hin)|]; lia.
  - cbn. repeat split; auto.
  - unfold handleSyncComplete, updateGlobalStats.
    destruct (strict_ne _ _); cbn;
      destruct (_lastServerRegistrationCount s) as [last|]; cbn;
      try destruct (Nat.eqb _ last); cbn; repeat split; auto.
  - unfold updateGlobalStats.
    destruct (strict_ne _ _); cbn;
      destruct (_lastServerRegistrationCount s) as [last|]; cbn;
      try destruct (Nat.eqb _ last); cbn; repeat split; auto.
  - cbn. rewrite Ht, clearInterval_own.
    repeat split; [constructor|intros ? []].
Qed.

Lemma tasks_tracked_calls (cs : list Call) : forall (s : State) (n : nat),
  tasks_tracked s -> List.length (_taskIds s) = n ->
  tasks_tracked (calls formatNumber cs s)
  /\ List.length (_taskIds (calls formatNumber cs s)) = configured cs n.
Proof.
  induction cs as [|c cs IH]; intros s n Hs Hn; [now split|].
  destruct (tasks_tracked_call s c n Hs Hn) as [Hs1 Hn1].
  cbn [calls fold_left]. fold (calls formatNumber cs (call formatNumber s c)).
  destruct (IH _ _ Hs1 Hn1) as [Hs2 Hn2]. split; [exact Hs2|].
  rewrite Hn2. now destruct c.
Qed.

(** X24: the timers of the application are the ones it remembers in
    [_taskIds]: after any calls they are all different, there is one for
    each [setPublicConfig] since the last [handleDisconnect], and
    [handleDisconnect] stops every one of them and forgets them. *)
Theorem timers_are_the_remembered_tasks (players networks : string)
  (cs : list Call) :
  let s := calls formatNumber cs (constructor players networks) in
  timers s = _taskIds s
  /\ NoDup (timers s)
  /\ List.length (timers s) = configured cs 0
  /\ timers (handleDisconnect s) = []
  /\ _taskIds (handleDisconnect s) = [].
Proof.
  intros s.
  destruct (tasks_tracked_calls cs (constructor players networks) 0)
    as [(Ht & Hnd & _) Hn].
  { repeat split; [constructor|intros ? []]. }
  { reflexivity. }
  fold s in Ht, Hnd, Hn. rewrite Ht.
  split; [reflexivity|]. split; [exact Hnd|]. split; [exact Hn|].
  split; [|reflexivity]. cbn. rewrite Ht. apply clearInterval_own.
Qed.

Lemma updateGlobalStats_shows (counts : list Value) (s : State) :
  in_step formatNumber s ->
  let s' := updateGlobalStats formatNumber counts s in
  in_step formatNumber s'
  /\ stat_totalPlayers s' = formatNumber (getTotalPlayerCount counts)
  /\ stat_networks s' = Js.string_of_Z (Z.of_nat (List.length counts))
  /\ _lastServerRegistrationCount s' = Some (List.length counts)
  /\ _lastTotalPlayerCount s' = Number (getTotalPlayerCount counts).
Proof.
  intros [Hp Hn] s'. subst s'. unfold updateGlobalStats, in_step.
  set (total := getTotalPlayerCount counts).
  assert (Hsame : strict_ne total (_lastTotalPlayerCount s) = false ->
            _lastTotalPlayerCount s = Number total).
  { unfold strict_ne. destruct total as [|x|n]; [discriminate| |];
      destruct (_lastTotalPlayerCount s) as [|[|y|n']]; try discriminate;
      intros H; apply negb_false_iff in H.
    - apply Z.eqb_eq in H. now subst.
    - apply Bool.eqb_prop in H. now subst. }
  destruct (strict_ne total (_lastTotalPlayerCount s)) eqn:Ene;
    [clear Hsame|specialize (Hsame eq_refl)];
    cbn [_lastServerRegistrationCount];
    destruct (_lastServerRegistrationCount s) as [last|] eqn:El;
    try (destruct (Nat.eqb_spec (List.length counts) last) as [E|Hne]);
    cbn [_lastTotalPlayerCount _lastServerRegistrationCount
         stat_totalPlayers stat_networks];
    rewrite ?El;
    (split; [split|split; [|split; [|split]]]);
    first
      [ reflexivity
      | exact Hp
      | exact Hn
      | exact Hsame
      | exact (Hp _ Hsame)
      | now rewrite E
      | rewrite E; apply Hn; reflexivity
      | intros ? [= <-]; reflexivity
      | intros ? H; discriminate H ].
Qed.

Lemma in_step_call (s : State) (c : Call) :
  in_step formatNumber s -> in_step formatNumber (call formatNumber s c).
Proof.
  intros Hs. destruct c as [|isReady|counts|counts|]; cbn [call].
  - exact Hs.
  - exact Hs.
  - apply (updateGlobalStats_shows counts s Hs).
  - apply (updateGlobalStats_shows counts s Hs).
  - split; cbn; intros ? H; discriminate H.
Qed.

Lemma in_step_calls (cs : list Call) : forall s : State,
  in_step formatNumber s -> in_step formatNumber (calls formatNumber cs s).
Proof.
  induction cs as [|c cs IH]; intros s Hs; [exact Hs|].
  cbn [calls fold_left]. apply IH, in_step_call, Hs.
Qed.

Lemma to_double_small (z : Z) : Z.abs z < 2 ^ 53 -> to_double z = Int z.
Proof.
  intros H. unfold to_double.
  destruct (Z.ltb_spec (Z.abs z) (2 ^ 53)); [reflexivity|lia].
Qed.

Lemma getTotalPlayerCount_numbers (zs : list Z) :
  Forall (fun z => 0 <= z) zs -> fold_right Z.add 0 zs < 2 ^ 53 ->
  getTotalPlayerCount (map (fun z => Number (Int z)) zs)
  = Int (fold_right Z.add 0 zs).
Proof.
  unfold getTotalPlayerCount. intros Hpos Hsum.
  assert (H : forall a, 0 <= a -> a + fold_right Z.add 0 zs < 2 ^ 53 ->
            fold_left add (map (fun z => Number (Int z)) zs) (Int a)
            = Int (a + fold_right Z.add 0 zs)).
  { clear Hsum. induction Hpos as [|z zs Hz Hzs IH]; intros a Ha Hlt.
    - cbn. f_equal. lia.
    - cbn [map fold_left fold_right add] in *.
      assert (Hrest : 0 <= fold_right Z.add 0 zs).
      { clear -Hzs. induction Hzs; cbn; lia. }
      rewrite to_double_small by lia.
      rewrite IH by lia. f_equal. lia. }
  apply (H 0); lia.
Qed.

Lemma getTotalPlayerCount_undefined (counts : list Value) :
  In Undefined counts -> getTotalPlayerCount counts = NaN.
Proof.
  unfold getTotalPlayerCount.
  assert (Hnan : forall l, fold_left add l NaN = NaN)
    by (induction l as [|v l IH]; [reflexivity|exact IH]).
  generalize (Int 0).
  induction counts as [|v counts IH]; intros a Hin; [destruct Hin|].
  destruct Hin as [->|Hin].
  - cbn. destruct a; apply Hnan.
  - cbn. destruct (add a v); [apply Hnan|now apply IH|now apply IH].
Qed.

(** X25: after [updateGlobalStats] the two counters of the page show the
    registry, whatever was called before: the total of the player counts,
    added as doubles, as [formatNumber] prints it, and the number of
    registrations; when the counts are numbers that are not negative and
    their sum is below 2^53 the total is that sum and a second call
    changes nothing, and when a count is undefined the total is [NaN]. *)
Theorem counters_show_the_registry (players networks : string)
  (cs : list Call) (counts : list Value) :
  let s := updateGlobalStats formatNumber counts
             (calls formatNumber cs (constructor players networks)) in
  stat_totalPlayers s = formatNumber (getTotalPlayerCount counts)
  /\ stat_networks s = Js.string_of_Z (Z.of_nat (List.length counts))
  /\ (forall zs, counts = map (fun z => Number (Int z)) zs ->
        Forall (fun z => 0 <= z) zs -> fold_right Z.add 0 zs < 2 ^ 53 ->
        stat_totalPlayers s = formatNumber (Int (fold_right Z.add 0 zs))
        /\ updateGlobalStats formatNumber counts s = s)
  /\ (In Undefined counts -> stat_totalPlayers s = formatNumber NaN).
Proof.
  intros s.
  assert (H0 : in_step formatNumber (constructor players networks))
    by (split; intros ? H; discriminate H).
  pose proof (in_step_calls cs _ H0) as H1.
  destruct (updateGlobalStats_shows counts _ H1) as (H2 & A & B & C & D).
  fold s in H2, A, B, C, D.
  split; [exact A|]. split; [exact B|]. split.
  - intros zs -> Hpos Hsum.
    rewrite (getTotalPlayerCount_numbers zs Hpos Hsum) in A, D.
    split; [exact A|].
    unfold updateGlobalStats.
    rewrite (getTotalPlayerCount_numbers zs Hpos Hsum), D.
    cbn [strict_ne]. rewrite Z.eqb_refl. cbn [negb].
    rewrite C, Nat.eqb_refl. reflexivity.
  - intros Hin. now rewrite A, getTotalPlayerCount_undefined.
Qed.

End WithFormat.

Lemma counters_show_the_registry_witness :
  stat_totalPlayers
    (updateGlobalStats Samples.decimal
       [Number (Int 3); Number (Int 4)]
       (calls Samples.decimal Samples.session (constructor "-" "-")))
  = "7"
  /\ stat_totalPlayers
       (updateGlobalStats Samples.decimal [Number (Int 3); Undefined]
          (calls Samples.decimal Samples.session (constructor "-" "-")))
     = "NaN"
  /\ stat_totalPlayers
       (updateGlobalStats Samples.decimal
          [Number (Int 9007199254740992); Number (Int 1)]
          (calls Samples.decimal Samples.session (constructor "-" "-")))
     = "9007199254740992".
Proof.
  split; [|split].
  - assert (Hpos : Forall (fun z => 0 <= z) [3; 4])
      by (repeat constructor; lia).
    assert (Hsum : fold_right Z.add 0 [3; 4] < 2 ^ 53) by reflexivity.
    exact (proj1 (proj1 (proj2 (proj2
             (counters_show_the_registry Samples.decimal "-" "-"
                Samples.session [Number (Int 3); Number (Int 4)])))
             [3; 4] eq_refl Hpos Hsum)).
  - exact (proj2 (proj2 (proj2
             (counters_show_the_registry Samples.decimal "-" "-"
                Samples.session [Number (Int 3); Undefined])))
             (or_intror (or_introl eq_refl))).
  - rewrite (proj1 (counters_show_the_registry Samples.decimal "-" "-"
                      Samples.session
                      [Number (Int 9007199254740992); Number (Int 1)])).
    vm_compute. reflexivity.
Defined.

End AppFacts.
